(** * LanMonitor: a shallow embedding of [lanmonitor.py]

    The program sweeps the /24 range around the host's own address with
    [ping], resolves hardware addresses from [arp -a], keeps a registry
    of devices in an SQLite table and, in a loop, diffs the live list of
    devices against the latest sweep.

    Modelling conventions.
    - Python [str] values are [string]s.  The regular-expression classes
      [\d] and [\w] and the line boundaries of [str.splitlines] are
      modelled on their ASCII part.
    - Everything the program reads from outside (the text printed by
      [ipconfig], [ping] and [arp], the answers of the vendor service) is
      an explicit argument.
    - Exceptions are values of [exn]; a computation that may raise
      returns a [result].
    - The SQLite file is a component of the [store] that is threaded
      through the registry functions.
    - The lines the user types are an explicit argument of [menu], and
      so is [int], which reads them.
    - Wall-clock values ([total_time], the timestamps of the notices) and
      console output are left out. *)

From Stdlib Require Import String Ascii List ZArith Lia Bool Arith DecimalString.
From Stdlib Require DecimalNat.
Import ListNotations.
Open Scope string_scope.
Open Scope list_scope.

Set Implicit Arguments.

(** ** Exceptions and results *)

Inductive exn : Type :=
| SystemExit (msg : string)   (* what [sys.exit(msg)] raises *)
| NameError (name : string)
| TypeError (msg : string)
| ValueError (msg : string)
| IndexError (msg : string)
| OperationalError (msg : string)
| IntegrityError (msg : string).

Inductive result (A : Type) : Type :=
| Return (a : A)
| Raise (e : exn).

Arguments Return {A} a.
Arguments Raise {A} e.

(** ** Python string operations *)

Module Py.

(** [n in s] for two strings. *)
Fixpoint contains (n s : string) : bool :=
  if String.prefix n s then true
  else match s with
       | EmptyString => false
       | String _ s' => contains n s'
       end.

(** [s[start:stop]] for [0 <= start <= stop]. *)
Definition slice (s : string) (start stop : nat) : string :=
  String.substring start (stop - start) s.

(** [str(i)] for a non-negative integer. *)
Definition str (i : nat) : string :=
  NilEmpty.string_of_uint (Nat.to_uint i).

(** Line boundaries recognised by [str.splitlines] (ASCII part). *)
Definition is_linebreak (a : ascii) : bool :=
  let n := nat_of_ascii a in
  existsb (Nat.eqb n) [10; 11; 12; 13; 28; 29; 30]%nat.

Definition is_cr (a : ascii) : bool := Nat.eqb (nat_of_ascii a) 13.
Definition is_lf (a : ascii) : bool := Nat.eqb (nat_of_ascii a) 10.

(** [cur] is the line read so far. A carriage return followed by a line
    feed is one boundary; no empty line is produced after a final
    boundary. *)
Fixpoint splitlines_from (cur s : string) : list string :=
  match s with
  | EmptyString =>
      match cur with
      | EmptyString => []
      | _ => [cur]
      end
  | String a s' =>
      if is_cr a then
        match s' with
        | String b s'' =>
            if is_lf b then cur :: splitlines_from EmptyString s''
            else cur :: splitlines_from EmptyString s'
        | EmptyString => cur :: splitlines_from EmptyString s'
        end
      else if is_linebreak a then cur :: splitlines_from EmptyString s'
      else splitlines_from (cur ++ String a EmptyString)%string s'
  end.

Definition splitlines (s : string) : list string :=
  splitlines_from EmptyString s.

(** [range(a, b)] *)
Definition range (a b : nat) : list nat := seq a (b - a).

(** [l.remove(x)]: drops the first element equal to [x]; [None] stands
    for the [ValueError] raised when there is none. *)
Fixpoint list_remove {A : Type} (eqb : A -> A -> bool) (x : A) (l : list A)
  : option (list A) :=
  match l with
  | [] => None
  | y :: l' =>
      if eqb y x then Some l'
      else match list_remove eqb x l' with
           | Some r => Some (y :: r)
           | None => None
           end
  end.

End Py.

(** ** The fragment of [re] used by the program *)

Module Re.

Inductive charclass : Type :=
| Digit                 (* \d *)
| Word                  (* \w *)
| Lit (a : ascii).      (* a literal character *)

Inductive atom : Type :=
| One (c : charclass)   (* c  *)
| Plus (c : charclass). (* c+ *)

Definition regex := list atom.

Definition is_digit (a : ascii) : bool :=
  let n := nat_of_ascii a in ((48 <=? n) && (n <=? 57))%nat.

Definition is_word (a : ascii) : bool :=
  let n := nat_of_ascii a in
  is_digit a
  || ((65 <=? n) && (n <=? 90))%nat
  || ((97 <=? n) && (n <=? 122))%nat
  || Nat.eqb n 95.

Definition class_match (c : charclass) (a : ascii) : bool :=
  match c with
  | Digit => is_digit a
  | Word => is_word a
  | Lit b => Ascii.eqb a b
  end.

(** Length of the match of [re] anchored at the start of [s]; [c+] is
    greedy and gives characters back when the rest fails. *)
Fixpoint match_here (re : regex) (s : string) : option nat :=
  match re with
  | [] => Some 0
  | One c :: re' =>
      match s with
      | String a s' =>
          if class_match c a then option_map S (match_here re' s') else None
      | EmptyString => None
      end
  | Plus c :: re' =>
      (fix plus (s : string) : option nat :=
         match s with
         | String a s' =>
             if class_match c a then
               match plus s' with
               | Some n => Some (S n)
               | None => option_map S (match_here re' s')
               end
             else None
         | EmptyString => None
         end) s
  end.

Fixpoint search_from (re : regex) (s : string) (pos : nat)
  : option (nat * nat) :=
  match match_here re s with
  | Some n => Some (pos, pos + n)
  | None =>
      match s with
      | EmptyString => None
      | String _ s' => search_from re s' (S pos)
      end
  end.

(** [pattern.search(s)]: start and end of the leftmost match. *)
Definition search (re : regex) (s : string) : option (nat * nat) :=
  search_from re s 0.

End Re.

Definition dash : Re.atom := Re.One (Re.Lit "-"%char).
Definition dot : Re.atom := Re.One (Re.Lit "."%char).
Definition word_char : Re.atom := Re.One Re.Word.
Definition digits : Re.atom := Re.Plus Re.Digit.

(** [\w\w-\w\w-\w\w-\w\w-\w\w-\w\w] *)
Definition mac_pattern : Re.regex :=
  [word_char; word_char; dash; word_char; word_char; dash;
   word_char; word_char; dash; word_char; word_char; dash;
   word_char; word_char; dash; word_char; word_char].

(** [\d+\.\d+\.\d+\.\d+] *)
Definition ip_pattern : Re.regex :=
  [digits; dot; digits; dot; digits; dot; digits].

(** [\d+\.\d+\.\d+\.] *)
Definition ip_range_pattern : Re.regex :=
  [digits; dot; digits; dot; digits; dot].

(** ** fetch_user_id *)

Record user_id : Type := mk_user_id {
  u_name : string;
  u_ip : option string;      (* [None] is Python's None *)
  u_mac : option string
}.

(** The two local functions share their shape: the first line that
    contains [key] and has a match of [pat] decides. *)
Fixpoint line_find (key : string) (pat : Re.regex) (lines : list string)
  : option string :=
  match lines with
  | [] => None
  | line :: rest =>
      if Py.contains key line then
        match Re.search pat line with
        | Some (b, e) => Some (Py.slice line b e)
        | None => line_find key pat rest
        end
      else line_find key pat rest
  end.

Definition mac_find (ipconfig_output : list string) : option string :=
  line_find "Physical Address" mac_pattern ipconfig_output.

Definition ip_find (ipconfig_output : list string) : option string :=
  line_find "IPv4 Address" ip_pattern ipconfig_output.

(** [ipconfig_stdout] is the text printed by [ipconfig /all]. *)
Definition fetch_user_id (ipconfig_stdout : string) : result user_id :=
  let ipconfig_output := Py.splitlines ipconfig_stdout in
  let ip := ip_find ipconfig_output in
  let mac := mac_find ipconfig_output in
  Return (mk_user_id "Your Device" ip mac).

(** ** ping_all *)

(** The variables of the sweep: [ip_list] and [ping_count], which
    [ping_all] returns, the counter [unused_count] and, as a ghost field,
    the probes issued so far, in order, each with the value of [exists]
    the sweep computed for it. *)
Record sweep : Type := mk_sweep {
  ip_list : list string;
  ping_count : nat;
  unused_count : nat;
  probed : list (string * bool)
}.

Definition not_found_messages : list string :=
  ["unreachable"; "timed out"; "100%% lost"].

(** The loop over [not_found_messages]: returns [exists] and the updated
    [unused_count]. *)
Fixpoint classify (msgs : list string) (ping_output : string)
    (unused : nat) : bool * nat :=
  match msgs with
  | [] => (true, unused)
  | n :: rest =>
      if Py.contains n ping_output then (false, S unused)
      else classify rest ping_output unused
  end.

Definition ping_args (timeout : nat) (ip_postfix : string) : list string :=
  ["ping"; "-w"; Py.str timeout; "-l"; "1"; "-n"; "1"; ip_postfix].

Section Sweep.

(** The text [ping] prints for a given argument list. *)
Variable ping : list string -> string.
Variable x : string.
Variable timeout : nat.
Variable ip_prefix : string.

(** The body of [for i in range(0, 255)], over the values of [i] still to
    come. *)
Fixpoint sweep_loop (range : list nat) (st : sweep) : sweep :=
  match range with
  | [] => st
  | i :: range' =>
      let ip_postfix := (ip_prefix ++ Py.str i)%string in
      if String.eqb x ip_postfix then sweep_loop range' st
      else
        let ping_output := ping (ping_args timeout ip_postfix) in
        let '(exists_, unused) :=
          classify not_found_messages ping_output (unused_count st) in
        let st' :=
          if exists_ then
            mk_sweep (ip_list st ++ [ip_postfix]) (S (ping_count st)) 0
                     (probed st ++ [(ip_postfix, true)])
          else
            mk_sweep (ip_list st) (S (ping_count st)) unused
                     (probed st ++ [(ip_postfix, false)]) in
        if (3 <? unused_count st')%nat then st' else sweep_loop range' st'
  end.

End Sweep.

(** [x] is the argument as Python passes it: [None] when [fetch_user_id]
    found no address.  [sys] is never imported, so the [sys.exit] of the
    no-match branch raises [NameError]. *)
Definition ping_all (ping : list string -> string) (x : option string)
    (timeout : nat) : result sweep :=
  match x with
  | None => Raise (TypeError "expected string or bytes-like object")
  | Some x =>
      match Re.search ip_range_pattern x with
      | Some (b, e) =>
          let ip_prefix := Py.slice x b e in
          Return (sweep_loop ping x timeout ip_prefix (Py.range 0 255)
                             (mk_sweep [] 0 0 []))
      | None => Raise (NameError "sys")
      end
  end.

(** ** Devices and the registry *)

(** A device dict: [{'ip': .., 'mac': .., 'name': .., 'id': ..}]. *)
Record device : Type := mk_device {
  c_ip : string;
  c_mac : string;
  c_name : string;
  c_id : Z
}.

Definition device_eqb (a b : device) : bool :=
  String.eqb (c_ip a) (c_ip b) && String.eqb (c_mac a) (c_mac b)
  && String.eqb (c_name a) (c_name b) && Z.eqb (c_id a) (c_id b).

Definition set_mac (c : device) (m : string) : device :=
  mk_device (c_ip c) m (c_name c) (c_id c).
Definition set_name (c : device) (n : string) : device :=
  mk_device (c_ip c) (c_mac c) n (c_id c).
Definition set_id (c : device) (i : Z) : device :=
  mk_device (c_ip c) (c_mac c) (c_name c) i.

(** The dict appended for an address that has just been found. *)
Definition new_client (ip : string) : device :=
  mk_device ip "unknown" "unknown" (-1).

(** A row of [clients (name text, mac text, id integer primary key,
    UNIQUE(mac))]. *)
Record row : Type := mk_row {
  r_name : string;
  r_mac : string;
  r_id : Z
}.

Definition table := list row.

Inductive event : Type :=
| DeviceDisconnected (d : device)
| DeviceConnected (d : device).

(** The state outside the Python heap: the table of [clients.db] ([None]
    until it is created), the hardware addresses the vendor service was
    asked about, and the notices given to the user. *)
Record store : Type := mk_store {
  db : option table;
  api_log : list string;
  notices : list event
}.

Definition set_db (s : store) (t : table) : store :=
  mk_store (Some t) (api_log s) (notices s).

(** ** The monad of the program: state and exceptions *)

Definition M (A : Type) : Type := store -> result (A * store).

Definition ret {A : Type} (a : A) : M A := fun s => Return (a, s).

Definition bind {A B : Type} (m : M A) (k : A -> M B) : M B :=
  fun s =>
    match m s with
    | Return (a, s') => k a s'
    | Raise e => Raise e
    end.

Definition raise {A : Type} (e : exn) : M A := fun _ => Raise e.

Definition lift {A : Type} (r : result A) : M A :=
  fun s =>
    match r with
    | Return a => Return (a, s)
    | Raise e => Raise e
    end.

Declare Scope monad_scope.
Delimit Scope monad_scope with monad.
Notation "x <- m ;; k" := (bind m (fun x => k))
  (at level 61, m at next level, right associativity) : monad_scope.
Notation "' pat <- m ;; k" := (bind m (fun x => match x with pat => k end))
  (at level 61, pat pattern, m at next level, right associativity)
  : monad_scope.
Notation "m ;;; k" := (bind m (fun _ => k))
  (at level 61, right associativity) : monad_scope.
Open Scope monad_scope.

(** [try: body except sqlite3.IntegrityError: handler] *)
Definition try_except_IntegrityError {A : Type} (body handler : M A) : M A :=
  fun s =>
    match body s with
    | Raise (IntegrityError _) => handler s
    | r => r
    end.

(** [for client in client_list: body], where the body updates the dict
    in place. *)
Fixpoint for_each (body : device -> M device) (client_list : list device)
  : M (list device) :=
  match client_list with
  | [] => ret []
  | client :: rest =>
      client' <- body client ;;
      rest' <- for_each body rest ;;
      ret (client' :: rest')
  end.

(** ** SQL statements *)

Definition no_such_table : exn := OperationalError "no such table: clients".

(** [SELECT .. FROM devices WHERE mac = :mac] *)
Definition select_where_mac (mac : string) : M (list row) :=
  fun s =>
    match db s with
    | Some t => Return (filter (fun r => String.eqb (r_mac r) mac) t, s)
    | None => Raise no_such_table
    end.

(** [cursor.fetchone()] *)
Definition fetchone (rows : list row) : option row := hd_error rows.

(** [CREATE TABLE IF NOT EXISTS clients (..)] *)
Definition create_table_if_not_exists : M unit :=
  fun s =>
    match db s with
    | Some _ => Return (tt, s)
    | None => Return (tt, set_db s [])
    end.

(** The largest rowid of SQLite: 9223372036854775807. *)
Definition max_rowid : Z := 2 ^ 63 - 1.

(** One more than the largest id in use, 1 in an empty table. *)
Definition largest_plus_one (ids : list Z) : Z :=
  match ids with
  | [] => 1
  | i :: ids' => fold_right Z.max i ids' + 1
  end.

(** The first of 1, 2, .. that is not in [ids]. *)
Definition first_unused (ids : list Z) : Z :=
  match find (fun k => negb (existsb (Z.eqb k) ids))
             (map Z.of_nat (seq 1 (S (length ids)))) with
  | Some k => k
  | None => 0
  end.

(** The id SQLite gives to a row inserted without one: one more than the
    largest in use, 1 in an empty table.  Once the largest id in use has
    reached [max_rowid], SQLite draws ids at random until it finds one that
    is not in use; of that draw the model keeps that the id is not in use,
    and stands for it with [first_unused]. *)
Definition next_id (t : table) : Z :=
  if Z.ltb (largest_plus_one (map r_id t)) (max_rowid + 1)
  then largest_plus_one (map r_id t)
  else first_unused (map r_id t).

(** [INSERT INTO clients (name, mac) VALUES (:name, :mac)] *)
Definition insert_client (name mac : string) : M unit :=
  fun s =>
    match db s with
    | Some t =>
        if existsb (fun r => String.eqb (r_mac r) mac) t
        then Raise (IntegrityError "UNIQUE constraint failed: clients.mac")
        else Return (tt, set_db s (t ++ [mk_row name mac (next_id t)]))
    | None => Raise no_such_table
    end.

(** [UPDATE clients SET name = :name WHERE mac = :mac] *)
Definition update_name (name mac : string) : M unit :=
  fun s =>
    match db s with
    | Some t =>
        Return (tt, set_db s
          (map (fun r => if String.eqb (r_mac r) mac
                         then mk_row name (r_mac r) (r_id r) else r) t))
    | None => Raise no_such_table
    end.

(** ** get_macs *)

(** The loop over the lines of the arp output for one client. *)
Fixpoint arp_scan (client : device) (arp_output : list string) : device :=
  match arp_output with
  | [] => client
  | line :: rest =>
      if Py.contains (c_ip client) line
         && String.eqb (c_mac client) "unknown" then
        match Re.search mac_pattern line with
        | Some (b, e) => set_mac client (Py.slice line b e)
        | None => arp_scan client rest
        end
      else arp_scan client rest
  end.

(** Returns the value of the [return] statement and the list as the loop
    leaves it. *)
Definition get_macs (arp_stdout : string) (client_list : list device)
  : bool * list device :=
  let arp_output := Py.splitlines arp_stdout in
  (true, map (fun client => arp_scan client arp_output) client_list).

(** ** get_client_names *)

Definition not_subscriptable : exn :=
  TypeError "'NoneType' object is not subscriptable".

Definition hydrate_name (client : device) : M device :=
  try_except_IntegrityError
    (rows <- select_where_mac (c_mac client) ;;
     if String.eqb (c_name client) "unknown" then
       match fetchone rows with
       | Some r => ret (set_name client (r_name r))
       | None => raise not_subscriptable
       end
     else ret client)
    (ret client).

Definition assign_id (client : device) : M device :=
  try_except_IntegrityError
    (rows <- select_where_mac (c_mac client) ;;
     if Z.eqb (c_id client) (-1) then
       match fetchone rows with
       | Some r => ret (set_id client (r_id r))
       | None => raise not_subscriptable
       end
     else ret client)
    (ret client).

Definition get_client_names (client_list : list device) : M (list device) :=
  client_list <- for_each hydrate_name client_list ;;
  for_each assign_id client_list.

(** ** save_client_name *)

Definition save_client_name (client : device) : M unit :=
  try_except_IntegrityError
    (update_name (c_name client) (c_mac client))
    (ret tt).

(** ** add_clients_to_db *)

Fixpoint register_each (clients_list : list device) : M unit :=
  match clients_list with
  | [] => ret tt
  | client :: rest =>
      rows <- select_where_mac (c_mac client) ;;
      match fetchone rows with
      | None => insert_client (c_name client) (c_mac client)
      | Some _ => ret tt
      end ;;;
      register_each rest
  end.

Definition add_clients_to_db (clients_list : list device) : M unit :=
  create_table_if_not_exists ;;;
  register_each clients_list.

(** ** The vendor service *)

Inductive api_response : Type :=
| Response (status_code : nat) (text : string)
| RequestException.

Section Enrichment.

(** [api n url]: what the [n]-th request (counting from zero) gives for
    [url]. *)
Variable api : nat -> string -> api_response.

Definition get_mac_manufacturer_api (client : device) : M device :=
  fun s =>
    let s' := mk_store (db s) (api_log s ++ [c_mac client]) (notices s) in
    match api (length (api_log s))
              ("http://api.macvendors.com/" ++ c_mac client)%string with
    | Response status_code text =>
        if Nat.eqb status_code 200
        then Return (set_name client text, s')
        else Return (client, s')
    | RequestException => Return (client, s')
    end.

(** ** get_connections_info *)

Definition enrich (client : device) : M device :=
  if String.eqb (c_name client) "unknown" then
    client <- get_mac_manufacturer_api client ;;
    save_client_name client ;;;
    ret client
  else ret client.

(** [arp_stdout] is what [arp -a] prints during this pass. *)
Definition get_connections_info (arp_stdout : string)
    (client_list : list device) : M (list device) :=
  let client_list := snd (get_macs arp_stdout client_list) in
  add_clients_to_db client_list ;;;
  client_list <- get_client_names client_list ;;
  for_each enrich client_list.

(** ** connections *)

Definition connections (ipconfig_stdout : string)
    (ping : list string -> string) (arp_stdout : string)
  : M (user_id * list device) :=
  user_id <- lift (fetch_user_id ipconfig_stdout) ;;
  sw <- lift (ping_all ping (u_ip user_id) 600) ;;
  let client_list := map new_client (ip_list sw) in
  client_list <- get_connections_info arp_stdout client_list ;;
  ret (user_id, client_list).

(** ** monitor *)

Definition disconnection_notice (dev : device) : M unit :=
  fun s => Return (tt, mk_store (db s) (api_log s)
                                (notices s ++ [DeviceDisconnected dev])).

Definition connection_notice (dev : device) : M unit :=
  fun s => Return (tt, mk_store (db s) (api_log s)
                                (notices s ++ [DeviceConnected dev])).

Definition not_in_list : exn := ValueError "list.remove(x): x not in list".

(** [for ip in latest_connections: if d['ip'] == ip: ..remove(ip); break],
    over the addresses still to visit; gives [ip_found] and the list. *)
Fixpoint ip_scan (d_ip : string) (to_visit latest_connections : list string)
  : M (bool * list string) :=
  match to_visit with
  | [] => ret (false, latest_connections)
  | ip :: rest =>
      if String.eqb d_ip ip then
        match Py.list_remove String.eqb ip latest_connections with
        | Some l => ret (true, l)
        | None => raise not_in_list
        end
      else ip_scan d_ip rest latest_connections
  end.

(** [for d in client_list] while the body removes from [client_list]:
    the list iterator holds an index [i] and stops when [i] is no longer
    inside the list as it is then.  At most [fuel] elements are visited. *)
Fixpoint check_loop (fuel i : nat) (client_list : list device)
    (latest_connections : list string) (changes_found : bool)
  : M (list device * list string * bool) :=
  match fuel with
  | O => ret (client_list, latest_connections, changes_found)
  | S fuel' =>
      match nth_error client_list i with
      | None => ret (client_list, latest_connections, changes_found)
      | Some d =>
          '(ip_found, latest_connections) <-
             ip_scan (c_ip d) latest_connections latest_connections ;;
          if ip_found then
            check_loop fuel' (S i) client_list latest_connections
                       changes_found
          else
            disconnection_notice d ;;;
            match Py.list_remove device_eqb d client_list with
            | Some client_list =>
                check_loop fuel' (S i) client_list latest_connections true
            | None => raise not_in_list
            end
      end
  end.

Definition index_error : exn := IndexError "list index out of range".

(** [for new_connection in latest_connections]; [arp k] is what [arp -a]
    prints during the pass run for the [k]-th new connection. *)
Fixpoint connect_loop (arp : nat -> string) (k : nat)
    (latest_connections : list string) (client_list : list device)
    (changes_found : bool) : M (list device * bool) :=
  match latest_connections with
  | [] => ret (client_list, changes_found)
  | new_connection :: rest =>
      let client_list := client_list ++ [new_client new_connection] in
      client_list <- get_connections_info (arp k) client_list ;;
      match nth_error client_list (length client_list - 1) with
      | Some dev => connection_notice dev
      | None => raise index_error
      end ;;;
      connect_loop arp (S k) rest client_list true
  end.

(** The two loops of [run_monitor], up to [if changes_found:]; gives the
    live list and [changes_found].  The whole body, with the call of
    [menu], is [run_monitor_cycle] below. *)
Definition run_monitor (ping : list string -> string) (arp : nat -> string)
    (id : user_id) (client_list : list device) : M (list device * bool) :=
  sw <- lift (ping_all ping (u_ip id) 1000) ;;
  let latest_connections := ip_list sw in
  '(client_list, latest_connections, changes_found) <-
     check_loop (length client_list) 0 client_list latest_connections
                false ;;
  connect_loop arp 0 latest_connections client_list changes_found.

End Enrichment.

(** ** menu *)

(** The characters [int()] skips around a number (ASCII part). *)
Definition is_space (a : ascii) : bool :=
  existsb (Nat.eqb (nat_of_ascii a)) [9; 10; 11; 12; 13; 28; 29; 30; 31; 32]%nat.

Fixpoint lstrip (s : string) : string :=
  match s with
  | EmptyString => EmptyString
  | String a s' => if is_space a then lstrip s' else s
  end.

Fixpoint string_rev (s : string) : string :=
  match s with
  | EmptyString => EmptyString
  | String a s' => (string_rev s' ++ String a EmptyString)%string
  end.

Definition strip (s : string) : string :=
  string_rev (lstrip (string_rev (lstrip s))).

Definition digit_value (a : ascii) : Z := Z.of_nat (nat_of_ascii a - 48).

(** The digits after the first one; an underscore may stand between two
    digits. *)
Fixpoint int_digits (acc : Z) (s : string) : option Z :=
  match s with
  | EmptyString => Some acc
  | String a s' =>
      if Re.is_digit a then int_digits (10 * acc + digit_value a) s'
      else if Ascii.eqb a "_" then
        match s' with
        | String b s'' =>
            if Re.is_digit b then int_digits (10 * acc + digit_value b) s''
            else None
        | EmptyString => None
        end
      else None
  end.

Definition int_unsigned (s : string) : option Z :=
  match s with
  | String a s' => if Re.is_digit a then int_digits (digit_value a) s' else None
  | EmptyString => None
  end.

Fixpoint digit_count (s : string) : Z :=
  match s with
  | EmptyString => 0
  | String a s' => (if Re.is_digit a then 1 else 0) + digit_count s'
  end.

(** What [int(s)] reads on a line of ASCII characters, with the limit of
    4300 digits that CPython has by default from version 3.11 on; [None]
    stands for the [ValueError].  It says nothing of lines with other
    characters, where [int] reads every Unicode decimal digit.  [menu]
    below does not depend on it: it takes [int] as a parameter, and this
    reading serves as an instance on ASCII lines. *)
Definition int_of_str (s : string) : option Z :=
  if Z.ltb 4300 (digit_count s) then None
  else
    match strip s with
    | String a s' =>
        if Ascii.eqb a "-" then option_map Z.opp (int_unsigned s')
        else if Ascii.eqb a "+" then int_unsigned s'
        else int_unsigned (String a s')
    | EmptyString => None
    end.

(** How a function that reads lines from the user ends: with a value, the
    state and the lines not read yet; with an exception; or with the
    [EOFError] of [input()] when no line is left. *)
Inductive outcome (A : Type) : Type :=
| Done (a : A) (s : store) (inputs : list string)
| Raised (e : exn)
| EndOfInput.

Arguments Done {A} a s inputs.
Arguments Raised {A} e.
Arguments EndOfInput {A}.

(** The loop that looks for the dict with the id typed in: the dicts
    before it, the dict, the dicts after it. *)
Fixpoint select_client (selected_client_id : Z) (client_list : list device)
  : option (list device * device * list device) :=
  match client_list with
  | [] => None
  | c :: rest =>
      if Z.eqb (c_id c) selected_client_id then Some ([], c, rest)
      else match select_client selected_client_id rest with
           | Some (before, selected_client, after) =>
               Some (c :: before, selected_client, after)
           | None => None
           end
  end.

(** The [ValueError] of [int]; the text that follows in its message
    (the line itself, or the digit limit) is left out. *)
Definition invalid_literal : exn :=
  ValueError "invalid literal for int() with base 10".

Section Menu.

(** Python's [int] on a line typed by the user: the integer it reads, or
    [None] when it raises [ValueError].  Which lines it accepts depends
    on the interpreter (Unicode digits, the digit limit), so it is taken
    as given. *)
Variable py_int : string -> option Z.

Variable api : nat -> string -> api_response.

(** The global flag set from the command line. *)
Variable ask_name_change : bool.

(** [inputs] are the lines the user types, in order.  Gives the value
    [prompt] returns and the list with the selected dict updated in
    place. *)
Definition prompt (client_list : list device) (inputs : list string)
    (s : store) : outcome (bool * list device) :=
  if negb ask_name_change then Done (false, client_list) s inputs
  else
    match inputs with
    | [] => EndOfInput
    | user_input :: inputs =>
        if String.eqb user_input "n" then Done (false, client_list) s inputs
        else
          match py_int user_input with
          | None => Raised invalid_literal
          | Some selected_client_id =>
              match select_client selected_client_id client_list with
              | None => Done (true, client_list) s inputs
              | Some (before, selected_client, after) =>
                  match inputs with
                  | [] => EndOfInput
                  | input_name :: inputs =>
                      match
                        (selected_client <-
                           (if String.eqb input_name "api"
                            then get_mac_manufacturer_api api selected_client
                            else ret (set_name selected_client input_name)) ;;
                         save_client_name selected_client ;;;
                         ret selected_client) s
                      with
                      | Return (selected_client, s) =>
                          Done (true, before ++ selected_client :: after)
                               s inputs
                      | Raise e => Raised e
                      end
                  end
              end
          end
    end.

(** [while(prompt()): pass], for at most [fuel] calls of [prompt]. *)
Fixpoint menu_loop (fuel : nat) (client_list : list device)
    (inputs : list string) (s : store) : outcome (list device) :=
  match fuel with
  | O => Done client_list s inputs
  | S fuel' =>
      match prompt client_list inputs s with
      | Done (true, client_list) s inputs =>
          menu_loop fuel' client_list inputs s
      | Done (false, client_list) s inputs => Done client_list s inputs
      | Raised e => Raised e
      | EndOfInput => EndOfInput
      end
  end.

(** A call of [prompt] that returns [True] has read a line, so one call
    more than there are lines is enough. *)
Definition menu (client_list : list device) (inputs : list string)
    (s : store) : outcome (list device) :=
  menu_loop (S (length inputs)) client_list inputs s.

End Menu.

(** The whole body of [run_monitor]: the two loops, then
    [if changes_found: menu(client_list)]. *)
Definition run_monitor_cycle (py_int : string -> option Z)
    (api : nat -> string -> api_response) (ask_name_change : bool)
    (ping : list string -> string) (arp : nat -> string) (id : user_id)
    (client_list : list device) (inputs : list string) (s : store)
  : outcome (list device) :=
  match run_monitor api ping arp id client_list s with
  | Return ((client_list, changes_found), s) =>
      if changes_found
      then menu py_int api ask_name_change client_list inputs s
      else Done client_list s inputs
  | Raise e => Raised e
  end.

(** * Vocabulary of the statements *)

(** A probe answered by the hosts of [hosts] and by no other. *)
Definition answers (hosts : list string) (args : list string) : string :=
  if existsb (String.eqb (last args "")) hosts
  then "Reply: bytes=1 time<1ms TTL=64"
  else "Request timed out.".

Definition nl : string := String (ascii_of_nat 10) EmptyString.

(** What Windows prints when the echo request cannot be sent. *)
Definition transmit_failed (args : list string) : string :=
  ("Pinging " ++ last args "" ++ " with 1 bytes of data:" ++ nl
   ++ "PING: transmit failed. General failure." ++ nl ++ nl
   ++ "Ping statistics for " ++ last args "" ++ ":" ++ nl
   ++ "    Packets: Sent = 1, Received = 0, Lost = 1 (100% loss),"
   ++ nl)%string.

(** An [ipconfig /all] output of a host whose only adapter is unplugged. *)
Definition media_disconnected : string :=
  ("Windows IP Configuration" ++ nl ++ nl
   ++ "Ethernet adapter Ethernet:" ++ nl ++ nl
   ++ "   Media State . . . . . . . . . . . : Media disconnected" ++ nl
   ++ "   Connection-specific DNS Suffix  . :" ++ nl)%string.

(** Whether the sweep takes a probe's output for an answer. *)
Definition reachable (ping_output : string) : bool :=
  fst (classify not_found_messages ping_output 0).

(** The hosts of [hosts] are the ones whose probe the sweep takes for an
    answer. *)
Definition only_respond (ping : list string -> string) (timeout : nat)
    (hosts : list string) : Prop :=
  forall a, reachable (ping (ping_args timeout a))
            = existsb (String.eqb a) hosts.

(** 192.168.1.0 to 192.168.1.254 without 192.168.1.10. *)
Definition scenario_A_candidates : list string :=
  map (fun i => ("192.168.1." ++ Py.str i)%string) (seq 0 10 ++ seq 11 244).

(** The counter after a run of probes: one more for a miss, zero after an
    answer. *)
Definition misses_after (u : nat) (log : list (string * bool)) : nat :=
  fold_left (fun (u : nat) (e : string * bool) => if snd e then 0 else S u)
            log u.

(** A run of probes that starts with [u] misses behind it and ends with
    the first miss that takes the counter above 3. *)
Fixpoint stops_on_fourth_miss (u : nat) (log : list (string * bool)) : Prop :=
  match log with
  | [] => True
  | (_, true) :: log' => stops_on_fourth_miss 0 log'
  | (_, false) :: log' =>
      if (3 <? S u)%nat then log' = [] else stops_on_fourth_miss (S u) log'
  end.

(** The addresses a full pass over [range] would probe. *)
Definition candidates (x ip_prefix : string) (range : list nat)
  : list string :=
  filter (fun a => negb (String.eqb x a))
         (map (fun i => (ip_prefix ++ Py.str i)%string) range).

(** What [get_macs] may do to a dict. *)
Definition mac_only_update (c c' : device) : Prop :=
  c_ip c' = c_ip c /\ c_name c' = c_name c /\ c_id c' = c_id c
  /\ (c_mac c <> "unknown" -> c' = c).

(** The rows of the table, none before the table exists. *)
Definition table_of (s : store) : table :=
  match db s with
  | Some t => t
  | None => []
  end.

Definition has_mac (m : string) (r : row) : bool := String.eqb (r_mac r) m.

(** The rows keyed by the hardware address [m]. *)
Definition rows_of (m : string) (s : store) : list row :=
  filter (has_mac m) (table_of s).

Definition registered (m : string) (s : store) : bool :=
  existsb (has_mac m) (table_of s).

(** The constraint [UNIQUE(mac)] of the table. *)
Definition unique_macs (s : store) : Prop :=
  NoDup (map r_mac (table_of s)).

(** The table exists, has a row for [m], and every row for [m] holds the
    name [n]. *)
Definition stored_name (m n : string) (s : store) : Prop :=
  exists t, db s = Some t
            /\ existsb (has_mac m) t = true
            /\ forall r, In r t -> r_mac r = m -> r_name r = n.

(** [c'] has the hardware address of [c], and the stored name [n] when
    [c] is a device with the address [m] and the name "unknown". *)
Definition hydrated (m n : string) (c c' : device) : Prop :=
  c_mac c' = c_mac c
  /\ (c_mac c = m -> c_name c = "unknown" -> c_name c' = n).

(** What hydration does to a dict when the table is [t]. *)
Definition hydrate_in (t : table) (c : device) : device :=
  if String.eqb (c_name c) "unknown" then
    match fetchone (filter (has_mac (c_mac c)) t) with
    | Some r => set_name c (r_name r)
    | None => c
    end
  else c.

Definition assign_in (t : table) (c : device) : device :=
  if Z.eqb (c_id c) (-1) then
    match fetchone (filter (has_mac (c_mac c)) t) with
    | Some r => set_id c (r_id r)
    | None => c
    end
  else c.

(** A vendor service that cannot be reached. *)
Definition no_vendor : nat -> string -> api_response :=
  fun _ _ => RequestException.

(** A home network seen from 192.168.1.2: a router, a television and a
    phone, all three registered. *)
Definition this_host : user_id :=
  mk_user_id "Your Device" (Some "192.168.1.2") (Some "AA-AA-AA-AA-AA-02").
Definition router : device :=
  mk_device "192.168.1.1" "aa-aa-aa-aa-aa-01" "router" 1.
Definition tv : device :=
  mk_device "192.168.1.3" "aa-aa-aa-aa-aa-03" "Kitchen TV" 2.
Definition phone : device :=
  mk_device "192.168.1.4" "aa-aa-aa-aa-aa-04" "phone" 3.
Definition home_registry : store :=
  mk_store (Some [mk_row "router" "aa-aa-aa-aa-aa-01" 1;
                  mk_row "Kitchen TV" "aa-aa-aa-aa-aa-03" 2;
                  mk_row "phone" "aa-aa-aa-aa-aa-04" 3]) [] [].

(** The arp cache once the television has gone. *)
Definition arp_without_tv : string :=
  ("Interface: 192.168.1.2 --- 0x9" ++ nl
   ++ "  Internet Address      Physical Address      Type" ++ nl
   ++ "  192.168.1.1           aa-aa-aa-aa-aa-01     dynamic" ++ nl
   ++ "  192.168.1.4           aa-aa-aa-aa-aa-04     dynamic" ++ nl)%string.

(** A device that has just been seen, with its hardware address. *)
Definition unnamed_device : device :=
  mk_device "192.168.1.5" "AA-BB-CC-DD-EE-FF" "unknown" (-1).

(** A vendor service that knows every hardware address. *)
Definition vendor_acme : nat -> string -> api_response :=
  fun _ _ => Response 200 "Acme Corp".

(** The phone under the name its owner gave it. *)
Definition renamed_phone : device :=
  mk_device "192.168.1.4" "aa-aa-aa-aa-aa-04" "Office phone" 3.

(** The addresses of [a] that are not in [b]. *)
Definition difference (a b : list string) : list string :=
  filter (fun x => negb (existsb (String.eqb x) b)) a.

Definition is_connect (e : event) : bool :=
  match e with
  | DeviceConnected _ => true
  | DeviceDisconnected _ => false
  end.

Definition connects (s : store) : nat :=
  length (filter is_connect (notices s)).

Definition disconnects (s : store) : nat :=
  length (filter (fun e => negb (is_connect e)) (notices s)).

(** * Vocabulary of the further properties *)

(** [matches re s n]: the characters of [re], in order, are the first [n]
    characters of [s]. *)
Inductive matches : Re.regex -> string -> nat -> Prop :=
| matches_nil : forall s, matches [] s 0
| matches_one : forall c re a s n,
    Re.class_match c a = true -> matches re s n ->
    matches (Re.One c :: re) (String a s) (S n)
| matches_plus_more : forall c re a s n,
    Re.class_match c a = true -> matches (Re.Plus c :: re) s n ->
    matches (Re.Plus c :: re) (String a s) (S n)
| matches_plus_last : forall c re a s n,
    Re.class_match c a = true -> matches re s n ->
    matches (Re.Plus c :: re) (String a s) (S n).

(** [s[k:]] *)
Fixpoint string_drop (k : nat) (s : string) : string :=
  match k, s with
  | O, _ => s
  | S k', EmptyString => EmptyString
  | S k', String _ s' => string_drop k' s'
  end.

Definition is_one (a : Re.atom) : Prop :=
  match a with
  | Re.One _ => True
  | Re.Plus _ => False
  end.

(** What [get_macs] does to a dict: nothing, or it fills an "unknown"
    hardware address with a token of 17 characters. *)
Definition resolved_or_same (c c' : device) : Prop :=
  c' = c
  \/ (c_mac c = "unknown" /\ String.length (c_mac c') = 17
      /\ c' = set_mac c (c_mac c')).

(** What identifies a row for good: its hardware address and its id. *)
Definition key (r : row) : string * Z := (r_mac r, r_id r).

(** The id registered for the hardware address [m]. *)
Definition id_of (m : string) (s : store) : option Z :=
  option_map r_id (fetchone (rows_of m s)).

(** The primary key of the table. *)
Definition unique_ids (s : store) : Prop :=
  NoDup (map r_id (table_of s)).

Definition unnamed (c : device) : bool := String.eqb (c_name c) "unknown".

(** The address [get_mac_manufacturer_api] requests for a device. *)
Definition vendor_url (c : device) : string :=
  ("http://api.macvendors.com/" ++ c_mac c)%string.

(** No request to the vendor service is answered with status 200. *)
Definition vendor_fails (api : nat -> string -> api_response) : Prop :=
  forall k url,
    match api k url with
    | Response status_code _ => Nat.eqb status_code 200 = false
    | RequestException => True
    end.

(** What a pass keeps of a dict, and the id it gives to a dict that came
    with -1: the one registered in [s'] for its hardware address. *)
Definition enriched_in (s' : store) (c c' : device) : Prop :=
  c_ip c' = c_ip c
  /\ (if Z.eqb (c_id c) (-1)
      then id_of (c_mac c') s' = Some (c_id c')
      else c_id c' = c_id c).

(** What [get_client_names] keeps of a dict. *)
Definition names_kept (c c' : device) : Prop :=
  c_ip c' = c_ip c /\ c_mac c' = c_mac c
  /\ (c_name c <> "unknown" -> c_name c' = c_name c)
  /\ (c_id c <> (-1)%Z -> c_id c' = c_id c).

(** What hydration makes of a dict when [s] is the state it reads: the
    hardware address is kept; the name "unknown" gives way to the name of
    the row for the hardware address; any other name is kept. *)
Definition hydrated_from (s : store) (c c' : device) : Prop :=
  c_mac c' = c_mac c
  /\ if unnamed c
     then exists r, fetchone (rows_of (c_mac c) s) = Some r
                    /\ c_name c' = r_name r
     else c_name c' = c_name c.

(** The largest id in use is below the largest rowid. *)
Definition below_max_rowid (s : store) : Prop :=
  Forall (fun r => r_id r < max_rowid)%Z (table_of s).

(** Registration followed by hydration, without the vendor loop. *)
Definition register_and_hydrate (client_list : list device)
  : M (list device) :=
  add_clients_to_db client_list ;;;
  get_client_names client_list.

(** What [menu] may do to a dict: change its name. *)
Definition renamed (c c' : device) : Prop := c' = set_name c (c_name c').

(** An [ipconfig /all] output of the host 192.168.1.2. *)
Definition ipconfig_home : string :=
  ("Windows IP Configuration" ++ nl ++ nl
   ++ "Ethernet adapter Ethernet:" ++ nl ++ nl
   ++ "   Physical Address. . . . . . . . . : AA-AA-AA-AA-AA-02" ++ nl
   ++ "   IPv4 Address. . . . . . . . . . . : 192.168.1.2(Preferred)" ++ nl
   ++ "   Subnet Mask . . . . . . . . . . . : 255.255.255.0" ++ nl)%string.

(** * Properties *)

(** ** The monad *)

Lemma bind_Return : forall (A B : Type) (m : M A) (k : A -> M B) s a s',
  m s = Return (a, s') -> bind m k s = k a s'.
Proof. intros A B m k s a s' H. unfold bind. now rewrite H. Qed.

Lemma bind_Raise : forall (A B : Type) (m : M A) (k : A -> M B) s e,
  m s = Raise e -> bind m k s = Raise e.
Proof. intros A B m k s e H. unfold bind. now rewrite H. Qed.

(** ** The sweep *)

Lemma classify_counter : forall msgs out u,
  classify msgs out u =
  (fst (classify msgs out 0), if fst (classify msgs out 0) then u else S u).
Proof.
  induction msgs as [|n msgs IH]; intros out u; simpl.
  - reflexivity.
  - destruct (Py.contains n out); simpl; [reflexivity | apply IH].
Qed.

Section SweepFacts.

Variable ping : list string -> string.
Variable x : string.
Variable timeout : nat.
Variable ip_prefix : string.

Lemma sweep_loop_step : forall i range st,
  sweep_loop ping x timeout ip_prefix (i :: range) st =
  let ip_postfix := (ip_prefix ++ Py.str i)%string in
  if String.eqb x ip_postfix
  then sweep_loop ping x timeout ip_prefix range st
  else
    let out := ping (ping_args timeout ip_postfix) in
    let st' :=
      if reachable out then
        mk_sweep (ip_list st ++ [ip_postfix]) (S (ping_count st)) 0
                 (probed st ++ [(ip_postfix, true)])
      else
        mk_sweep (ip_list st) (S (ping_count st)) (S (unused_count st))
                 (probed st ++ [(ip_postfix, false)]) in
    if (3 <? unused_count st')%nat then st'
    else sweep_loop ping x timeout ip_prefix range st'.
Proof.
  intros i range st. cbn [sweep_loop]. cbv zeta.
  destruct (String.eqb x (ip_prefix ++ Py.str i)); [reflexivity|].
  rewrite classify_counter. fold (reachable (ping (ping_args timeout
    (ip_prefix ++ Py.str i)))).
  destruct (reachable _); reflexivity.
Qed.

Lemma sweep_loop_log : forall range st,
  exists log,
    let st' := sweep_loop ping x timeout ip_prefix range st in
    probed st' = probed st ++ log
    /\ ip_list st' = ip_list st ++ map fst (filter snd log)
    /\ ping_count st' = ping_count st + length log
    /\ unused_count st' = misses_after (unused_count st) log
    /\ ((unused_count st <= 3)%nat ->
        stops_on_fourth_miss (unused_count st) log)
    /\ exists k, map fst log = firstn k (candidates x ip_prefix range).
Proof.
  induction range as [|i range IH]; intros st.
  - exists []. cbn. rewrite !app_nil_r, Nat.add_0_r.
    repeat split; trivial. now exists 0.
  - rewrite sweep_loop_step. cbv zeta.
    unfold candidates. cbn [map filter].
    destruct (String.eqb x (ip_prefix ++ Py.str i)) eqn:Hx; cbn [negb].
    + apply IH.
    + set (ip := (ip_prefix ++ Py.str i)%string).
      destruct (reachable (ping (ping_args timeout ip))) eqn:Hr.
      * cbn [unused_count]. change (3 <? 0)%nat with false. cbv iota.
        destruct (IH (mk_sweep (ip_list st ++ [ip]) (S (ping_count st)) 0
                              (probed st ++ [(ip, true)])))
          as (log & Hp & Hl & Hc & Hu & Hs & k & Hk).
        cbn [probed ip_list ping_count unused_count] in *.
        exists ((ip, true) :: log). cbv zeta.
        rewrite Hp, Hl, Hc, Hu. cbn [filter snd map fst length misses_after
          fold_left stops_on_fourth_miss].
        rewrite <- !app_assoc. cbn [app].
        repeat split; trivial.
        -- lia.
        -- intros _. apply Hs. lia.
        -- exists (S k). cbn [firstn]. f_equal. exact Hk.
      * cbn [unused_count].
        destruct (3 <? S (unused_count st))%nat eqn:Hlt.
        -- exists [(ip, false)]. cbv zeta.
           cbn [probed ip_list ping_count unused_count filter snd map fst
                length misses_after fold_left stops_on_fourth_miss].
           rewrite app_nil_r. rewrite Hlt.
           repeat split; trivial; try lia.
           exists 1. reflexivity.
        -- destruct (IH (mk_sweep (ip_list st) (S (ping_count st))
                                 (S (unused_count st))
                                 (probed st ++ [(ip, false)])))
             as (log & Hp & Hl & Hc & Hu & Hs & k & Hk).
           cbn [probed ip_list ping_count unused_count] in *.
           exists ((ip, false) :: log). cbv zeta.
           rewrite Hp, Hl, Hc, Hu. cbn [filter snd map fst length
             misses_after fold_left stops_on_fourth_miss].
           rewrite <- !app_assoc. cbn [app]. rewrite Hlt.
           apply Nat.ltb_ge in Hlt.
           repeat split; trivial.
           ++ lia.
           ++ intros _. apply Hs. lia.
           ++ exists (S k). cbn [firstn]. f_equal. exact Hk.
Qed.

End SweepFacts.

(** Once the counter has gone above 3 nothing follows in the log. *)
Lemma fourth_miss_is_last : forall pre u a b c d post,
  stops_on_fourth_miss u (pre ++ [a; b; c; d] ++ post) ->
  snd a = false -> snd b = false -> snd c = false -> snd d = false ->
  post = [].
Proof.
  induction pre as [|[ip e] pre IH]; intros u a b c d post H Ha Hb Hc Hd.
  - destruct a as [ia ea], b as [ib eb], c as [ic ec], d as [id ed].
    cbn in Ha, Hb, Hc, Hd. subst. cbn [app stops_on_fourth_miss] in H.
    destruct (3 <? S u)%nat eqn:E1; [discriminate|].
    destruct (3 <? S (S u))%nat eqn:E2; [discriminate|].
    destruct (3 <? S (S (S u)))%nat eqn:E3; [discriminate|].
    destruct (3 <? S (S (S (S u))))%nat eqn:E4; [exact H|].
    apply Nat.ltb_ge in E4. lia.
  - cbn [app stops_on_fourth_miss] in H. destruct e.
    + exact (IH _ a b c d post H Ha Hb Hc Hd).
    + destruct (3 <? S u)%nat.
      * destruct pre; discriminate.
      * exact (IH _ a b c d post H Ha Hb Hc Hd).
Qed.

(** [ping_all] returns for every anchor with a range prefix. *)
Lemma ping_all_returns : forall ping x timeout b e,
  Re.search ip_range_pattern x = Some (b, e) ->
  ping_all ping (Some x) timeout =
  Return (sweep_loop ping x timeout (Py.slice x b e) (Py.range 0 255)
                     (mk_sweep [] 0 0 [])).
Proof. intros ping x timeout b e H. unfold ping_all. now rewrite H. Qed.

Lemma ping_all_log : forall ping x timeout sw,
  ping_all ping x timeout = Return sw ->
  ip_list sw = map fst (filter snd (probed sw))
  /\ ping_count sw = length (probed sw)
  /\ unused_count sw = misses_after 0 (probed sw)
  /\ stops_on_fourth_miss 0 (probed sw).
Proof.
  intros ping [x|] timeout sw H; [|discriminate].
  unfold ping_all in H.
  destruct (Re.search ip_range_pattern x) as [[b e]|]; [|discriminate].
  revert H. generalize (Py.range 0 255). intros rg H.
  destruct (sweep_loop_log ping x timeout (Py.slice x b e) rg
              (mk_sweep [] 0 0 [])) as (log & Hp & Hl & Hc & Hu & Hs & _).
  cbv zeta in Hp, Hl, Hc, Hu.
  assert (E : sweep_loop ping x timeout (Py.slice x b e) rg
                         (mk_sweep [] 0 0 []) = sw) by congruence.
  rewrite E in Hp, Hl, Hc, Hu.
  cbn [probed ip_list ping_count unused_count app] in Hp, Hl, Hc, Hu, Hs.
  rewrite Hp, Hl, Hc, Hu. repeat split; trivial. apply Hs. lia.
Qed.

Lemma sweep_four_misses : forall ping x timeout p i1 i2 i3 i4 rest st,
  unused_count st = 0 ->
  (forall i, In i [i1; i2; i3; i4] ->
     String.eqb x (p ++ Py.str i) = false
     /\ reachable (ping (ping_args timeout (p ++ Py.str i))) = false) ->
  sweep_loop ping x timeout p (i1 :: i2 :: i3 :: i4 :: rest) st =
  mk_sweep (ip_list st) (4 + ping_count st) 4
           (probed st ++ [((p ++ Py.str i1)%string, false);
                          ((p ++ Py.str i2)%string, false);
                          ((p ++ Py.str i3)%string, false);
                          ((p ++ Py.str i4)%string, false)]).
Proof.
  intros ping x timeout p i1 i2 i3 i4 rest st Hu H.
  destruct (H i1) as [E1 R1]; [cbn; tauto|].
  destruct (H i2) as [E2 R2]; [cbn; tauto|].
  destruct (H i3) as [E3 R3]; [cbn; tauto|].
  destruct (H i4) as [E4 R4]; [cbn; tauto|].
  rewrite sweep_loop_step. cbv zeta. rewrite E1, R1.
  cbn [unused_count]. rewrite Hu. change (3 <? 1)%nat with false. cbv iota.
  rewrite sweep_loop_step. cbv zeta. rewrite E2, R2.
  cbn [unused_count]. change (3 <? 2)%nat with false. cbv iota.
  rewrite sweep_loop_step. cbv zeta. rewrite E3, R3.
  cbn [unused_count]. change (3 <? 3)%nat with false. cbv iota.
  rewrite sweep_loop_step. cbv zeta. rewrite E4, R4.
  cbn [unused_count]. change (3 <? 4)%nat with true. cbv iota.
  cbn [ip_list ping_count probed]. rewrite <- !app_assoc. reflexivity.
Qed.

(** *** C3: the third failure phrase *)

(** C3 (code at the failing input).  The output Windows prints when the
    echo request cannot be sent ends in "(100% loss)," and holds neither
    "unreachable" nor "timed out".  The phrase the sweep looks for is
    "100%% lost", so the sweep takes that output for an answer: with it,
    every one of the 254 addresses probed from 192.168.1.10 lands in the
    result list. *)
Theorem ping_all_takes_100_percent_loss_for_an_answer :
  let out := transmit_failed (ping_args 350 "192.168.1.1") in
  Py.contains "100% loss" out = true
  /\ Py.contains "unreachable" out = false
  /\ Py.contains "timed out" out = false
  /\ reachable out = true
  /\ exists sw,
       ping_all transmit_failed (Some "192.168.1.10") 350 = Return sw
       /\ ip_list sw = scenario_A_candidates
       /\ ping_count sw = 254.
Proof.
  cbv zeta. repeat split; try (vm_compute; reflexivity).
  eexists. split; [vm_compute; reflexivity|].
  split; vm_compute; reflexivity.
Qed.

(** *** C4: scenario A *)

(** C4 (the claim fails).  From the anchor 192.168.1.10, with answers
    from 192.168.1.5 and 192.168.1.20 only, the sweep does not probe
    192.168.1.1 to 192.168.1.254 without the anchor, and its result is
    not the two answering addresses. *)
Lemma scenario_A_as_claimed_fails :
  ~ (exists sw,
       ping_all (answers ["192.168.1.5"; "192.168.1.20"])
                (Some "192.168.1.10") 350 = Return sw
       /\ map fst (probed sw)
          = map (fun i => ("192.168.1." ++ Py.str i)%string)
                (seq 1 9 ++ seq 11 244)
       /\ forall a, In a (ip_list sw)
                    <-> a = "192.168.1.5" \/ a = "192.168.1.20").
Proof.
  intros (sw & H & _ & Hres).
  vm_compute in H. injection H as <-.
  cbn [ip_list] in Hres.
  destruct (Hres "192.168.1.5") as [_ Hin]. apply Hin. now left.
Qed.

(** C4 (amended).  From the anchor 192.168.1.10 the sweep returns; what
    it probes is an initial segment of 192.168.1.0, .1, .., .254 without
    the anchor; the result list holds the probed addresses that
    answered, in order; and when 192.168.1.5 and 192.168.1.20 are the
    only addresses that answer, the sweep probes .0, .1, .2 and .3,
    stops there and returns the empty list. *)
Theorem scenario_A : forall ping timeout,
  exists sw,
    ping_all ping (Some "192.168.1.10") timeout = Return sw
    /\ (exists k, map fst (probed sw) = firstn k scenario_A_candidates)
    /\ ip_list sw = map fst (filter snd (probed sw))
    /\ (only_respond ping timeout ["192.168.1.5"; "192.168.1.20"] ->
        probed sw = [("192.168.1.0", false); ("192.168.1.1", false);
                     ("192.168.1.2", false); ("192.168.1.3", false)]
        /\ ip_list sw = [] /\ ping_count sw = 4).
Proof.
  intros ping timeout.
  assert (Hs : Re.search ip_range_pattern "192.168.1.10" = Some (0, 10))
    by (vm_compute; reflexivity).
  rewrite (@ping_all_returns ping _ timeout _ _ Hs).
  change (Py.slice "192.168.1.10" 0 10) with "192.168.1.".
  eexists. split; [reflexivity|].
  assert (Hc : candidates "192.168.1.10" "192.168.1." (Py.range 0 255)
               = scenario_A_candidates) by (vm_compute; reflexivity).
  assert (Hr : Py.range 0 255 = 0 :: 1 :: 2 :: 3 :: seq 4 251)
    by (vm_compute; reflexivity).
  revert Hc Hr. generalize (Py.range 0 255). intros rg Hc Hr.
  destruct (sweep_loop_log ping "192.168.1.10" timeout "192.168.1."
              rg (mk_sweep [] 0 0 []))
    as (log & Hp & Hl & _ & _ & _ & k & Hk).
  cbv zeta in Hp, Hl.
  cbn [probed ip_list ping_count unused_count app] in Hp, Hl.
  split; [|split].
  - exists k. rewrite Hp, Hk, Hc. reflexivity.
  - rewrite Hl, Hp. reflexivity.
  - intros Honly. rewrite Hr.
    rewrite sweep_four_misses.
    + cbn [probed ip_list ping_count app]. repeat split.
    + reflexivity.
    + intros i Hi. split.
      * cbn in Hi. decompose [or] Hi; subst; try reflexivity; contradiction.
      * rewrite Honly.
        cbn in Hi. decompose [or] Hi; subst; try reflexivity; contradiction.
Qed.

Lemma scenario_A_witness :
  only_respond (answers ["192.168.1.5"; "192.168.1.20"]) 350
               ["192.168.1.5"; "192.168.1.20"]
  /\ exists sw,
       ping_all (answers ["192.168.1.5"; "192.168.1.20"])
                (Some "192.168.1.10") 350 = Return sw
       /\ probed sw = [("192.168.1.0", false); ("192.168.1.1", false);
                       ("192.168.1.2", false); ("192.168.1.3", false)]
       /\ ip_list sw = [].
Proof.
  assert (H : only_respond (answers ["192.168.1.5"; "192.168.1.20"]) 350
                           ["192.168.1.5"; "192.168.1.20"]).
  { intros a. unfold answers, ping_args. cbn [last existsb].
    destruct (String.eqb a "192.168.1.5" || (String.eqb a "192.168.1.20"
                                             || false)); reflexivity. }
  split; [exact H|].
  destruct (scenario_A (answers ["192.168.1.5"; "192.168.1.20"]) 350)
    as (sw & Hret & _ & _ & Hsc).
  exists sw. destruct (Hsc H) as (Hp & Hl & _). auto.
Defined.

(** *** C5: the early exit *)

(** C5.  In the probes of a sweep, in order, nothing follows four
    consecutive probes the sweep counted as misses; the counter the
    sweep ends with is the one obtained from the probes by adding one
    for a miss and going back to zero for an answer. *)
Theorem sweep_early_exit : forall ping x timeout sw pre a b c d post,
  ping_all ping x timeout = Return sw ->
  probed sw = pre ++ [a; b; c; d] ++ post ->
  snd a = false -> snd b = false -> snd c = false -> snd d = false ->
  post = [] /\ unused_count sw = misses_after 0 (probed sw).
Proof.
  intros ping x timeout sw pre a b c d post Hret Hlog Ha Hb Hc Hd.
  destruct (ping_all_log _ _ _ Hret) as (_ & _ & Hu & Hs).
  split; [|exact Hu].
  rewrite Hlog in Hs.
  exact (fourth_miss_is_last pre 0 a b c d post Hs Ha Hb Hc Hd).
Qed.

Lemma sweep_early_exit_witness :
  let sw := mk_sweep [] 4 4 [("192.168.1.0", false); ("192.168.1.1", false);
                             ("192.168.1.2", false); ("192.168.1.3", false)] in
  ping_all (answers []) (Some "192.168.1.10") 350 = Return sw
  /\ (@nil (string * bool) = []
      /\ unused_count sw = misses_after 0 (probed sw)).
Proof.
  intros sw.
  assert (H : ping_all (answers []) (Some "192.168.1.10") 350 = Return sw)
    by (vm_compute; reflexivity).
  split; [exact H|].
  apply (@sweep_early_exit (answers []) (Some "192.168.1.10") 350 sw []
           ("192.168.1.0", false) ("192.168.1.1", false)
           ("192.168.1.2", false) ("192.168.1.3", false) []);
    solve [exact H | reflexivity].
Defined.

(** *** C8: no identity in the interface configuration *)

(** C8 (the claim fails).  For an [ipconfig] output with neither an
    address line nor a hardware-address line, [fetch_user_id] does not
    raise. *)
Lemma fetch_user_id_does_not_fail :
  ip_find (Py.splitlines media_disconnected) = None
  /\ mac_find (Py.splitlines media_disconnected) = None
  /\ ~ (exists e, fetch_user_id media_disconnected = Raise e).
Proof.
  repeat split; try reflexivity.
  intros [e H]. discriminate H.
Qed.

(** C8 (amended).  When neither address is found in the [ipconfig]
    output, [fetch_user_id] returns the dict with the name "Your Device"
    and [None] for both addresses. *)
Theorem fetch_user_id_without_identity : forall ipconfig_stdout,
  ip_find (Py.splitlines ipconfig_stdout) = None ->
  mac_find (Py.splitlines ipconfig_stdout) = None ->
  fetch_user_id ipconfig_stdout = Return (mk_user_id "Your Device" None None).
Proof.
  intros out Hip Hmac. unfold fetch_user_id. now rewrite Hip, Hmac.
Qed.

Lemma fetch_user_id_without_identity_witness :
  ip_find (Py.splitlines media_disconnected) = None
  /\ mac_find (Py.splitlines media_disconnected) = None
  /\ fetch_user_id media_disconnected
     = Return (mk_user_id "Your Device" None None).
Proof.
  split; [reflexivity|]. split; [reflexivity|].
  apply (@fetch_user_id_without_identity media_disconnected); reflexivity.
Defined.

(** *** C10: the frame of get_macs *)

Lemma arp_scan_frame : forall arp_output client,
  mac_only_update client (arp_scan client arp_output).
Proof.
  unfold mac_only_update.
  induction arp_output as [|line rest IH]; intros client; cbn [arp_scan].
  - repeat split; trivial.
  - destruct (Py.contains (c_ip client) line); cbn [andb]; [|apply IH].
    destruct (String.eqb (c_mac client) "unknown") eqn:E; [|apply IH].
    destruct (Re.search mac_pattern line) as [[b e]|]; [|apply IH].
    apply String.eqb_eq in E.
    cbn. repeat split; trivial. intros Hne. contradiction.
Qed.

(** C10.  [get_macs] returns [True]; the list it leaves has, position by
    position, the same 'ip', 'name' and 'id' as before, and a client
    whose 'mac' was not "unknown" is the same dict as before. *)
Theorem get_macs_frame : forall arp_stdout client_list,
  fst (get_macs arp_stdout client_list) = true
  /\ Forall2 mac_only_update client_list
             (snd (get_macs arp_stdout client_list)).
Proof.
  intros arp_stdout client_list. split; [reflexivity|].
  unfold get_macs. cbn [snd].
  induction client_list as [|c l IH]; cbn [map]; constructor.
  - apply arp_scan_frame.
  - exact IH.
Qed.

(** ** The registry *)

Lemma fetchone_filter_None : forall (f : row -> bool) t,
  fetchone (filter f t) = None -> existsb f t = false.
Proof.
  induction t as [|r t IH]; cbn; intros H; [reflexivity|].
  destruct (f r); [discriminate|]. now apply IH.
Qed.

Lemma fetchone_filter_Some : forall (f : row -> bool) t r,
  fetchone (filter f t) = Some r -> In r t /\ f r = true /\ existsb f t = true.
Proof.
  induction t as [|r0 t IH]; cbn; intros r H; [discriminate|].
  destruct (f r0) eqn:E.
  - injection H as <-. auto.
  - destruct (IH r H) as (Hin & Hf & Hex). auto.
Qed.

Lemma existsb_fetchone : forall (f : row -> bool) t,
  existsb f t = true -> exists r, fetchone (filter f t) = Some r.
Proof.
  intros f t H. destruct (fetchone (filter f t)) as [r|] eqn:E.
  - now exists r.
  - apply fetchone_filter_None in E. congruence.
Qed.

Lemma has_mac_true : forall m r, has_mac m r = true <-> r_mac r = m.
Proof. intros m r. apply String.eqb_eq. Qed.

Lemma not_has_mac_not_in : forall m t,
  existsb (has_mac m) t = false -> ~ In m (map r_mac t).
Proof.
  intros m t H Hin. apply in_map_iff in Hin. destruct Hin as (r & <- & Hr).
  assert (existsb (has_mac (r_mac r)) t = true).
  { apply existsb_exists. exists r. split; [exact Hr|]. now apply has_mac_true. }
  congruence.
Qed.

Lemma select_where_mac_table : forall m s t,
  db s = Some t -> select_where_mac m s = Return (filter (has_mac m) t, s).
Proof. intros m s t H. unfold select_where_mac. now rewrite H. Qed.

(** The loop of [add_clients_to_db] returns; it only appends rows, leaves
    the rest of the state alone, keeps the hardware addresses distinct and
    leaves every client of the list with a row. *)
Lemma register_each_appends : forall l s t,
  db s = Some t ->
  exists new s',
    register_each l s = Return (tt, s')
    /\ db s' = Some (t ++ new)
    /\ api_log s' = api_log s /\ notices s' = notices s
    /\ (NoDup (map r_mac t) -> NoDup (map r_mac (t ++ new)))
    /\ (forall c, In c l -> existsb (has_mac (c_mac c)) (t ++ new) = true)
    /\ (forall r, In r new -> existsb (has_mac (r_mac r)) t = false).
Proof.
  induction l as [|c l IH]; intros s t Hdb.
  - exists [], s. rewrite app_nil_r. cbn. repeat split; trivial.
    + intros c [].
    + intros r [].
  - cbn [register_each].
    rewrite (bind_Return _ _ _ (select_where_mac_table (c_mac c) s Hdb)).
    destruct (fetchone (filter (has_mac (c_mac c)) t)) as [r|] eqn:Hf.
    + rewrite (bind_Return _ _ s (a:=tt) (s':=s)) by reflexivity.
      destruct (IH s t Hdb) as (new & s' & Hrun & Hdb' & Hlog & Hnot & Hnd
                                & Hreg & Hnew).
      exists new, s'. repeat split; trivial.
      intros c0 [<-|Hin]; [|now apply Hreg].
      apply fetchone_filter_Some in Hf. destruct Hf as (_ & _ & Hex).
      rewrite existsb_app, Hex. reflexivity.
    + apply fetchone_filter_None in Hf.
      set (r := mk_row (c_name c) (c_mac c) (next_id t)).
      assert (Hins : insert_client (c_name c) (c_mac c) s
                     = Return (tt, set_db s (t ++ [r]))).
      { unfold insert_client. rewrite Hdb. fold (has_mac (c_mac c)).
        now rewrite Hf. }
      rewrite (bind_Return _ _ _ Hins).
      destruct (IH (set_db s (t ++ [r])) (t ++ [r]) eq_refl)
        as (new & s' & Hrun & Hdb' & Hlog & Hnot & Hnd & Hreg & Hnew).
      exists (r :: new), s'. rewrite <- app_assoc in Hdb', Hnd, Hreg.
      cbn [app] in Hdb', Hnd, Hreg. repeat split; trivial.
      * intros Ht. apply Hnd. rewrite map_app. cbn [map].
        apply NoDup_app; [exact Ht | repeat constructor; intros [] |].
        intros a Ha [<-|[]]. revert Ha. cbn [r_mac r].
        now apply not_has_mac_not_in.
      * intros c0 [<-|Hin]; [|now apply Hreg].
        rewrite existsb_app. cbn [existsb]. unfold has_mac at 2.
        cbn [r_mac r]. rewrite String.eqb_refl.
        now rewrite orb_true_r.
      * intros r0 [<-|Hin]; [exact Hf|].
        specialize (Hnew r0 Hin). rewrite existsb_app in Hnew.
        now apply orb_false_iff in Hnew.
Qed.

Lemma add_clients_to_db_appends : forall l s,
  exists new s',
    add_clients_to_db l s = Return (tt, s')
    /\ db s' = Some (table_of s ++ new)
    /\ api_log s' = api_log s /\ notices s' = notices s
    /\ (unique_macs s -> unique_macs s')
    /\ (forall c, In c l -> registered (c_mac c) s' = true)
    /\ (forall r, In r new -> registered (r_mac r) s = false).
Proof.
  intros l s. unfold add_clients_to_db, unique_macs, registered, table_of.
  destruct (db s) as [t|] eqn:Hdb.
  - rewrite (bind_Return _ _ s (a:=tt) (s':=s))
      by (unfold create_table_if_not_exists; now rewrite Hdb).
    destruct (register_each_appends l s Hdb)
      as (new & s' & Hrun & Hdb' & Hlog & Hnot & Hnd & Hreg & Hnew).
    exists new, s'. rewrite Hdb'. repeat split; trivial.
  - rewrite (bind_Return _ _ s (a:=tt) (s':=set_db s []))
      by (unfold create_table_if_not_exists; now rewrite Hdb).
    destruct (register_each_appends l (set_db s []) eq_refl)
      as (new & s' & Hrun & Hdb' & Hlog & Hnot & Hnd & Hreg & Hnew).
    exists new, s'. rewrite Hdb'. repeat split; trivial.
Qed.

Lemma unique_row : forall m t r,
  NoDup (map r_mac t) -> In r t -> r_mac r = m -> filter (has_mac m) t = [r].
Proof.
  intros m t r Hnd Hin <-. induction t as [|r0 t IH]; [contradiction|].
  cbn [map] in Hnd. inversion Hnd as [|a l Hnot Hnd']; subst.
  cbn [filter]. destruct Hin as [->|Hin].
  - unfold has_mac at 1. rewrite String.eqb_refl. f_equal.
    destruct (filter (has_mac (r_mac r)) t) as [|r1 l1] eqn:E; [reflexivity|].
    exfalso. apply Hnot.
    assert (H1 : In r1 (filter (has_mac (r_mac r)) t))
      by (rewrite E; now left).
    apply filter_In in H1. destruct H1 as [H1 H2].
    apply has_mac_true in H2. rewrite <- H2. now apply in_map.
  - destruct (has_mac (r_mac r) r0) eqn:E.
    + exfalso. apply Hnot. apply has_mac_true in E. rewrite E.
      now apply in_map.
    + now apply IH.
Qed.

(** *** C6: registering twice *)

(** C6.  When the table keeps hardware addresses unique, two runs of
    [add_clients_to_db], each over a list that holds a device with the
    hardware address [m], both return; after the first and after the
    second the table has the same single row keyed by [m] (so the id is
    the same), and each run only appends to the table it found, so every
    row present before keeps its name. *)
Theorem registration_idempotent : forall m d1 d2 l1 l2 s,
  unique_macs s ->
  In d1 l1 -> c_mac d1 = m ->
  In d2 l2 -> c_mac d2 = m ->
  exists s1 s2 r new1 new2,
    add_clients_to_db l1 s = Return (tt, s1)
    /\ add_clients_to_db l2 s1 = Return (tt, s2)
    /\ rows_of m s1 = [r] /\ rows_of m s2 = [r]
    /\ table_of s1 = table_of s ++ new1
    /\ table_of s2 = table_of s1 ++ new2.
Proof.
  intros m d1 d2 l1 l2 s Hu Hin1 Hm1 Hin2 Hm2.
  destruct (add_clients_to_db_appends l1 s)
    as (new1 & s1 & Hrun1 & Hdb1 & _ & _ & Hu1 & Hreg1 & _).
  destruct (add_clients_to_db_appends l2 s1)
    as (new2 & s2 & Hrun2 & Hdb2 & _ & _ & Hu2 & Hreg2 & _).
  specialize (Hu1 Hu). specialize (Hu2 Hu1).
  specialize (Hreg1 d1 Hin1). rewrite Hm1 in Hreg1.
  unfold registered in Hreg1.
  destruct (existsb_fetchone _ _ Hreg1) as [r Hr].
  apply fetchone_filter_Some in Hr. destruct Hr as (Hr & Hrm & _).
  apply has_mac_true in Hrm.
  assert (T1 : table_of s1 = table_of s ++ new1)
    by (unfold table_of at 1; now rewrite Hdb1).
  assert (T2 : table_of s2 = table_of s1 ++ new2)
    by (unfold table_of at 1; now rewrite Hdb2).
  exists s1, s2, r, new1, new2. repeat split; trivial.
  - unfold rows_of. now apply unique_row.
  - unfold rows_of. apply unique_row; trivial.
    rewrite T2. apply in_or_app. now left.
Qed.

Lemma registration_idempotent_witness :
  unique_macs home_registry
  /\ exists s1 s2 r,
       add_clients_to_db [unnamed_device] home_registry = Return (tt, s1)
       /\ add_clients_to_db [unnamed_device] s1 = Return (tt, s2)
       /\ rows_of "AA-BB-CC-DD-EE-FF" s1 = [r]
       /\ rows_of "AA-BB-CC-DD-EE-FF" s2 = [r].
Proof.
  assert (H : unique_macs home_registry).
  { unfold unique_macs. cbn. repeat constructor; cbn; intuition discriminate. }
  split; [exact H|].
  destruct (@registration_idempotent "AA-BB-CC-DD-EE-FF" unnamed_device
              unnamed_device [unnamed_device] [unnamed_device] home_registry H)
    as (s1 & s2 & r & new1 & new2 & H1 & H2 & H3 & H4 & _);
    try solve [now left | reflexivity].
  exists s1, s2, r. auto.
Defined.

(** ** Hydration and enrichment *)

Lemma try_except_Return : forall (A : Type) (body handler : M A) s a s',
  body s = Return (a, s') ->
  try_except_IntegrityError body handler s = Return (a, s').
Proof.
  intros A body handler s a s' H. unfold try_except_IntegrityError.
  now rewrite H.
Qed.

Lemma hydrate_name_registered : forall t s c,
  db s = Some t -> existsb (has_mac (c_mac c)) t = true ->
  hydrate_name c s = Return (hydrate_in t c, s).
Proof.
  intros t s c Hdb Hreg. unfold hydrate_name, hydrate_in.
  apply try_except_Return.
  rewrite (bind_Return _ _ _ (select_where_mac_table (c_mac c) s Hdb)).
  destruct (String.eqb (c_name c) "unknown"); [|reflexivity].
  destruct (existsb_fetchone _ _ Hreg) as [r Hr]. now rewrite Hr.
Qed.

Lemma assign_id_registered : forall t s c,
  db s = Some t -> existsb (has_mac (c_mac c)) t = true ->
  assign_id c s = Return (assign_in t c, s).
Proof.
  intros t s c Hdb Hreg. unfold assign_id, assign_in.
  apply try_except_Return.
  rewrite (bind_Return _ _ _ (select_where_mac_table (c_mac c) s Hdb)).
  destruct (Z.eqb (c_id c) (-1)); [|reflexivity].
  destruct (existsb_fetchone _ _ Hreg) as [r Hr]. now rewrite Hr.
Qed.

(** A loop whose body, on the clients of the list, is a function of the
    dict and leaves the state alone. *)
Lemma for_each_pure : forall (body : device -> M device) f s l,
  (forall c, In c l -> body c s = Return (f c, s)) ->
  for_each body l s = Return (map f l, s).
Proof.
  intros body f s. induction l as [|c l IH]; intros H; [reflexivity|].
  cbn [for_each map].
  rewrite (bind_Return _ _ _ (H c (or_introl eq_refl))).
  rewrite (bind_Return _ _ _ (IH (fun c0 Hc0 => H c0 (or_intror Hc0)))).
  reflexivity.
Qed.

Lemma hydrate_in_mac : forall t c, c_mac (hydrate_in t c) = c_mac c.
Proof.
  intros t c. unfold hydrate_in.
  destruct (String.eqb (c_name c) "unknown"); [|reflexivity].
  now destruct (fetchone _).
Qed.

Lemma assign_in_mac_name : forall t c,
  c_mac (assign_in t c) = c_mac c /\ c_name (assign_in t c) = c_name c.
Proof.
  intros t c. unfold assign_in.
  destruct (Z.eqb (c_id c) (-1)); [|now split].
  now destruct (fetchone _).
Qed.

(** With every client registered, [get_client_names] returns, leaves the
    state alone and is the two updates applied to each dict. *)
Lemma get_client_names_registered : forall t s l,
  db s = Some t ->
  (forall c, In c l -> existsb (has_mac (c_mac c)) t = true) ->
  get_client_names l s
  = Return (map (assign_in t) (map (hydrate_in t) l), s).
Proof.
  intros t s l Hdb Hreg. unfold get_client_names.
  rewrite (bind_Return _ _ s (a:=map (hydrate_in t) l) (s':=s)).
  - apply for_each_pure. intros c Hc. apply assign_id_registered; trivial.
    apply in_map_iff in Hc. destruct Hc as (c0 & <- & Hc0).
    rewrite hydrate_in_mac. now apply Hreg.
  - apply for_each_pure. intros c Hc. apply hydrate_name_registered; auto.
Qed.

(** Without a row for the first client whose name is "unknown",
    [get_client_names] raises [TypeError]. *)
Lemma get_client_names_unregistered : forall t s c rest,
  db s = Some t -> c_name c = "unknown" ->
  existsb (has_mac (c_mac c)) t = false ->
  get_client_names (c :: rest) s = Raise not_subscriptable.
Proof.
  intros t s c rest Hdb Hname Hreg. unfold get_client_names.
  apply bind_Raise. cbn [for_each]. apply bind_Raise.
  unfold hydrate_name, try_except_IntegrityError.
  rewrite (bind_Return _ _ _ (select_where_mac_table (c_mac c) s Hdb)).
  rewrite Hname. cbn [String.eqb Ascii.eqb Bool.eqb].
  destruct (fetchone (filter (has_mac (c_mac c)) t)) as [r|] eqn:E.
  - apply fetchone_filter_Some in E. destruct E as (_ & _ & E). congruence.
  - reflexivity.
Qed.

(** *** C2: hydration without a row *)

(** C2 (the claim fails).  For a device with the name "unknown" and a
    table without a row for its hardware address, [get_client_names] does
    not complete: [fetchone()] gives [None], subscripting it raises
    [TypeError], and the handler is for [sqlite3.IntegrityError] only. *)
Theorem get_client_names_raises_without_row :
  c_name unnamed_device = "unknown"
  /\ rows_of (c_mac unnamed_device) home_registry = []
  /\ get_client_names [unnamed_device] home_registry
     = Raise (TypeError "'NoneType' object is not subscriptable")
  /\ ~ (exists client_list' s',
          get_client_names [unnamed_device] home_registry
          = Return (client_list', s')).
Proof.
  repeat split. intros (l' & s' & H). discriminate H.
Qed.

(** In a table with a row for the hardware address of [c], the two loops
    of [get_client_names] keep the address of [c], put the name of the row
    in the place of the name "unknown" and keep any other name. *)
Lemma hydrated_from_registered : forall s t c,
  db s = Some t ->
  existsb (has_mac (c_mac c)) t = true ->
  hydrated_from s c (assign_in t (hydrate_in t c)).
Proof.
  intros s t c Hdb Hreg. unfold hydrated_from.
  destruct (assign_in_mac_name t (hydrate_in t c)) as [Hm Hn].
  rewrite Hm, Hn, hydrate_in_mac. split; [reflexivity|].
  unfold unnamed, rows_of, table_of, hydrate_in. rewrite Hdb.
  destruct (String.eqb (c_name c) "unknown"); [|reflexivity].
  destruct (existsb_fetchone _ _ Hreg) as [r Hr]. rewrite Hr.
  exists r. split; reflexivity.
Qed.

(** C2 (amended).  Where the program hydrates names, in
    [get_connections_info], registration of the same list comes first.
    For every list and every state, registration returns; hydration
    then completes without raising and leaves the state as registration
    left it; it keeps every hardware address; every device with the name
    "unknown" has a row for its hardware address by then, and gets the
    name that row stores; every other name is kept. *)
Theorem hydration_after_registration : forall client_list s,
  exists client_list' s1,
    add_clients_to_db client_list s = Return (tt, s1)
    /\ get_client_names client_list s1 = Return (client_list', s1)
    /\ register_and_hydrate client_list s = Return (client_list', s1)
    /\ Forall2 (hydrated_from s1) client_list client_list'.
Proof.
  intros l s.
  destruct (add_clients_to_db_appends l s)
    as (new & s1 & Hadd & Hdb & _ & _ & _ & Hreg & _).
  assert (Hreg' : forall c, In c l ->
            existsb (has_mac (c_mac c)) (table_of s ++ new) = true).
  { intros c Hc. specialize (Hreg c Hc).
    unfold registered, table_of in Hreg. now rewrite Hdb in Hreg. }
  pose proof (@get_client_names_registered _ s1 l Hdb Hreg') as Hget.
  exists (map (assign_in (table_of s ++ new))
              (map (hydrate_in (table_of s ++ new)) l)), s1.
  split; [exact Hadd|]. split; [exact Hget|]. split.
  - unfold register_and_hydrate.
    now rewrite (bind_Return _ _ _ Hadd).
  - clear Hget Hadd Hreg. induction l as [|c l IH]; cbn [map].
    + constructor.
    + constructor.
      * apply hydrated_from_registered; [exact Hdb|].
        apply Hreg'. now left.
      * apply IH. intros c0 Hc0. apply Hreg'. now right.
Qed.

Lemma update_name_stores : forall name mac s t,
  db s = Some t ->
  update_name name mac s
  = Return (tt, set_db s (map (fun r => if has_mac mac r
                                        then mk_row name (r_mac r) (r_id r)
                                        else r) t)).
Proof. intros name mac s t H. unfold update_name. now rewrite H. Qed.

Lemma existsb_has_mac_map : forall m (f : row -> row) t,
  (forall r, r_mac (f r) = r_mac r) ->
  existsb (has_mac m) (map f t) = existsb (has_mac m) t.
Proof.
  intros m f t Hf. induction t as [|r t IH]; [reflexivity|].
  cbn [map existsb]. rewrite IH. unfold has_mac at 1 3. now rewrite Hf.
Qed.

(** [save_client_name] on a registered device stores its name. *)
Lemma save_client_name_stores : forall c s s',
  registered (c_mac c) s = true ->
  save_client_name c s = Return (tt, s') ->
  stored_name (c_mac c) (c_name c) s' /\ api_log s' = api_log s.
Proof.
  intros c s s' Hreg Hsave. unfold registered, table_of in Hreg.
  destruct (db s) as [t|] eqn:Hdb; [|discriminate].
  unfold save_client_name in Hsave.
  rewrite (try_except_Return _ _ s
             (@update_name_stores (c_name c) (c_mac c) s t Hdb)) in Hsave.
  injection Hsave as <-. split; [|reflexivity].
  eexists. split; [reflexivity|]. split.
  - rewrite existsb_has_mac_map; [exact Hreg|].
    intros r. now destruct (has_mac (c_mac c) r).
  - intros r Hin Hm. apply in_map_iff in Hin.
    destruct Hin as (r0 & <- & _).
    destruct (has_mac (c_mac c) r0) eqn:E; [reflexivity|].
    apply has_mac_true in Hm. congruence.
Qed.

(** Storing a name for another hardware address leaves the name stored
    for [m]. *)
Lemma save_client_name_other : forall m n c s,
  stored_name m n s -> c_mac c <> m ->
  exists s', save_client_name c s = Return (tt, s')
             /\ stored_name m n s' /\ api_log s' = api_log s.
Proof.
  intros m n c s (t & Hdb & Hex & Hall) Hne.
  eexists. split; [|split].
  - unfold save_client_name. apply try_except_Return.
    apply (@update_name_stores (c_name c) (c_mac c) s t Hdb).
  - eexists. split; [reflexivity|]. split.
    + rewrite existsb_has_mac_map; [exact Hex|].
      intros r. now destruct (has_mac (c_mac c) r).
    + intros r Hin Hm. apply in_map_iff in Hin.
      destruct Hin as (r0 & <- & Hin0).
      destruct (has_mac (c_mac c) r0) eqn:E.
      * apply has_mac_true in E. cbn in Hm. congruence.
      * now apply Hall.
  - reflexivity.
Qed.

Section EnrichmentFacts.

Variable api : nat -> string -> api_response.
Variables m n : string.

Lemma get_mac_manufacturer_api_log : forall c s,
  exists c' s',
    get_mac_manufacturer_api api c s = Return (c', s')
    /\ c_mac c' = c_mac c
    /\ db s' = db s
    /\ api_log s' = api_log s ++ [c_mac c].
Proof.
  intros c s. unfold get_mac_manufacturer_api.
  destruct (api _ _) as [status text|].
  - destruct (Nat.eqb status 200); eexists; eexists; repeat split.
  - eexists; eexists; repeat split.
Qed.

(** The vendor loop, when no client with the address [m] is unnamed. *)
Lemma enrich_loop_skips : forall l s,
  stored_name m n s ->
  (forall c, In c l -> c_mac c = m -> c_name c <> "unknown") ->
  exists l' s' calls,
    for_each (enrich api) l s = Return (l', s')
    /\ api_log s' = api_log s ++ calls
    /\ ~ In m calls
    /\ stored_name m n s'
    /\ Forall2 (fun c c' => c_mac c' = c_mac c
                            /\ (c_name c <> "unknown" -> c' = c)) l l'.
Proof.
  induction l as [|c l IH]; intros s Hst Hl.
  - exists [], s, []. rewrite app_nil_r. repeat split; auto.
  - cbn [for_each]. unfold enrich at 1.
    destruct (String.eqb (c_name c) "unknown") eqn:En.
    + apply String.eqb_eq in En.
      assert (Hne : c_mac c <> m).
      { intros E. exact (Hl c (or_introl eq_refl) E En). }
      destruct (get_mac_manufacturer_api_log c s)
        as (c1 & s1 & Hapi & Hmac & Hdb & Hlog).
      assert (Hst1 : stored_name m n s1).
      { destruct Hst as (t & Ht & Hrest). exists t. rewrite Hdb. auto. }
      assert (Hne1 : c_mac c1 <> m) by congruence.
      destruct (@save_client_name_other m n c1 s1 Hst1 Hne1)
        as (s2 & Hsave & Hst2 & Hlog2).
      destruct (IH s2 Hst2 (fun c0 H0 => Hl c0 (or_intror H0)))
        as (l' & s' & calls & Hrun & Hlog' & Hnot & Hst' & Hall).
      exists (c1 :: l'), s', (c_mac c :: calls).
      split; [|split; [|split; [|split]]].
      * rewrite (bind_Return _ _ s (a:=c1) (s':=s2)).
        -- rewrite (bind_Return _ _ _ Hrun). reflexivity.
        -- rewrite (bind_Return _ _ _ Hapi).
           rewrite (bind_Return _ _ _ Hsave). reflexivity.
      * rewrite Hlog', Hlog2, Hlog, <- app_assoc. reflexivity.
      * intros [E|E]; [exact (Hne E) | exact (Hnot E)].
      * exact Hst'.
      * constructor; [|exact Hall]. split; [exact Hmac|].
        intros H. contradiction.
    + destruct (IH s Hst (fun c0 H0 => Hl c0 (or_intror H0)))
        as (l' & s' & calls & Hrun & Hlog' & Hnot & Hst' & Hall).
      exists (c :: l'), s', calls.
      split; [|split; [|split; [|split]]]; trivial.
      * rewrite (bind_Return _ _ s (a:=c) (s':=s)) by reflexivity.
        rewrite (bind_Return _ _ _ Hrun). reflexivity.
      * constructor; [|exact Hall]. split; trivial.
Qed.

End EnrichmentFacts.

Lemma Forall2_map_l : forall (A B C : Type) (R : B -> C -> Prop)
    (Q : A -> C -> Prop) (f : A -> B) l l',
  (forall a b, R (f a) b -> Q a b) ->
  Forall2 R (map f l) l' -> Forall2 Q l l'.
Proof.
  intros A B C R Q f l. induction l as [|a l IH]; intros l' HRQ H.
  - inversion H. constructor.
  - inversion H; subst. constructor; [now apply HRQ | now apply IH].
Qed.

Lemma hydrate_in_stored : forall m n t c,
  existsb (has_mac m) t = true ->
  (forall r, In r t -> r_mac r = m -> r_name r = n) ->
  c_mac c = m -> c_name c = "unknown" -> c_name (hydrate_in t c) = n.
Proof.
  intros m n t c Hex Hall Hm Hn. unfold hydrate_in. rewrite Hn, Hm.
  cbn [String.eqb Ascii.eqb Bool.eqb].
  destruct (existsb_fetchone _ _ Hex) as [r Hr]. rewrite Hr.
  apply fetchone_filter_Some in Hr. destruct Hr as (Hin & Hf & _).
  apply has_mac_true in Hf. cbn. now apply Hall.
Qed.

Lemma hydrate_in_named : forall t c,
  c_name c <> "unknown" -> hydrate_in t c = c.
Proof.
  intros t c H. unfold hydrate_in.
  destruct (String.eqb (c_name c) "unknown") eqn:E; [|reflexivity].
  apply String.eqb_eq in E. contradiction.
Qed.

(** *** C7: a stored name comes before the vendor *)

(** C7.  Let [save_client_name] have stored a name other than "unknown"
    for a registered device.  Then every pass of [get_connections_info]
    run on that state returns, asks the vendor service nothing about
    that hardware address, gives the stored name to each device that,
    after [get_macs], has that address and the name "unknown", and
    leaves the name stored. *)
Theorem stored_name_precedes_vendor :
  forall api arp_stdout c s0 s1 client_list,
  registered (c_mac c) s0 = true ->
  c_name c <> "unknown" ->
  save_client_name c s0 = Return (tt, s1) ->
  exists client_list' s2 calls,
    get_connections_info api arp_stdout client_list s1
    = Return (client_list', s2)
    /\ api_log s2 = api_log s1 ++ calls
    /\ ~ In (c_mac c) calls
    /\ Forall2 (hydrated (c_mac c) (c_name c))
               (snd (get_macs arp_stdout client_list)) client_list'
    /\ stored_name (c_mac c) (c_name c) s2.
Proof.
  intros api arp_stdout c s0 s1 client_list Hreg Hname Hsave.
  destruct (save_client_name_stores c s0 Hreg Hsave) as [Hst _].
  unfold get_connections_info.
  set (l1 := snd (get_macs arp_stdout client_list)).
  destruct (add_clients_to_db_appends l1 s1)
    as (new & s1' & Hadd & Hdb' & Hlog' & _ & _ & Hregs & Hnew).
  rewrite (bind_Return _ _ _ Hadd).
  destruct Hst as (t & Hdb & Hex & Hall).
  assert (Ht : table_of s1 = t) by (unfold table_of; now rewrite Hdb).
  rewrite Ht in Hdb'.
  assert (Hex' : existsb (has_mac (c_mac c)) (t ++ new) = true)
    by (rewrite existsb_app, Hex; reflexivity).
  assert (Hall' : forall r, In r (t ++ new) -> r_mac r = c_mac c ->
                            r_name r = c_name c).
  { intros r Hin Hm. apply in_app_or in Hin. destruct Hin as [Hin|Hin].
    - now apply Hall.
    - specialize (Hnew r Hin). unfold registered in Hnew.
      rewrite Ht, Hm, Hex in Hnew. discriminate. }
  assert (Hregs' : forall d, In d l1 ->
                             existsb (has_mac (c_mac d)) (t ++ new) = true).
  { intros d Hd. specialize (Hregs d Hd). unfold registered, table_of in Hregs.
    now rewrite Hdb' in Hregs. }
  rewrite (bind_Return _ _ _
             (@get_client_names_registered (t ++ new) s1' l1 Hdb' Hregs')).
  set (f := fun d => assign_in (t ++ new) (hydrate_in (t ++ new) d)).
  rewrite map_map. fold f.
  assert (Hf : forall d, c_mac (f d) = c_mac c -> c_name (f d) <> "unknown").
  { intros d Hm. unfold f in *.
    destruct (assign_in_mac_name (t ++ new) (hydrate_in (t ++ new) d))
      as [Em En].
    rewrite Em, hydrate_in_mac in Hm. rewrite En.
    destruct (String.eqb (c_name d) "unknown") eqn:E.
    - apply String.eqb_eq in E.
      now rewrite (@hydrate_in_stored (c_mac c) (c_name c) (t ++ new) d
                     Hex' Hall' Hm E).
    - apply String.eqb_neq in E. now rewrite hydrate_in_named. }
  destruct (@enrich_loop_skips api (c_mac c) (c_name c) (map f l1) s1')
    as (l' & s2 & calls & Hrun & Hlog2 & Hnot & Hst2 & Hrel).
  { exists (t ++ new). auto. }
  { intros d Hd. apply in_map_iff in Hd. destruct Hd as (d0 & <- & _).
    apply Hf. }
  exists l', s2, calls. split; [exact Hrun|].
  split; [now rewrite Hlog2, Hlog'|].
  split; [exact Hnot|]. split; [|exact Hst2].
  apply (@Forall2_map_l device device device
           (fun c0 c' => c_mac c' = c_mac c0
                         /\ (c_name c0 <> "unknown" -> c' = c0))
           (hydrated (c_mac c) (c_name c)) f l1 l'); [|exact Hrel].
  intros a b [Hm Hsame]. unfold hydrated. unfold f in *.
  destruct (assign_in_mac_name (t ++ new) (hydrate_in (t ++ new) a))
    as [Em En].
  rewrite Em, hydrate_in_mac in Hm. split; [exact Hm|].
  intros Ha Hu.
  assert (Hn : c_name (assign_in (t ++ new) (hydrate_in (t ++ new) a))
               = c_name c)
    by (rewrite En;
        now apply (@hydrate_in_stored (c_mac c) (c_name c) (t ++ new) a
                     Hex' Hall')).
  rewrite Hsame; [exact Hn|]. now rewrite Hn.
Qed.

Lemma stored_name_precedes_vendor_witness :
  registered (c_mac renamed_phone) home_registry = true
  /\ c_name renamed_phone <> "unknown"
  /\ exists s1,
       save_client_name renamed_phone home_registry = Return (tt, s1)
       /\ exists client_list' s2 calls,
            get_connections_info vendor_acme arp_without_tv
                                 [new_client "192.168.1.4"] s1
            = Return (client_list', s2)
            /\ api_log s2 = api_log s1 ++ calls
            /\ ~ In (c_mac renamed_phone) calls.
Proof.
  assert (H1 : registered (c_mac renamed_phone) home_registry = true)
    by reflexivity.
  assert (H2 : c_name renamed_phone <> "unknown") by discriminate.
  split; [exact H1|]. split; [exact H2|].
  eexists. split; [reflexivity|].
  destruct (@stored_name_precedes_vendor vendor_acme arp_without_tv
              renamed_phone home_registry _ [new_client "192.168.1.4"]
              H1 H2 eq_refl)
    as (l' & s2 & calls & Hrun & Hlog & Hnot & _).
  exists l', s2, calls. auto.
Defined.

(** ** The monitoring cycle *)

Lemma list_remove_length : forall (A : Type) (eqb : A -> A -> bool) x l l',
  Py.list_remove eqb x l = Some l' -> length l = S (length l').
Proof.
  intros A eqb x. induction l as [|y l IH]; intros l' H; [discriminate|].
  cbn [Py.list_remove] in H. destruct (eqb y x).
  - now injection H as <-.
  - destruct (Py.list_remove eqb x l) as [r|]; [|discriminate].
    injection H as <-. cbn. f_equal. now apply IH.
Qed.

(** The first loop of [run_monitor] ends by running off the list, not by
    running out of fuel: from the length of the list on, more fuel gives
    the same result. *)
Lemma check_loop_fuel : forall fuel1 fuel2 i client_list latest changes s,
  (length client_list - i <= fuel1)%nat ->
  (length client_list - i <= fuel2)%nat ->
  check_loop fuel1 i client_list latest changes s
  = check_loop fuel2 i client_list latest changes s.
Proof.
  induction fuel1 as [|fuel1 IH];
    intros fuel2 i l latest changes s H1 H2.
  - assert (Hn : nth_error l i = None) by (apply nth_error_None; lia).
    destruct fuel2; cbn [check_loop]; [reflexivity|]. now rewrite Hn.
  - destruct fuel2 as [|fuel2].
    + assert (Hn : nth_error l i = None) by (apply nth_error_None; lia).
      cbn [check_loop]. now rewrite Hn.
    + cbn [check_loop]. destruct (nth_error l i) as [d|] eqn:Hd;
        [|reflexivity].
      unfold bind at 1 3.
      destruct (ip_scan (c_ip d) latest latest s) as [[[found latest'] s']|e];
        [|reflexivity].
      destruct found.
      * apply IH; lia.
      * unfold bind, disconnection_notice.
        destruct (Py.list_remove device_eqb d l) as [l'|] eqn:Hrm;
          [|reflexivity].
        apply list_remove_length in Hrm. apply IH; lia.
Qed.

(** *** C1: the diff of one cycle *)

(** C1 (code at the failing input).  The live list is the router, the
    television and the phone; in the sweep the router and the phone
    answer.  One address has gone and none is new, yet the cycle gives
    one disconnect notice and one connect notice, and leaves the phone
    twice in the live list: removing the television from the list while
    the loop walks it makes the loop pass over the phone, whose address
    then stays in [latest_connections] and is taken for a new
    connection. *)
Theorem run_monitor_duplicates_after_disconnect :
  let P := [router; tv; phone] in
  let ping := answers ["192.168.1.1"; "192.168.1.4"] in
  exists sw s',
    ping_all ping (u_ip this_host) 1000 = Return sw
    /\ ip_list sw = ["192.168.1.1"; "192.168.1.4"]
    /\ difference (map c_ip P) (ip_list sw) = ["192.168.1.3"]
    /\ difference (ip_list sw) (map c_ip P) = []
    /\ run_monitor no_vendor ping (fun _ => arp_without_tv) this_host P
                   home_registry
       = Return ([router; phone; phone], true, s')
    /\ notices s' = [DeviceDisconnected tv; DeviceConnected phone]
    /\ disconnects s' = 1 /\ connects s' = 1.
Proof.
  cbv zeta. eexists. eexists.
  split; [vm_compute; reflexivity|].
  split; [reflexivity|]. split; [reflexivity|]. split; [reflexivity|].
  split; [vm_compute; reflexivity|].
  repeat split.
Qed.

(** * Further properties of the sweep *)

Lemma str_injective : forall i j, Py.str i = Py.str j -> i = j.
Proof.
  intros i j H. unfold Py.str in H.
  assert (E : Some (Nat.to_uint i) = Some (Nat.to_uint j)).
  { rewrite <- !NilEmpty.usu. now rewrite H. }
  injection E as E.
  rewrite <- (DecimalNat.Unsigned.of_to i), <- (DecimalNat.Unsigned.of_to j).
  now rewrite E.
Qed.

Lemma append_injective : forall p a b : string,
  (p ++ a)%string = (p ++ b)%string -> a = b.
Proof.
  induction p as [|c p IH]; intros a b H; cbn in H; [exact H|].
  injection H as H. now apply IH.
Qed.

Lemma NoDup_map_injective : forall (A B : Type) (f : A -> B) l,
  (forall a b, f a = f b -> a = b) -> NoDup l -> NoDup (map f l).
Proof.
  intros A B f l Hf H. induction H as [|a l Hn Hd IH]; cbn; constructor.
  - intros Hin. apply in_map_iff in Hin. destruct Hin as (b & Hb & Hin).
    apply Hf in Hb. now subst.
  - exact IH.
Qed.

Lemma NoDup_firstn : forall (A : Type) k (l : list A),
  NoDup l -> NoDup (firstn k l).
Proof.
  intros A k l H. rewrite <- (firstn_skipn k l) in H.
  now apply NoDup_app_remove_r in H.
Qed.

Lemma In_firstn : forall (A : Type) k (l : list A) a,
  In a (firstn k l) -> In a l.
Proof.
  intros A k l a H. rewrite <- (firstn_skipn k l). apply in_or_app. now left.
Qed.

Lemma NoDup_map_filter : forall (A B : Type) (f : A -> B) (g : A -> bool) l,
  NoDup (map f l) -> NoDup (map f (filter g l)).
Proof.
  intros A B f g. induction l as [|a l IH]; intros H; [constructor|].
  cbn [map] in H. inversion H as [|b m Hn Hd]; subst.
  cbn [filter]. destruct (g a); [|now apply IH].
  cbn [map]. constructor; [|now apply IH].
  intros Hin. apply Hn. apply in_map_iff in Hin.
  destruct Hin as (c & Hc & Hin). apply filter_In in Hin.
  rewrite <- Hc. apply in_map. tauto.
Qed.

Lemma candidates_NoDup : forall x p range,
  NoDup range -> NoDup (candidates x p range).
Proof.
  intros x p range H. unfold candidates. apply NoDup_filter.
  apply NoDup_map_injective; [|exact H].
  intros a b E. apply append_injective in E. now apply str_injective.
Qed.

Lemma candidates_not_anchor : forall x p range, ~ In x (candidates x p range).
Proof.
  intros x p range H. unfold candidates in H. apply filter_In in H.
  destruct H as [_ H]. now rewrite String.eqb_refl in H.
Qed.

Lemma candidates_length : forall x p range,
  (length (candidates x p range) <= length range)%nat.
Proof.
  intros x p range. unfold candidates.
  etransitivity; [apply filter_length_le|]. now rewrite length_map.
Qed.

(** What a sweep that returns has probed. *)
Lemma ping_all_candidates : forall ping x timeout sw,
  ping_all ping (Some x) timeout = Return sw ->
  exists b e k,
    Re.search ip_range_pattern x = Some (b, e)
    /\ map fst (probed sw)
       = firstn k (candidates x (Py.slice x b e) (Py.range 0 255))
    /\ ip_list sw = map fst (filter snd (probed sw))
    /\ ping_count sw = length (probed sw).
Proof.
  intros ping x timeout sw H. unfold ping_all in H.
  destruct (Re.search ip_range_pattern x) as [[b e]|]; [|discriminate].
  exists b, e. revert H. generalize (Py.range 0 255). intros rg H.
  destruct (sweep_loop_log ping x timeout (Py.slice x b e) rg
              (mk_sweep [] 0 0 [])) as (log & Hp & Hl & Hc & _ & _ & k & Hk).
  cbv zeta in Hp, Hl, Hc.
  assert (E : sweep_loop ping x timeout (Py.slice x b e) rg
                         (mk_sweep [] 0 0 []) = sw) by congruence.
  rewrite E in Hp, Hl, Hc.
  cbn [probed ip_list ping_count app] in Hp, Hl, Hc.
  exists k. rewrite Hp, Hl, Hc. auto.
Qed.

Lemma range_0_255 : NoDup (Py.range 0 255) /\ length (Py.range 0 255) = 255.
Proof.
  unfold Py.range. split; [apply seq_NoDup | apply length_seq].
Qed.

Lemma ping_all_distinct : forall ping x timeout sw,
  ping_all ping (Some x) timeout = Return sw ->
  NoDup (map fst (probed sw)) /\ NoDup (ip_list sw)
  /\ ~ In x (map fst (probed sw)).
Proof.
  intros ping x timeout sw H.
  destruct (ping_all_candidates _ _ _ H) as (b & e & k & _ & Hp & Hl & _).
  destruct range_0_255 as [Hnd _]. revert Hp Hnd.
  generalize (Py.range 0 255). intros rg Hp Hnd.
  assert (Hd : NoDup (map fst (probed sw))).
  { rewrite Hp. apply NoDup_firstn. now apply candidates_NoDup. }
  split; [exact Hd|]. split.
  - rewrite Hl. now apply NoDup_map_filter.
  - rewrite Hp. intros Hin. apply In_firstn in Hin.
    exact (candidates_not_anchor _ _ _ Hin).
Qed.

Lemma In_map_filter : forall (A B : Type) (f : A -> B) (g : A -> bool) l b,
  In b (map f (filter g l)) -> In b (map f l).
Proof.
  intros A B f g l b H. apply in_map_iff in H. destruct H as (a & <- & Ha).
  apply filter_In in Ha. apply in_map. tauto.
Qed.

(** X1.  A sweep probes no address twice and never its own anchor; the
    list it returns has no duplicates, does not hold the anchor and holds
    probed addresses only. *)
Theorem sweep_probes_distinct_never_self : forall ping x timeout sw,
  ping_all ping (Some x) timeout = Return sw ->
  NoDup (map fst (probed sw))
  /\ NoDup (ip_list sw)
  /\ ~ In x (map fst (probed sw))
  /\ ~ In x (ip_list sw)
  /\ incl (ip_list sw) (map fst (probed sw)).
Proof.
  intros ping x timeout sw H.
  destruct (ping_all_distinct _ _ _ H) as (H1 & H2 & H3).
  destruct (ping_all_candidates _ _ _ H) as (_ & _ & _ & _ & _ & Hl & _).
  assert (Hincl : incl (ip_list sw) (map fst (probed sw))).
  { rewrite Hl. intros a Ha. now apply In_map_filter in Ha. }
  repeat split; trivial. intros Hin. apply H3. now apply Hincl.
Qed.

Lemma sweep_probes_distinct_never_self_witness :
  let sw := mk_sweep ["192.168.1.1"; "192.168.1.4"] 8 4
              [("192.168.1.0", false); ("192.168.1.1", true);
               ("192.168.1.3", false); ("192.168.1.4", true);
               ("192.168.1.5", false); ("192.168.1.6", false);
               ("192.168.1.7", false); ("192.168.1.8", false)] in
  ping_all (answers ["192.168.1.1"; "192.168.1.4"]) (Some "192.168.1.2") 1000
  = Return sw
  /\ NoDup (ip_list sw) /\ ~ In "192.168.1.2" (map fst (probed sw)).
Proof.
  intros sw.
  assert (H : ping_all (answers ["192.168.1.1"; "192.168.1.4"])
                       (Some "192.168.1.2") 1000 = Return sw)
    by (vm_compute; reflexivity).
  split; [exact H|].
  destruct (@sweep_probes_distinct_never_self _ _ _ _ H)
    as (_ & H2 & H3 & _). auto.
Defined.

(** X2.  The count a sweep returns is the number of probes it issued; it
    is at most 255, and the result list is no longer than that count. *)
Theorem sweep_probe_count_bounds : forall ping x timeout sw,
  ping_all ping (Some x) timeout = Return sw ->
  ping_count sw = length (probed sw)
  /\ (ping_count sw <= 255)%nat
  /\ (length (ip_list sw) <= ping_count sw)%nat.
Proof.
  intros ping x timeout sw H.
  destruct (ping_all_candidates _ _ _ H) as (b & e & k & _ & Hp & Hl & Hc).
  destruct range_0_255 as [_ Hlen]. revert Hp Hlen.
  generalize (Py.range 0 255). intros rg Hp Hlen.
  split; [exact Hc|]. split.
  - rewrite Hc, <- (length_map fst), Hp, length_firstn.
    pose proof (candidates_length x (Py.slice x b e) rg). lia.
  - rewrite Hl, Hc, length_map. apply filter_length_le.
Qed.

Lemma sweep_probe_count_bounds_witness :
  let sw := mk_sweep [] 4 4 [("192.168.1.0", false); ("192.168.1.1", false);
                             ("192.168.1.2", false); ("192.168.1.3", false)] in
  ping_all (answers []) (Some "192.168.1.10") 350 = Return sw
  /\ (ping_count sw <= 255)%nat.
Proof.
  intros sw.
  assert (H : ping_all (answers []) (Some "192.168.1.10") 350 = Return sw)
    by (vm_compute; reflexivity).
  split; [exact H|].
  destruct (@sweep_probe_count_bounds _ _ _ _ H) as (_ & H2 & _). exact H2.
Defined.

Section SweepCompleteness.

Variable ping : list string -> string.
Variable x : string.
Variable timeout : nat.
Variable ip_prefix : string.

(** The loop either walks the whole range or leaves it with the counter
    at 4. *)
Lemma sweep_loop_complete : forall range st,
  (unused_count st <= 3)%nat ->
  let st' := sweep_loop ping x timeout ip_prefix range st in
  (exists log, probed st' = probed st ++ log
               /\ map fst log = candidates x ip_prefix range)
  \/ unused_count st' = 4.
Proof.
  induction range as [|i range IH]; intros st Hu.
  - left. exists []. cbn. now rewrite app_nil_r.
  - rewrite sweep_loop_step. cbv zeta.
    unfold candidates. cbn [map filter].
    destruct (String.eqb x (ip_prefix ++ Py.str i)) eqn:Hx; cbn [negb].
    + now apply IH.
    + set (ip := (ip_prefix ++ Py.str i)%string).
      destruct (reachable (ping (ping_args timeout ip))).
      * cbn [unused_count]. change (3 <? 0)%nat with false. cbv iota.
        destruct (IH (mk_sweep (ip_list st ++ [ip]) (S (ping_count st)) 0
                               (probed st ++ [(ip, true)])))
          as [(log & Hp & Hl)|H4]; [cbn; lia| |now right].
        left. exists ((ip, true) :: log). cbn [probed] in Hp.
        rewrite Hp, <- app_assoc. cbn [app map fst]. split; [reflexivity|].
        f_equal. exact Hl.
      * cbn [unused_count].
        destruct (3 <? S (unused_count st))%nat eqn:Hlt.
        -- right. cbn [unused_count]. apply Nat.ltb_lt in Hlt. lia.
        -- apply Nat.ltb_ge in Hlt.
           destruct (IH (mk_sweep (ip_list st) (S (ping_count st))
                                  (S (unused_count st))
                                  (probed st ++ [(ip, false)])))
             as [(log & Hp & Hl)|H4]; [cbn; lia| |now right].
           left. exists ((ip, false) :: log). cbn [probed] in Hp.
           rewrite Hp, <- app_assoc. cbn [app map fst]. split; [reflexivity|].
           f_equal. exact Hl.
Qed.

End SweepCompleteness.

Lemma misses_after_snoc : forall u log e,
  misses_after u (log ++ [e])
  = if snd e then 0 else S (misses_after u log).
Proof.
  intros u log e. unfold misses_after. now rewrite fold_left_app.
Qed.

(** The counter is the length of the run of misses the log ends with. *)
Lemma misses_after_suffix : forall log,
  exists pre suf,
    log = pre ++ suf
    /\ length suf = misses_after 0 log
    /\ Forall (fun e => snd e = false) suf.
Proof.
  induction log as [|e log IH] using rev_ind.
  - exists [], []. repeat split. constructor.
  - rewrite misses_after_snoc. destruct (snd e) eqn:E.
    + exists (log ++ [e]), []. rewrite app_nil_r. repeat split. constructor.
    + destruct IH as (pre & suf & Hlog & Hlen & Hall).
      exists pre, (suf ++ [e]). rewrite Hlog at 1. rewrite <- app_assoc.
      split; [reflexivity|]. split.
      * rewrite length_app, Hlen. cbn. lia.
      * apply Forall_app. split; [exact Hall|]. now constructor.
Qed.

(** X3.  A sweep that returns has either probed every candidate of its
    range, or it was cut short and its last four probes were all counted
    as misses. *)
Theorem sweep_complete_or_cut_short : forall ping x timeout sw b e,
  Re.search ip_range_pattern x = Some (b, e) ->
  ping_all ping (Some x) timeout = Return sw ->
  map fst (probed sw) = candidates x (Py.slice x b e) (Py.range 0 255)
  \/ exists pre p1 p2 p3 p4,
       probed sw = pre ++ [(p1, false); (p2, false); (p3, false); (p4, false)].
Proof.
  intros ping x timeout sw b e Hs H.
  destruct (ping_all_log _ _ _ H) as (_ & _ & Hu & _).
  rewrite (@ping_all_returns ping x timeout b e Hs) in H.
  revert H. generalize (Py.range 0 255). intros rg H.
  assert (E : sweep_loop ping x timeout (Py.slice x b e) rg
                         (mk_sweep [] 0 0 []) = sw) by congruence.
  destruct (sweep_loop_complete ping x timeout (Py.slice x b e) rg
              (mk_sweep [] 0 0 [])) as [(log & Hp & Hl)|H4]; [cbn; lia| |].
  - left. rewrite E in Hp. cbn [probed app] in Hp. now rewrite Hp.
  - right. rewrite E in H4. rewrite H4 in Hu.
    destruct (misses_after_suffix (probed sw)) as (pre & suf & Hlog & Hlen
                                                   & Hall).
    rewrite <- Hu in Hlen.
    destruct suf as [|[p1 e1] [|[p2 e2] [|[p3 e3] [|[p4 e4] [|? ?]]]]];
      try discriminate.
    inversion Hall as [|? ? E1 Hall1]; subst.
    inversion Hall1 as [|? ? E2 Hall2]; subst.
    inversion Hall2 as [|? ? E3 Hall3]; subst.
    inversion Hall3 as [|? ? E4 _]; subst.
    cbn in E1, E2, E3, E4. subst.
    exists pre, p1, p2, p3, p4. assumption.
Qed.

Lemma sweep_complete_or_cut_short_witness :
  let sw := mk_sweep [] 4 4 [("192.168.1.0", false); ("192.168.1.1", false);
                             ("192.168.1.2", false); ("192.168.1.3", false)] in
  Re.search ip_range_pattern "192.168.1.10" = Some (0, 10)
  /\ ping_all (answers []) (Some "192.168.1.10") 350 = Return sw
  /\ (map fst (probed sw)
      = candidates "192.168.1.10" (Py.slice "192.168.1.10" 0 10)
                   (Py.range 0 255)
      \/ exists pre p1 p2 p3 p4,
           probed sw
           = pre ++ [(p1, false); (p2, false); (p3, false); (p4, false)]).
Proof.
  intros sw.
  assert (Hs : Re.search ip_range_pattern "192.168.1.10" = Some (0, 10))
    by reflexivity.
  assert (H : ping_all (answers []) (Some "192.168.1.10") 350 = Return sw)
    by (vm_compute; reflexivity).
  split; [exact Hs|]. split; [exact H|].
  exact (@sweep_complete_or_cut_short _ _ _ _ _ _ Hs H).
Defined.

(** * The patterns *)

Lemma match_here_plus : forall c re a s,
  Re.match_here (Re.Plus c :: re) (String a s)
  = if Re.class_match c a then
      match Re.match_here (Re.Plus c :: re) s with
      | Some n => Some (S n)
      | None => option_map S (Re.match_here re s)
      end
    else None.
Proof. reflexivity. Qed.

Lemma match_here_sound : forall re s n,
  Re.match_here re s = Some n -> matches re s n.
Proof.
  induction re as [|[c|c] re IH]; intros s n H.
  - cbn in H. injection H as <-. constructor.
  - destruct s as [|a s]; [discriminate|]. cbn [Re.match_here] in H.
    destruct (Re.class_match c a) eqn:E; [|discriminate].
    destruct (Re.match_here re s) as [k|] eqn:Hk; [|discriminate].
    cbn in H. injection H as <-. constructor; auto.
  - revert n H. induction s as [|a s IHs]; intros n H; [discriminate|].
    rewrite match_here_plus in H.
    destruct (Re.class_match c a) eqn:E; [|discriminate].
    destruct (Re.match_here (Re.Plus c :: re) s) as [k|] eqn:Hk.
    + injection H as <-. apply matches_plus_more; auto.
    + destruct (Re.match_here re s) as [k|] eqn:Hk'; [|discriminate].
      cbn in H. injection H as <-. apply matches_plus_last; auto.
Qed.

Lemma match_here_complete : forall re s n,
  matches re s n -> exists k, Re.match_here re s = Some k.
Proof.
  intros re s n H. induction H as [s|c re a s n E H [k IH]
                                   |c re a s n E H [k IH]|c re a s n E H [k IH]].
  - now exists 0.
  - exists (S k). cbn [Re.match_here]. now rewrite E, IH.
  - exists (S k). rewrite match_here_plus. now rewrite E, IH.
  - rewrite match_here_plus, E.
    destruct (Re.match_here (Re.Plus c :: re) s) as [j|].
    + now exists (S j).
    + exists (S k). now rewrite IH.
Qed.

Lemma matches_le_length : forall re s n,
  matches re s n -> (n <= String.length s)%nat.
Proof. intros re s n H. induction H; cbn; lia. Qed.

Lemma matches_substring : forall re s n,
  matches re s n -> matches re (String.substring 0 n s) n.
Proof.
  intros re s n H. induction H; cbn [String.substring].
  - destruct s; apply matches_nil.
  - now apply matches_one.
  - now apply matches_plus_more.
  - now apply matches_plus_last.
Qed.

Lemma matches_app_prefix : forall re1 re2 s n,
  matches (re1 ++ re2) s n -> exists k, matches re1 s k.
Proof.
  intros re1 re2 s n H. remember (re1 ++ re2) as re eqn:E.
  revert re1 E. induction H as [s|c re a s n Hc H IH|c re a s n Hc H IH
                                |c re a s n Hc H IH]; intros re1 E.
  - destruct re1; [|discriminate]. exists 0. constructor.
  - destruct re1 as [|r re1]; [exists 0; constructor|].
    cbn in E. injection E as <- E. destruct (IH re1 E) as [k Hk].
    exists (S k). now constructor.
  - destruct re1 as [|r re1]; [exists 0; constructor|].
    cbn in E. injection E as <- E.
    destruct (IH (Re.Plus c :: re1)) as [k Hk]; [cbn; now rewrite E|].
    exists (S k). now apply matches_plus_more.
  - destruct re1 as [|r re1]; [exists 0; constructor|].
    cbn in E. injection E as <- E. destruct (IH re1 E) as [k Hk].
    exists (S k). now apply matches_plus_last.
Qed.

Lemma matches_ones_length : forall re s n,
  Forall is_one re -> matches re s n -> n = length re.
Proof.
  intros re s n Hre H. induction H as [s|c re a s n Hc H IH|c re a s n Hc H IH
                                        |c re a s n Hc H IH].
  - reflexivity.
  - inversion Hre; subst. cbn. f_equal. now apply IH.
  - inversion Hre as [|? ? F]; subst. destruct F.
  - inversion Hre as [|? ? F]; subst. destruct F.
Qed.

Lemma substring_drop : forall k n s,
  String.substring k n s = String.substring 0 n (string_drop k s).
Proof.
  induction k as [|k IH]; intros n s; [reflexivity|].
  destruct s as [|a s]; cbn [string_drop String.substring].
  - now destruct n.
  - apply IH.
Qed.

Lemma substring_0_length : forall n s,
  (n <= String.length s)%nat -> String.length (String.substring 0 n s) = n.
Proof.
  induction n as [|n IH]; intros s H.
  - now destruct s.
  - destruct s as [|a s]; cbn in H; [lia|]. cbn. f_equal. apply IH. lia.
Qed.

Lemma search_from_spec : forall re s pos b e,
  Re.search_from re s pos = Some (b, e) ->
  exists k n, b = pos + k /\ e = b + n
              /\ Re.match_here re (string_drop k s) = Some n.
Proof.
  intros re. induction s as [|a s IH]; intros pos b e H;
    cbn [Re.search_from] in H.
  - destruct (Re.match_here re "") as [n|] eqn:E; [|discriminate].
    injection H as <- <-. exists 0, n. repeat split; trivial; lia.
  - destruct (Re.match_here re (String a s)) as [n|] eqn:E.
    + injection H as <- <-. exists 0, n. repeat split; trivial; lia.
    + destruct (IH _ _ _ H) as (k & n & Hb & He & Hm).
      exists (S k), n. repeat split; trivial; lia.
Qed.

(** What [pattern.search(line)] finds is matched by the pattern from its
    first character to its last. *)
Lemma search_slice_matches : forall re line b e,
  Re.search re line = Some (b, e) ->
  exists n, matches re (Py.slice line b e) n
            /\ String.length (Py.slice line b e) = n.
Proof.
  intros re line b e H. unfold Re.search in H.
  destruct (search_from_spec _ _ _ H) as (k & n & Hb & He & Hm).
  cbn in Hb. subst b. exists n. unfold Py.slice.
  replace (e - k) with n by lia. rewrite substring_drop.
  apply match_here_sound in Hm. split.
  - now apply matches_substring.
  - apply substring_0_length. now apply matches_le_length in Hm.
Qed.

Lemma line_find_found : forall key pat lines v,
  line_find key pat lines = Some v ->
  exists line b e,
    In line lines /\ Py.contains key line = true
    /\ Re.search pat line = Some (b, e) /\ v = Py.slice line b e.
Proof.
  intros key pat. induction lines as [|line rest IH]; intros v H;
    [discriminate|].
  cbn [line_find] in H.
  assert (Hrest : line_find key pat rest = Some v ->
                  exists line0 b e,
                    In line0 (line :: rest) /\ Py.contains key line0 = true
                    /\ Re.search pat line0 = Some (b, e)
                    /\ v = Py.slice line0 b e).
  { intros Hr. destruct (IH v Hr) as (l0 & b & e & Hin & Hrest).
    exists l0, b, e. split; [now right | exact Hrest]. }
  destruct (Py.contains key line) eqn:Hc; [|now apply Hrest].
  destruct (Re.search pat line) as [[b e]|] eqn:Hs; [|now apply Hrest].
  injection H as <-. exists line, b, e. repeat split; trivial. now left.
Qed.

Lemma mac_pattern_ones : Forall is_one mac_pattern.
Proof. repeat constructor. Qed.

(** A match of the hardware-address pattern has 17 characters. *)
Lemma mac_slice_length : forall line b e,
  Re.search mac_pattern line = Some (b, e) ->
  String.length (Py.slice line b e) = 17.
Proof.
  intros line b e H. destruct (search_slice_matches _ _ H) as (n & Hm & Hl).
  rewrite Hl. exact (matches_ones_length mac_pattern_ones Hm).
Qed.

(** A match of the address pattern starts with a match of the range
    pattern. *)
Lemma ip_slice_has_range : forall line b e,
  Re.search ip_pattern line = Some (b, e) ->
  exists k, Re.search ip_range_pattern (Py.slice line b e) = Some (0, k).
Proof.
  intros line b e H. destruct (search_slice_matches _ _ H) as (n & Hm & _).
  change ip_pattern with (ip_range_pattern ++ [digits]) in Hm.
  apply matches_app_prefix in Hm. destruct Hm as [k Hk].
  apply match_here_complete in Hk. destruct Hk as [j Hj].
  exists j. unfold Re.search.
  destruct (Py.slice line b e); cbn [Re.search_from]; now rewrite Hj.
Qed.

(** X4.  [fetch_user_id] always returns, under the name "Your Device";
    an address it found has a match of the range pattern of [ping_all]
    at its start, and a hardware address it found has 17 characters. *)
Theorem fetch_user_id_shape : forall ipconfig_stdout,
  exists u,
    fetch_user_id ipconfig_stdout = Return u
    /\ u_name u = "Your Device"
    /\ (forall ip, u_ip u = Some ip ->
          exists k, Re.search ip_range_pattern ip = Some (0, k))
    /\ (forall mac, u_mac u = Some mac -> String.length mac = 17).
Proof.
  intros out. eexists. split; [reflexivity|]. cbn [u_name u_ip u_mac].
  split; [reflexivity|]. split.
  - intros ip H. apply line_find_found in H.
    destruct H as (line & b & e & _ & _ & Hs & ->).
    now apply ip_slice_has_range.
  - intros mac H. apply line_find_found in H.
    destruct H as (line & b & e & _ & _ & Hs & ->).
    now apply mac_slice_length.
Qed.

(** * C9: an anchor without a range prefix *)






(** * Further properties of get_macs *)

Lemma arp_scan_resolved : forall arp_output client,
  resolved_or_same client (arp_scan client arp_output).
Proof.
  unfold resolved_or_same.
  induction arp_output as [|line rest IH]; intros client; cbn [arp_scan].
  - now left.
  - destruct (Py.contains (c_ip client) line); cbn [andb]; [|apply IH].
    destruct (String.eqb (c_mac client) "unknown") eqn:E; [|apply IH].
    destruct (Re.search mac_pattern line) as [[b e]|] eqn:Hs; [|apply IH].
    apply String.eqb_eq in E. right. cbn [c_mac set_mac].
    split; [exact E|]. split; [|reflexivity].
    now apply mac_slice_length.
Qed.

Lemma arp_scan_known : forall arp_output client,
  c_mac client <> "unknown" -> arp_scan client arp_output = client.
Proof.
  intros arp_output client H.
  destruct (arp_scan_frame arp_output client) as (_ & _ & _ & Hsame).
  now apply Hsame.
Qed.

Lemma arp_scan_idempotent : forall arp_output client,
  arp_scan (arp_scan client arp_output) arp_output
  = arp_scan client arp_output.
Proof.
  intros arp_output client.
  destruct (arp_scan_resolved arp_output client) as [E|(_ & Hlen & _)].
  - now rewrite !E.
  - apply arp_scan_known. intros Hu. rewrite Hu in Hlen. discriminate.
Qed.

(** X5.  A hardware address [get_macs] fills in has 17 characters, so it
    is never "unknown"; running [get_macs] again on the same arp output
    changes nothing more. *)
Theorem get_macs_resolves_once : forall arp_stdout client_list,
  let client_list' := snd (get_macs arp_stdout client_list) in
  Forall2 resolved_or_same client_list client_list'
  /\ snd (get_macs arp_stdout client_list') = client_list'.
Proof.
  intros arp_stdout client_list. cbv zeta. unfold get_macs. cbn [snd].
  split.
  - induction client_list as [|c l IH]; cbn [map]; constructor;
      [apply arp_scan_resolved | exact IH].
  - rewrite map_map. apply map_ext. intros c. apply arp_scan_idempotent.
Qed.

(** * Further properties of the registry *)

Lemma set_db_same : forall s t, db s = Some t -> set_db s t = s.
Proof. intros [d l n] t H. cbn in H. subst. reflexivity. Qed.

Lemma fold_max_ge : forall ids i x,
  In x (i :: ids) -> (x <= fold_right Z.max i ids)%Z.
Proof.
  induction ids as [|a ids IH]; intros i x H.
  - destruct H as [<-|[]]. cbn. lia.
  - cbn [fold_right].
    assert (Hi : (i <= fold_right Z.max i ids)%Z) by (apply IH; now left).
    destruct H as [<-|[<-|H]]; [lia | lia |].
    assert (Hx : (x <= fold_right Z.max i ids)%Z) by (apply IH; now right).
    lia.
Qed.

Lemma largest_plus_one_fresh : forall ids, ~ In (largest_plus_one ids) ids.
Proof.
  intros [|i ids] H; [exact H|].
  unfold largest_plus_one in H. apply fold_max_ge in H. lia.
Qed.

Lemma first_unused_fresh : forall ids, ~ In (first_unused ids) ids.
Proof.
  intros ids. unfold first_unused.
  set (cands := map Z.of_nat (seq 1 (S (length ids)))).
  destruct (find (fun k => negb (existsb (Z.eqb k) ids)) cands) as [k|] eqn:E.
  - apply find_some in E. destruct E as [_ E]. intros Hin.
    apply negb_true_iff in E.
    assert (existsb (Z.eqb k) ids = true).
    { apply existsb_exists. exists k. split; [exact Hin | apply Z.eqb_refl]. }
    congruence.
  - exfalso.
    assert (Hincl : incl cands ids).
    { intros k Hk. pose proof (find_none _ _ E k Hk) as Hn. cbn beta in Hn.
      apply negb_false_iff in Hn. apply existsb_exists in Hn.
      destruct Hn as (j & Hj & Hkj). apply Z.eqb_eq in Hkj. now subst. }
    assert (Hnd : NoDup cands).
    { unfold cands. apply NoDup_map_injective; [|apply seq_NoDup].
      intros a b Hab. now apply Nat2Z.inj. }
    pose proof (NoDup_incl_length Hnd Hincl) as Hlen.
    unfold cands in Hlen. rewrite length_map, length_seq in Hlen. lia.
Qed.

Lemma next_id_fresh : forall t, ~ In (next_id t) (map r_id t).
Proof.
  intros t. unfold next_id.
  destruct (Z.ltb (largest_plus_one (map r_id t)) (max_rowid + 1)).
  - apply largest_plus_one_fresh.
  - apply first_unused_fresh.
Qed.

Lemma next_id_below_max : forall s,
  below_max_rowid s ->
  next_id (table_of s) = largest_plus_one (map r_id (table_of s)).
Proof.
  intros s H. unfold next_id, below_max_rowid in *.
  assert (Hlt : (largest_plus_one (map r_id (table_of s)) < max_rowid + 1)%Z).
  { destruct (table_of s) as [|r t]; [reflexivity|].
    cbn [map largest_plus_one]. inversion H as [|? ? Hr Ht]; subst.
    assert (Hmax : (fold_right Z.max (r_id r) (map r_id t) < max_rowid)%Z).
    { clear H. induction Ht as [|r0 t Hr0 Ht IH]; [exact Hr|].
      cbn [map fold_right]. lia. }
    lia. }
  apply Z.ltb_lt in Hlt. now rewrite Hlt.
Qed.

Lemma register_each_ids : forall l s t s',
  db s = Some t -> NoDup (map r_id t) ->
  register_each l s = Return (tt, s') ->
  NoDup (map r_id (table_of s')).
Proof.
  induction l as [|c l IH]; intros s t s' Hdb Hnd H.
  - cbn in H. injection H as <-. unfold table_of. now rewrite Hdb.
  - cbn [register_each] in H.
    rewrite (bind_Return _ _ _ (select_where_mac_table (c_mac c) s Hdb)) in H.
    destruct (fetchone (filter (has_mac (c_mac c)) t)) as [r|] eqn:Hf.
    + rewrite (bind_Return _ _ s (a:=tt) (s':=s)) in H by reflexivity.
      exact (IH s t s' Hdb Hnd H).
    + apply fetchone_filter_None in Hf.
      set (r := mk_row (c_name c) (c_mac c) (next_id t)) in *.
      assert (Hins : insert_client (c_name c) (c_mac c) s
                     = Return (tt, set_db s (t ++ [r]))).
      { unfold insert_client. rewrite Hdb. fold (has_mac (c_mac c)).
        now rewrite Hf. }
      rewrite (bind_Return _ _ _ Hins) in H.
      apply (IH (set_db s (t ++ [r])) (t ++ [r]) s' eq_refl); [|exact H].
      rewrite map_app. cbn [map]. apply NoDup_app; [exact Hnd | |].
      * repeat constructor. intros [].
      * intros a Ha [<-|[]]. exact (next_id_fresh t Ha).
Qed.

Lemma add_clients_to_db_ids : forall l s s',
  unique_ids s -> add_clients_to_db l s = Return (tt, s') -> unique_ids s'.
Proof.
  intros l s s' Hu H. unfold add_clients_to_db, unique_ids, table_of in *.
  destruct (db s) as [t|] eqn:Hdb.
  - rewrite (bind_Return _ _ s (a:=tt) (s':=s)) in H
      by (unfold create_table_if_not_exists; now rewrite Hdb).
    exact (register_each_ids l s Hdb Hu H).
  - rewrite (bind_Return _ _ s (a:=tt) (s':=set_db s [])) in H
      by (unfold create_table_if_not_exists; now rewrite Hdb).
    apply (@register_each_ids l (set_db s []) [] s' eq_refl); [|exact H].
    constructor.
Qed.

Lemma map_key_mac : forall t, map r_mac t = map fst (map key t).
Proof. intros t. rewrite map_map. reflexivity. Qed.

Lemma map_key_id : forall t, map r_id t = map snd (map key t).
Proof. intros t. rewrite map_map. reflexivity. Qed.

(** The first row for a hardware address depends on the keys only. *)
Lemma first_id_keys : forall m t1 t2,
  map key t1 = map key t2 ->
  option_map r_id (fetchone (filter (has_mac m) t1))
  = option_map r_id (fetchone (filter (has_mac m) t2)).
Proof.
  intros m. induction t1 as [|r1 t1 IH]; intros [|r2 t2] H;
    try discriminate; [reflexivity|].
  cbn [map] in H. injection H as Hm Hi H. cbn [filter].
  assert (E : has_mac m r1 = has_mac m r2)
    by (unfold has_mac; now rewrite Hm).
  rewrite E. destruct (has_mac m r2).
  - cbn. now rewrite Hi.
  - now apply IH.
Qed.

Lemma existsb_keys : forall m t1 t2,
  map key t1 = map key t2 ->
  existsb (has_mac m) t1 = existsb (has_mac m) t2.
Proof.
  intros m. induction t1 as [|r1 t1 IH]; intros [|r2 t2] H;
    try discriminate; [reflexivity|].
  cbn [map] in H. injection H as Hm Hi H. cbn [existsb].
  assert (E : has_mac m r1 = has_mac m r2)
    by (unfold has_mac; now rewrite Hm).
  rewrite E. f_equal. now apply IH.
Qed.

Lemma first_row_app : forall m t new,
  existsb (has_mac m) t = true ->
  fetchone (filter (has_mac m) (t ++ new)) = fetchone (filter (has_mac m) t).
Proof.
  intros m t new H. induction t as [|r t IH]; [discriminate|].
  cbn [app filter]. cbn [existsb] in H.
  destruct (has_mac m r); [reflexivity|]. now apply IH.
Qed.

Lemma update_keys : forall name mac t,
  map key (map (fun r => if has_mac mac r
                         then mk_row name (r_mac r) (r_id r) else r) t)
  = map key t.
Proof.
  intros name mac t. rewrite map_map. apply map_ext. intros r.
  now destruct (has_mac mac r).
Qed.

(** With a table, [save_client_name] returns and changes names only. *)
Lemma save_client_name_keys : forall c s t,
  db s = Some t ->
  exists t',
    save_client_name c s = Return (tt, set_db s t')
    /\ map key t' = map key t.
Proof.
  intros c s t Hdb. eexists. split.
  - unfold save_client_name. apply try_except_Return.
    apply (@update_name_stores (c_name c) (c_mac c) s t Hdb).
  - apply update_keys.
Qed.

Section PassFacts.

Variable api : nat -> string -> api_response.

Lemma get_mac_manufacturer_api_frame : forall c s,
  exists c' s',
    get_mac_manufacturer_api api c s = Return (c', s')
    /\ c' = set_name c (c_name c')
    /\ db s' = db s /\ notices s' = notices s
    /\ api_log s' = api_log s ++ [c_mac c].
Proof.
  intros [ip mac name id] s. unfold get_mac_manufacturer_api.
  destruct (api _ _) as [status text|].
  - destruct (Nat.eqb status 200); eexists; eexists; repeat split.
  - eexists; eexists; repeat split.
Qed.

(** The vendor loop returns whenever the table exists; it changes names
    only, in the dicts and in the table, and asks the vendor service once
    for each unnamed dict, in order. *)
Lemma enrich_loop_frame : forall l s t,
  db s = Some t ->
  exists l' s' t',
    for_each (enrich api) l s = Return (l', s')
    /\ db s' = Some t' /\ map key t' = map key t
    /\ notices s' = notices s
    /\ api_log s' = api_log s ++ map c_mac (filter unnamed l)
    /\ Forall2 (fun c c' => c' = set_name c (c_name c')
                            /\ (c_name c <> "unknown" -> c' = c)) l l'.
Proof.
  induction l as [|c l IH]; intros s t Hdb.
  - exists [], s, t. cbn. rewrite app_nil_r. repeat split; auto.
  - cbn [for_each filter]. unfold enrich at 1. unfold unnamed at 1.
    destruct (String.eqb (c_name c) "unknown") eqn:En.
    + destruct (get_mac_manufacturer_api_frame c s)
        as (c1 & s1 & Hapi & Hc1 & Hdb1 & Hnot1 & Hlog1).
      rewrite Hdb in Hdb1.
      destruct (save_client_name_keys c1 s1 Hdb1) as (t2 & Hsave & Hk2).
      destruct (IH (set_db s1 t2) t2 eq_refl)
        as (l' & s' & t' & Hrun & Hdb' & Hk' & Hnot' & Hlog' & Hall).
      exists (c1 :: l'), s', t'.
      split; [|split; [|split; [|split; [|split]]]]; trivial.
      * rewrite (bind_Return _ _ s (a:=c1) (s':=set_db s1 t2)).
        -- rewrite (bind_Return _ _ _ Hrun). reflexivity.
        -- rewrite (bind_Return _ _ _ Hapi).
           rewrite (bind_Return _ _ _ Hsave). reflexivity.
      * congruence.
      * rewrite Hnot'. cbn. exact Hnot1.
      * rewrite Hlog'. cbn [set_db api_log map]. rewrite Hlog1.
        now rewrite <- app_assoc.
      * constructor; [|exact Hall]. split; [exact Hc1|].
        intros Hn. apply String.eqb_eq in En. contradiction.
    + destruct (IH s t Hdb)
        as (l' & s' & t' & Hrun & Hdb' & Hk' & Hnot' & Hlog' & Hall).
      exists (c :: l'), s', t'.
      split; [|split; [|split; [|split; [|split]]]]; trivial.
      * rewrite (bind_Return _ _ s (a:=c) (s':=s)) by reflexivity.
        rewrite (bind_Return _ _ _ Hrun). reflexivity.
      * constructor; [|exact Hall]. split; [|reflexivity].
        now destruct c.
Qed.

(** A pass, step by step: registration appends [new]; hydration and id
    assignment read the table [t1] it leaves; the vendor loop runs on
    their result and changes names only. *)
Lemma pass_steps : forall arp_stdout client_list s,
  let l1 := snd (get_macs arp_stdout client_list) in
  exists new s1 t1 l' s' t',
    add_clients_to_db l1 s = Return (tt, s1)
    /\ db s1 = Some t1 /\ t1 = table_of s ++ new
    /\ api_log s1 = api_log s /\ notices s1 = notices s
    /\ (forall c, In c l1 -> existsb (has_mac (c_mac c)) t1 = true)
    /\ (forall r, In r new -> registered (r_mac r) s = false)
    /\ get_client_names l1 s1
       = Return (map (assign_in t1) (map (hydrate_in t1) l1), s1)
    /\ for_each (enrich api) (map (assign_in t1) (map (hydrate_in t1) l1)) s1
       = Return (l', s')
    /\ get_connections_info api arp_stdout client_list s = Return (l', s')
    /\ db s' = Some t' /\ map key t' = map key t1
    /\ notices s' = notices s
    /\ api_log s'
       = api_log s
         ++ map c_mac (filter unnamed
                         (map (assign_in t1) (map (hydrate_in t1) l1)))
    /\ Forall2 (fun c c' => c' = set_name c (c_name c')
                            /\ (c_name c <> "unknown" -> c' = c))
               (map (assign_in t1) (map (hydrate_in t1) l1)) l'.
Proof.
  intros arp_stdout client_list s l1.
  destruct (add_clients_to_db_appends l1 s)
    as (new & s1 & Hadd & Hdb1 & Hlog1 & Hnot1 & _ & Hregs & Hnew).
  set (t1 := table_of s ++ new) in *.
  assert (Hregs' : forall c, In c l1 -> existsb (has_mac (c_mac c)) t1 = true).
  { intros c Hc. specialize (Hregs c Hc).
    unfold registered, table_of in Hregs. now rewrite Hdb1 in Hregs. }
  pose proof (@get_client_names_registered t1 s1 l1 Hdb1 Hregs') as Hnames.
  destruct (enrich_loop_frame
              (map (assign_in t1) (map (hydrate_in t1) l1)) s1 Hdb1)
    as (l' & s' & t' & Hrun & Hdb' & Hk' & Hnot' & Hlog' & Hall).
  exists new, s1, t1, l', s', t'.
  repeat (split; [solve [trivial | congruence]|]).
  split.
  - unfold get_connections_info. fold l1.
    rewrite (bind_Return _ _ _ Hadd). rewrite (bind_Return _ _ _ Hnames).
    exact Hrun.
  - repeat (split; [solve [trivial | congruence]|]). exact Hall.
Qed.

End PassFacts.

Lemma id_of_keys : forall m s s' t t',
  db s = Some t -> db s' = Some t' -> map key t' = map key t ->
  id_of m s' = id_of m s.
Proof.
  intros m s s' t t' H H' Hk. unfold id_of, rows_of, table_of.
  rewrite H, H'. now apply first_id_keys.
Qed.

Lemma id_of_registered : forall m s i,
  id_of m s = Some i -> registered m s = true.
Proof.
  intros m s i H. unfold id_of, rows_of in H. unfold registered.
  destruct (fetchone (filter (has_mac m) (table_of s))) as [r|] eqn:E;
    [|discriminate].
  now apply fetchone_filter_Some in E.
Qed.

Lemma Forall2_map_same : forall (A B : Type) (f : A -> B)
    (R : A -> B -> Prop) l,
  (forall a, In a l -> R a (f a)) -> Forall2 R l (map f l).
Proof.
  intros A B f R. induction l as [|a l IH]; intros H; cbn; constructor.
  - apply H. now left.
  - apply IH. intros b Hb. apply H. now right.
Qed.

Lemma Forall2_trans_in : forall (A B C : Type) (R : A -> B -> Prop)
    (Q : B -> C -> Prop) (T : A -> C -> Prop) l1 l2 l3,
  (forall a b c, In a l1 -> R a b -> Q b c -> T a c) ->
  Forall2 R l1 l2 -> Forall2 Q l2 l3 -> Forall2 T l1 l3.
Proof.
  intros A B C R Q T l1 l2 l3 H H12. revert l3 H.
  induction H12 as [|a b l1 l2 Hab H12 IH]; intros l3 H H23.
  - inversion H23. constructor.
  - inversion H23 as [|? c ? l3' Hbc H23']; subst. constructor.
    + apply (H a b c); auto. now left.
    + apply IH; [|exact H23']. intros a0 b0 c0 Hin. apply H. now right.
Qed.

Lemma Forall2_map_ip : forall (R : device -> device -> Prop) l l',
  (forall c c', R c c' -> c_ip c' = c_ip c) ->
  Forall2 R l l' -> map c_ip l' = map c_ip l.
Proof.
  intros R l l' HR H. induction H as [|c c' l l' Hc H IH]; [reflexivity|].
  cbn. now rewrite (HR _ _ Hc), IH.
Qed.

Lemma hydrate_in_frame : forall t c,
  c_ip (hydrate_in t c) = c_ip c /\ c_id (hydrate_in t c) = c_id c.
Proof.
  intros t c. unfold hydrate_in.
  destruct (String.eqb (c_name c) "unknown"); [|now split].
  now destruct (fetchone _).
Qed.

Lemma assign_in_ip : forall t c, c_ip (assign_in t c) = c_ip c.
Proof.
  intros t c. unfold assign_in. destruct (Z.eqb (c_id c) (-1)); [|reflexivity].
  now destruct (fetchone _).
Qed.

(** What the whole pass does to the dict at each position of the list
    [get_macs] leaves. *)
Lemma pass_pointwise : forall api arp_stdout client_list s,
  exists l' s' t1 t',
    get_connections_info api arp_stdout client_list s = Return (l', s')
    /\ db s' = Some t' /\ map key t' = map key t1
    /\ (exists new, t1 = table_of s ++ new
                    /\ forall r, In r new -> registered (r_mac r) s = false)
    /\ notices s' = notices s
    /\ Forall2 (fun c c' =>
                  existsb (has_mac (c_mac c)) t1 = true
                  /\ c' = set_name (assign_in t1 (hydrate_in t1 c)) (c_name c'))
               (snd (get_macs arp_stdout client_list)) l'.
Proof.
  intros api arp_stdout client_list s.
  destruct (pass_steps api arp_stdout client_list s)
    as (new & s1 & t1 & l' & s' & t' & _ & _ & Ht1 & _ & _ & Hreg & Hnew
        & _ & _ & Hpass & Hdb' & Hk & Hnot & _ & Hall).
  exists l', s', t1, t'. repeat (split; [solve [trivial]|]).
  split; [now exists new|]. split; [exact Hnot|].
  rewrite map_map in Hall.
  eapply Forall2_trans_in;
    [|apply (@Forall2_map_same device device
               (fun c => assign_in t1 (hydrate_in t1 c))
               (fun c c2 => existsb (has_mac (c_mac c)) t1 = true
                            /\ c2 = assign_in t1 (hydrate_in t1 c)));
      intros a Ha; split; [now apply Hreg | reflexivity]
     |exact Hall].
  intros a b c _ [Hr ->] [Hc _]. now split.
Qed.

(** X6.  A pass of [get_connections_info] returns for every list, arp
    output, vendor service and state of the registry.  It keeps the
    length, the order and the addresses of the list, gives no notice,
    leaves every device of the list registered, and keeps the hardware
    address and the id of every row, appending rows only. *)
Theorem pass_always_returns : forall api arp_stdout client_list s,
  exists client_list' s' added,
    get_connections_info api arp_stdout client_list s
    = Return (client_list', s')
    /\ map c_ip client_list' = map c_ip client_list
    /\ notices s' = notices s
    /\ Forall (fun d => registered (c_mac d) s' = true) client_list'
    /\ map key (table_of s') = map key (table_of s) ++ added.
Proof.
  intros api arp_stdout client_list s.
  destruct (pass_pointwise api arp_stdout client_list s)
    as (l' & s' & t1 & t' & Hpass & Hdb' & Hk & (new & Ht1 & _) & Hnot & Hall).
  exists l', s', (map key new).
  split; [exact Hpass|]. split; [|split; [exact Hnot|split]].
  - assert (Hip : map c_ip l'
                  = map c_ip (snd (get_macs arp_stdout client_list))).
    { apply (@Forall2_map_ip
               (fun c c' => existsb (has_mac (c_mac c)) t1 = true
                  /\ c' = set_name (assign_in t1 (hydrate_in t1 c))
                                   (c_name c'))
               (snd (get_macs arp_stdout client_list)) l'); [|exact Hall].
      intros c c' [_ ->]. cbn. rewrite assign_in_ip.
      now destruct (hydrate_in_frame t1 c). }
    rewrite Hip. unfold get_macs. cbn [snd]. rewrite map_map. apply map_ext.
    intros c. now destruct (arp_scan_frame (Py.splitlines arp_stdout) c).
  - clear Hpass. induction Hall as [|c c' l1 l2 [Hr Hc] _ IH]; constructor;
      [|exact IH].
    unfold registered, table_of. rewrite Hdb', (existsb_keys _ _ _ Hk).
    rewrite Hc. cbn [c_mac set_name].
    destruct (assign_in_mac_name t1 (hydrate_in t1 c)) as [-> _].
    now rewrite hydrate_in_mac.
  - unfold table_of at 1. rewrite Hdb', Hk, Ht1. apply map_app.
Qed.

(** X7.  A pass never changes the id registered for a hardware address,
    and a device that comes with the id -1 leaves with the id registered
    for its hardware address; any other id is kept. *)
Theorem pass_ids_stable_and_assigned : forall api arp_stdout client_list s,
  exists client_list' s',
    get_connections_info api arp_stdout client_list s
    = Return (client_list', s')
    /\ (forall m i, id_of m s = Some i -> id_of m s' = Some i)
    /\ Forall2 (enriched_in s') client_list client_list'.
Proof.
  intros api arp_stdout client_list s.
  destruct (pass_pointwise api arp_stdout client_list s)
    as (l' & s' & t1 & t' & Hpass & Hdb' & Hk & (new & Ht1 & _) & _ & Hall).
  exists l', s'. split; [exact Hpass|].
  assert (Hid : forall m, id_of m s'
                          = option_map r_id (fetchone (filter (has_mac m) t1))).
  { intros m. unfold id_of, rows_of, table_of. rewrite Hdb'.
    now apply first_id_keys. }
  split.
  - intros m i Hi. rewrite Hid, Ht1.
    rewrite first_row_app; [exact Hi|].
    apply id_of_registered in Hi. exact Hi.
  - unfold get_macs in Hall. cbn [snd] in Hall.
    apply (@Forall2_map_l device device device
             (fun c c' => existsb (has_mac (c_mac c)) t1 = true
                /\ c' = set_name (assign_in t1 (hydrate_in t1 c)) (c_name c'))
             (enriched_in s')
             (fun client => arp_scan client (Py.splitlines arp_stdout))
             client_list l'); [|exact Hall].
    intros a b [Hr ->]. unfold enriched_in. cbn [c_ip c_id c_mac set_name].
    set (c := arp_scan a (Py.splitlines arp_stdout)) in *.
    destruct (arp_scan_frame (Py.splitlines arp_stdout) a)
      as (Hip & _ & Hcid & _). fold c in Hip, Hcid.
    rewrite assign_in_ip. destruct (hydrate_in_frame t1 c) as [-> Hh].
    split; [exact Hip|].
    destruct (assign_in_mac_name t1 (hydrate_in t1 c)) as [-> _].
    rewrite hydrate_in_mac, Hid. rewrite <- Hcid.
    unfold assign_in. rewrite Hh, hydrate_in_mac.
    destruct (Z.eqb (c_id c) (-1)); [|exact Hh].
    destruct (existsb_fetchone _ _ Hr) as [r ->]. reflexivity.
Qed.

(** X8.  When the hardware addresses and the ids of the table are
    unique, they still are after a pass. *)
Theorem pass_keeps_keys_unique : forall api arp_stdout client_list s,
  unique_macs s -> unique_ids s ->
  exists client_list' s',
    get_connections_info api arp_stdout client_list s
    = Return (client_list', s')
    /\ unique_macs s' /\ unique_ids s'.
Proof.
  intros api arp_stdout client_list s Hm Hi.
  destruct (pass_steps api arp_stdout client_list s)
    as (new & s1 & t1 & l' & s' & t' & Hadd & Hdb1 & _ & _ & _ & _ & _
        & _ & _ & Hpass & Hdb' & Hk & _).
  exists l', s'. split; [exact Hpass|].
  destruct (add_clients_to_db_appends
              (snd (get_macs arp_stdout client_list)) s)
    as (new0 & s0 & Hadd0 & _ & _ & _ & Hm0 & _).
  assert (E : s0 = s1) by congruence. subst s0.
  specialize (Hm0 Hm). pose proof (add_clients_to_db_ids _ Hi Hadd) as Hi1.
  unfold unique_macs, unique_ids, table_of in *.
  rewrite Hdb1 in Hm0, Hi1. rewrite Hdb'.
  rewrite map_key_mac, map_key_id, Hk, <- map_key_mac, <- map_key_id.
  now split.
Qed.

Lemma pass_keeps_keys_unique_witness :
  unique_macs home_registry /\ unique_ids home_registry
  /\ exists client_list' s',
       get_connections_info vendor_acme arp_without_tv
                            [new_client "192.168.1.4"] home_registry
       = Return (client_list', s')
       /\ unique_macs s' /\ unique_ids s'.
Proof.
  assert (Hm : unique_macs home_registry).
  { unfold unique_macs. cbn. repeat constructor; cbn; intuition discriminate. }
  assert (Hi : unique_ids home_registry).
  { unfold unique_ids. cbn. repeat constructor; cbn; intuition discriminate. }
  split; [exact Hm|]. split; [exact Hi|].
  exact (@pass_keeps_keys_unique vendor_acme arp_without_tv
           [new_client "192.168.1.4"] home_registry Hm Hi).
Defined.

(** X9.  A pass is registration and hydration followed by the vendor
    loop: the vendor service is asked once, in list order, for each
    device that hydration left unnamed and for no other, and a device
    that hydration left with a name leaves the pass as hydration left
    it; the loop changes nothing but names. *)
Theorem pass_asks_vendor_for_unnamed_only :
  forall api arp_stdout client_list s,
  exists hydrated s1 client_list' s',
    register_and_hydrate (snd (get_macs arp_stdout client_list)) s
    = Return (hydrated, s1)
    /\ get_connections_info api arp_stdout client_list s
       = Return (client_list', s')
    /\ api_log s' = api_log s ++ map c_mac (filter unnamed hydrated)
    /\ Forall2 (fun c c' => c' = set_name c (c_name c')
                            /\ (c_name c <> "unknown" -> c' = c))
               hydrated client_list'.
Proof.
  intros api arp_stdout client_list s.
  destruct (pass_steps api arp_stdout client_list s)
    as (new & s1 & t1 & l' & s' & t' & Hadd & _ & _ & _ & _ & _ & _
        & Hnames & _ & Hpass & _ & _ & _ & Hlog & Hall).
  eexists. exists s1, l', s'. split; [|split; [exact Hpass|split]].
  - unfold register_and_hydrate. rewrite (bind_Return _ _ _ Hadd).
    exact Hnames.
  - exact Hlog.
  - exact Hall.
Qed.

Lemma update_same_name : forall m n t r,
  NoDup (map r_mac t) ->
  fetchone (filter (has_mac m) t) = Some r -> r_name r = n ->
  map (fun r0 => if has_mac m r0 then mk_row n (r_mac r0) (r_id r0) else r0) t
  = t.
Proof.
  intros m n t r Hnd Hf Hn. rewrite <- (map_id t) at 2.
  apply map_ext_in. intros r0 Hin.
  destruct (has_mac m r0) eqn:E; [|reflexivity].
  apply fetchone_filter_Some in Hf. destruct Hf as (Hr & Hrm & _).
  apply has_mac_true in E, Hrm.
  pose proof (@unique_row m t r Hnd Hr Hrm) as U1.
  pose proof (@unique_row m t r0 Hnd Hin E) as U2.
  assert (r0 = r) by congruence. subst r0. subst n. now destruct r.
Qed.

Section VendorFailure.

Variable api : nat -> string -> api_response.
Hypothesis api_fails : vendor_fails api.

Lemma failed_lookup : forall c s,
  get_mac_manufacturer_api api c s
  = Return (c, mk_store (db s) (api_log s ++ [c_mac c]) (notices s)).
Proof.
  intros c s. unfold get_mac_manufacturer_api.
  pose proof (api_fails (length (api_log s))
                        ("http://api.macvendors.com/" ++ c_mac c)%string)
    as H.
  destruct (api _ _) as [status text|]; [|reflexivity]. now rewrite H.
Qed.

(** With a vendor service that fails, the vendor loop changes neither the
    dicts nor the table when every unnamed dict has the stored name
    "unknown". *)
Lemma enrich_loop_fails : forall l s t,
  db s = Some t -> NoDup (map r_mac t) ->
  (forall c, In c l -> unnamed c = true ->
     exists r, fetchone (filter (has_mac (c_mac c)) t) = Some r
               /\ r_name r = "unknown") ->
  exists s', for_each (enrich api) l s = Return (l, s')
             /\ db s' = Some t /\ notices s' = notices s.
Proof.
  induction l as [|c l IH]; intros s t Hdb Hnd Hl.
  - exists s. auto.
  - cbn [for_each]. unfold enrich at 1.
    destruct (String.eqb (c_name c) "unknown") eqn:En.
    + destruct (Hl c (or_introl eq_refl) En) as (r & Hr & Hrn).
      set (s1 := mk_store (db s) (api_log s ++ [c_mac c]) (notices s)).
      assert (Hdb1 : db s1 = Some t) by exact Hdb.
      assert (Hsave : save_client_name c s1 = Return (tt, s1)).
      { unfold save_client_name. apply try_except_Return.
        rewrite (@update_name_stores (c_name c) (c_mac c) s1 t Hdb1).
        apply String.eqb_eq in En. rewrite En.
        rewrite (@update_same_name (c_mac c) "unknown" t r Hnd Hr Hrn).
        now rewrite (@set_db_same s1 t Hdb1). }
      destruct (IH s1 t Hdb1 Hnd (fun c0 H0 => Hl c0 (or_intror H0)))
        as (s' & Hrun & Hdb' & Hnot').
      exists s'. split; [|split; trivial].
      rewrite (bind_Return _ _ s (a:=c) (s':=s1)).
      * rewrite (bind_Return _ _ _ Hrun). reflexivity.
      * rewrite (bind_Return _ _ _ (failed_lookup c s)).
        fold s1. rewrite (bind_Return _ _ _ Hsave). reflexivity.
    + destruct (IH s t Hdb Hnd (fun c0 H0 => Hl c0 (or_intror H0)))
        as (s' & Hrun & Hdb' & Hnot').
      exists s'. split; [|split; trivial].
      rewrite (bind_Return _ _ s (a:=c) (s':=s)) by reflexivity.
      rewrite (bind_Return _ _ _ Hrun). reflexivity.
Qed.

End VendorFailure.

(** X10.  When no request to the vendor service succeeds and hardware
    addresses are unique in the table, a pass gives the list and the
    table that registration and hydration alone give: no name changes,
    in memory or stored, and nothing is raised. *)
Theorem pass_with_failing_vendor : forall api arp_stdout client_list s,
  vendor_fails api -> unique_macs s ->
  exists client_list' s1 s',
    register_and_hydrate (snd (get_macs arp_stdout client_list)) s
    = Return (client_list', s1)
    /\ get_connections_info api arp_stdout client_list s
       = Return (client_list', s')
    /\ db s' = db s1 /\ notices s' = notices s1.
Proof.
  intros api arp_stdout client_list s Hfail Hm.
  set (l1 := snd (get_macs arp_stdout client_list)).
  destruct (add_clients_to_db_appends l1 s)
    as (new & s1 & Hadd & Hdb1 & _ & _ & Hm1 & Hregs & _).
  specialize (Hm1 Hm). set (t1 := table_of s ++ new) in *.
  assert (Hregs' : forall c, In c l1 -> existsb (has_mac (c_mac c)) t1 = true).
  { intros c Hc. specialize (Hregs c Hc).
    unfold registered, table_of in Hregs. now rewrite Hdb1 in Hregs. }
  pose proof (@get_client_names_registered t1 s1 l1 Hdb1 Hregs') as Hnames.
  assert (Hnd : NoDup (map r_mac t1)).
  { unfold unique_macs, table_of in Hm1. now rewrite Hdb1 in Hm1. }
  destruct (@enrich_loop_fails api Hfail
              (map (assign_in t1) (map (hydrate_in t1) l1)) s1 t1 Hdb1 Hnd)
    as (s' & Hrun & Hdb' & Hnot').
  { intros c Hc Hu. rewrite map_map in Hc. apply in_map_iff in Hc.
    destruct Hc as (c0 & <- & Hc0). unfold unnamed in Hu.
    destruct (assign_in_mac_name t1 (hydrate_in t1 c0)) as [Em En].
    rewrite En in Hu. rewrite Em, hydrate_in_mac.
    destruct (existsb_fetchone _ _ (Hregs' c0 Hc0)) as [r Hr].
    exists r. split; [exact Hr|].
    unfold hydrate_in in Hu. rewrite Hr in Hu.
    destruct (String.eqb (c_name c0) "unknown") eqn:E0.
    - cbn in Hu. now apply String.eqb_eq in Hu.
    - congruence. }
  eexists. exists s1, s'. split; [|split; [|split]].
  - unfold register_and_hydrate. rewrite (bind_Return _ _ _ Hadd).
    exact Hnames.
  - unfold get_connections_info. fold l1.
    rewrite (bind_Return _ _ _ Hadd). rewrite (bind_Return _ _ _ Hnames).
    exact Hrun.
  - now rewrite Hdb', Hdb1.
  - exact Hnot'.
Qed.

Lemma pass_with_failing_vendor_witness :
  vendor_fails no_vendor /\ unique_macs home_registry
  /\ exists client_list' s1 s',
       register_and_hydrate
         (snd (get_macs arp_without_tv [unnamed_device])) home_registry
       = Return (client_list', s1)
       /\ get_connections_info no_vendor arp_without_tv [unnamed_device]
                               home_registry
          = Return (client_list', s')
       /\ db s' = db s1.
Proof.
  assert (Hf : vendor_fails no_vendor) by (intros k url; exact I).
  assert (Hm : unique_macs home_registry).
  { unfold unique_macs. cbn. repeat constructor; cbn; intuition discriminate. }
  split; [exact Hf|]. split; [exact Hm|].
  destruct (@pass_with_failing_vendor no_vendor arp_without_tv
              [unnamed_device] home_registry Hf Hm)
    as (l' & s1 & s' & H1 & H2 & H3 & _).
  exists l', s1, s'. auto.
Defined.

(** A pass on a state where a name other than "unknown" is stored for
    [m] asks the vendor service nothing about [m] and leaves the name
    stored. *)
Lemma pass_skips_stored : forall api arp_stdout client_list m n s,
  stored_name m n s -> n <> "unknown" ->
  exists l' s' calls,
    get_connections_info api arp_stdout client_list s = Return (l', s')
    /\ api_log s' = api_log s ++ calls
    /\ ~ In m calls
    /\ stored_name m n s'.
Proof.
  intros api arp_stdout client_list m n s Hst Hname.
  unfold get_connections_info.
  set (l1 := snd (get_macs arp_stdout client_list)).
  destruct (add_clients_to_db_appends l1 s)
    as (new & s1 & Hadd & Hdb1 & Hlog1 & _ & _ & Hregs & Hnew).
  rewrite (bind_Return _ _ _ Hadd).
  destruct Hst as (t & Hdb & Hex & Hall).
  assert (Ht : table_of s = t) by (unfold table_of; now rewrite Hdb).
  rewrite Ht in Hdb1.
  assert (Hex1 : existsb (has_mac m) (t ++ new) = true)
    by (rewrite existsb_app, Hex; reflexivity).
  assert (Hall1 : forall r, In r (t ++ new) -> r_mac r = m -> r_name r = n).
  { intros r Hin Hm. apply in_app_or in Hin. destruct Hin as [Hin|Hin].
    - now apply Hall.
    - specialize (Hnew r Hin). unfold registered in Hnew.
      rewrite Ht, Hm, Hex in Hnew. discriminate. }
  assert (Hregs1 : forall d, In d l1 ->
                             existsb (has_mac (c_mac d)) (t ++ new) = true).
  { intros d Hd. specialize (Hregs d Hd). unfold registered, table_of in Hregs.
    now rewrite Hdb1 in Hregs. }
  rewrite (bind_Return _ _ _
             (@get_client_names_registered (t ++ new) s1 l1 Hdb1 Hregs1)).
  rewrite map_map.
  destruct (@enrich_loop_skips api m n
              (map (fun d => assign_in (t ++ new) (hydrate_in (t ++ new) d))
                   l1) s1)
    as (l' & s' & calls & Hrun & Hlog & Hnot & Hst' & _).
  { exists (t ++ new). auto. }
  { intros d Hd Hm. apply in_map_iff in Hd. destruct Hd as (d0 & <- & _).
    destruct (assign_in_mac_name (t ++ new) (hydrate_in (t ++ new) d0))
      as [Em En].
    rewrite Em, hydrate_in_mac in Hm. rewrite En.
    destruct (String.eqb (c_name d0) "unknown") eqn:E.
    - apply String.eqb_eq in E.
      now rewrite (@hydrate_in_stored m n (t ++ new) d0 Hex1 Hall1 Hm E).
    - apply String.eqb_neq in E. now rewrite hydrate_in_named. }
  exists l', s', calls. split; [exact Hrun|]. split; [congruence|]. auto.
Qed.

(** X11.  When the vendor service answers 200 for an unnamed, registered
    device, the step of the vendor loop gives the device the answer as
    its name and stores it for its hardware address; if the answer is
    not "unknown", no later pass asks the vendor service about that
    hardware address. *)
Theorem vendor_name_is_stored : forall api c s text,
  registered (c_mac c) s = true ->
  c_name c = "unknown" ->
  api (length (api_log s)) (vendor_url c) = Response 200 text ->
  exists s',
    enrich api c s = Return (set_name c text, s')
    /\ stored_name (c_mac c) text s'
    /\ api_log s' = api_log s ++ [c_mac c]
    /\ (text <> "unknown" ->
        forall api' arp_stdout client_list,
        exists client_list' s'' calls,
          get_connections_info api' arp_stdout client_list s'
          = Return (client_list', s'')
          /\ api_log s'' = api_log s' ++ calls
          /\ ~ In (c_mac c) calls).
Proof.
  intros api c s text Hreg Hname Hapi.
  set (s1 := mk_store (db s) (api_log s ++ [c_mac c]) (notices s)).
  assert (Hlook : get_mac_manufacturer_api api c s
                  = Return (set_name c text, s1)).
  { unfold get_mac_manufacturer_api. unfold vendor_url in Hapi.
    now rewrite Hapi. }
  assert (Hreg1 : registered (c_mac (set_name c text)) s1 = true)
    by exact Hreg.
  unfold registered, table_of in Hreg.
  destruct (db s) as [t|] eqn:Hdb; [|discriminate].
  assert (Hdb1 : db s1 = Some t) by reflexivity.
  destruct (@save_client_name_keys (set_name c text) s1 t Hdb1)
    as (t2 & Hsave & _).
  destruct (@save_client_name_stores (set_name c text) s1 (set_db s1 t2)
              Hreg1 Hsave) as [Hst Hlog].
  cbn [c_mac c_name set_name] in Hst.
  exists (set_db s1 t2). split; [|split; [exact Hst|split]].
  - unfold enrich. rewrite Hname. cbn [String.eqb Ascii.eqb Bool.eqb].
    rewrite (bind_Return _ _ _ Hlook). rewrite (bind_Return _ _ _ Hsave).
    reflexivity.
  - reflexivity.
  - intros Htext api' arp_stdout client_list.
    destruct (@pass_skips_stored api' arp_stdout client_list (c_mac c) text
                (set_db s1 t2) Hst Htext)
      as (l' & s'' & calls & H1 & H2 & H3 & _).
    exists l', s'', calls. auto.
Qed.

Lemma vendor_name_is_stored_witness :
  registered (c_mac (new_client "192.168.1.4"))
             (mk_store (Some [mk_row "unknown" "unknown" 1]) [] []) = true
  /\ exists s',
       enrich vendor_acme (new_client "192.168.1.4")
              (mk_store (Some [mk_row "unknown" "unknown" 1]) [] [])
       = Return (set_name (new_client "192.168.1.4") "Acme Corp", s')
       /\ stored_name "unknown" "Acme Corp" s'.
Proof.
  split; [reflexivity|].
  destruct (@vendor_name_is_stored vendor_acme (new_client "192.168.1.4")
              (mk_store (Some [mk_row "unknown" "unknown" 1]) [] [])
              "Acme Corp" eq_refl eq_refl eq_refl)
    as (s' & H1 & H2 & _).
  exists s'. auto.
Defined.

(** X12.  [save_client_name] for a hardware address without a row
    returns and leaves the state as it was: the name is not stored. *)
Theorem save_client_name_unregistered : forall c s,
  db s <> None -> registered (c_mac c) s = false ->
  save_client_name c s = Return (tt, s).
Proof.
  intros c s Hdb Hreg. unfold registered, table_of in Hreg.
  destruct (db s) as [t|] eqn:E; [|contradiction].
  unfold save_client_name. apply try_except_Return.
  rewrite (@update_name_stores (c_name c) (c_mac c) s t E).
  assert (Hmap : map (fun r => if has_mac (c_mac c) r
                               then mk_row (c_name c) (r_mac r) (r_id r)
                               else r) t = t).
  { rewrite <- (map_id t) at 2. apply map_ext_in. intros r Hin.
    destruct (has_mac (c_mac c) r) eqn:Hr; [|reflexivity].
    assert (existsb (has_mac (c_mac c)) t = true)
      by (apply existsb_exists; now exists r).
    congruence. }
  rewrite Hmap. now rewrite (@set_db_same s t E).
Qed.

Lemma save_client_name_unregistered_witness :
  db home_registry <> None
  /\ registered (c_mac unnamed_device) home_registry = false
  /\ save_client_name unnamed_device home_registry
     = Return (tt, home_registry).
Proof.
  assert (H1 : db home_registry <> None) by discriminate.
  split; [exact H1|]. split; [reflexivity|].
  apply (@save_client_name_unregistered unnamed_device home_registry H1).
  reflexivity.
Defined.

(** X13.  Before the table exists, [save_client_name] raises
    [OperationalError], and so does [get_client_names] on every list but
    the empty one, for which it returns the empty list;
    [add_clients_to_db] creates the table and returns. *)
Theorem registry_before_the_table_exists : forall c l s,
  db s = None ->
  save_client_name c s = Raise no_such_table
  /\ get_client_names (c :: l) s = Raise no_such_table
  /\ get_client_names [] s = Return ([], s)
  /\ exists s' t, add_clients_to_db l s = Return (tt, s') /\ db s' = Some t.
Proof.
  intros c l s Hdb. split; [|split; [|split]].
  - unfold save_client_name, try_except_IntegrityError, update_name.
    now rewrite Hdb.
  - unfold get_client_names. apply bind_Raise. cbn [for_each].
    apply bind_Raise.
    unfold hydrate_name, try_except_IntegrityError, bind, select_where_mac.
    now rewrite Hdb.
  - reflexivity.
  - destruct (add_clients_to_db_appends l s)
      as (new & s' & Hadd & Hdb' & _).
    exists s'. eexists. split; [exact Hadd | exact Hdb'].
Qed.

Lemma registry_before_the_table_exists_witness :
  db (mk_store None [] []) = None
  /\ save_client_name unnamed_device (mk_store None [] [])
     = Raise no_such_table.
Proof.
  split; [reflexivity|].
  apply (@registry_before_the_table_exists unnamed_device []
           (mk_store None [] []) eq_refl).
Defined.

(** * Further properties of get_client_names *)

Lemma hydrate_name_inv : forall c s c' s',
  hydrate_name c s = Return (c', s') ->
  s' = s /\ c' = hydrate_in (table_of s) c
  /\ db s <> None
  /\ (unnamed c = true -> registered (c_mac c) s = true).
Proof.
  intros c s c' s' H.
  unfold hydrate_name, try_except_IntegrityError, bind, select_where_mac in H.
  unfold hydrate_in, unnamed, registered, table_of.
  destruct (db s) as [t|]; [|discriminate].
  fold (has_mac (c_mac c)) in *.
  destruct (String.eqb (c_name c) "unknown").
  - destruct (fetchone (filter (has_mac (c_mac c)) t)) as [r|] eqn:E;
      [|discriminate].
    unfold ret in H. injection H as <- <-.
    apply fetchone_filter_Some in E.
    repeat split; try discriminate; tauto.
  - unfold ret in H. injection H as <- <-.
    repeat split; discriminate.
Qed.

Lemma assign_id_inv : forall c s c' s',
  assign_id c s = Return (c', s') ->
  s' = s /\ c' = assign_in (table_of s) c
  /\ db s <> None
  /\ (c_id c = (-1)%Z -> registered (c_mac c) s = true).
Proof.
  intros c s c' s' H.
  unfold assign_id, try_except_IntegrityError, bind, select_where_mac in H.
  unfold assign_in, registered, table_of.
  destruct (db s) as [t|]; [|discriminate].
  fold (has_mac (c_mac c)) in *.
  destruct (Z.eqb (c_id c) (-1)) eqn:Ei.
  - destruct (fetchone (filter (has_mac (c_mac c)) t)) as [r|] eqn:E;
      [|discriminate].
    unfold ret in H. injection H as <- <-.
    apply fetchone_filter_Some in E.
    repeat split; try discriminate; tauto.
  - unfold ret in H. injection H as <- <-.
    apply Z.eqb_neq in Ei. repeat split; try discriminate. contradiction.
Qed.

Lemma hydrate_name_ok : forall c s,
  db s <> None ->
  (unnamed c = true -> registered (c_mac c) s = true) ->
  hydrate_name c s = Return (hydrate_in (table_of s) c, s).
Proof.
  intros c s Hdb Hreg.
  unfold hydrate_name, try_except_IntegrityError, bind, select_where_mac.
  unfold hydrate_in, unnamed, registered, table_of in *.
  destruct (db s) as [t|]; [|contradiction].
  fold (has_mac (c_mac c)) in *.
  destruct (String.eqb (c_name c) "unknown"); [|reflexivity].
  destruct (existsb_fetchone _ _ (Hreg eq_refl)) as [r ->]. reflexivity.
Qed.

Lemma assign_id_ok : forall c s,
  db s <> None ->
  (c_id c = (-1)%Z -> registered (c_mac c) s = true) ->
  assign_id c s = Return (assign_in (table_of s) c, s).
Proof.
  intros c s Hdb Hreg.
  unfold assign_id, try_except_IntegrityError, bind, select_where_mac.
  unfold assign_in, registered, table_of in *.
  destruct (db s) as [t|]; [|contradiction].
  fold (has_mac (c_mac c)) in *.
  destruct (Z.eqb (c_id c) (-1)) eqn:Ei; [|reflexivity].
  apply Z.eqb_eq in Ei.
  destruct (existsb_fetchone _ _ (Hreg Ei)) as [r ->]. reflexivity.
Qed.

(** A loop whose body, when it returns, leaves the state alone. *)
Lemma for_each_inv : forall (body : device -> M device)
    (f : device -> device) (P : device -> Prop) s,
  (forall c c' s', body c s = Return (c', s') -> s' = s /\ c' = f c /\ P c) ->
  forall l l' s',
    for_each body l s = Return (l', s') ->
    s' = s /\ l' = map f l /\ Forall P l.
Proof.
  intros body f P s Hbody. induction l as [|c l IH]; intros l' s' H.
  - cbn in H. injection H as <- <-. repeat split. constructor.
  - cbn [for_each] in H. unfold bind at 1 in H.
    destruct (body c s) as [[c1 s1]|e] eqn:E1; [|discriminate].
    destruct (Hbody _ _ _ E1) as (-> & -> & HP).
    unfold bind at 1 in H.
    destruct (for_each body l s) as [[l1 s2]|e] eqn:E2; [|discriminate].
    destruct (IH _ _ eq_refl) as (-> & -> & HF).
    injection H as <- <-. repeat split. now constructor.
Qed.

Lemma hydrate_in_idempotent : forall t c,
  hydrate_in t (hydrate_in t c) = hydrate_in t c.
Proof.
  intros t [ip mac name id]. unfold hydrate_in. cbn [c_name c_mac].
  destruct (String.eqb name "unknown") eqn:E; cbn [c_name c_mac].
  - destruct (fetchone (filter (has_mac mac) t)) as [r|] eqn:F;
      cbn [c_name c_mac set_name].
    + destruct (String.eqb (r_name r) "unknown"); [|reflexivity].
      now rewrite F.
    + now rewrite E, F.
  - now rewrite E.
Qed.

Lemma assign_in_idempotent : forall t c,
  assign_in t (assign_in t c) = assign_in t c.
Proof.
  intros t [ip mac name id]. unfold assign_in. cbn [c_id c_mac].
  destruct (Z.eqb id (-1)) eqn:E; cbn [c_id c_mac].
  - destruct (fetchone (filter (has_mac mac) t)) as [r|] eqn:F;
      cbn [c_id c_mac set_id].
    + destruct (Z.eqb (r_id r) (-1)); [|reflexivity].
      now rewrite F.
    + now rewrite E, F.
  - now rewrite E.
Qed.

Lemma hydrate_assign_commute : forall t c,
  hydrate_in t (assign_in t c) = assign_in t (hydrate_in t c).
Proof.
  intros t [ip mac name id]. unfold hydrate_in, assign_in.
  cbn [c_name c_id c_mac].
  destruct (String.eqb name "unknown") eqn:E;
    destruct (Z.eqb id (-1)) eqn:F;
    destruct (fetchone (filter (has_mac mac) t)) as [r|] eqn:G;
    cbn [c_name c_id c_mac set_name set_id];
    rewrite ?E, ?F, ?G; reflexivity.
Qed.

Lemma hydrate_in_unnamed : forall t c,
  unnamed (hydrate_in t c) = true -> unnamed c = true.
Proof.
  intros t c. unfold unnamed, hydrate_in.
  destruct (String.eqb (c_name c) "unknown") eqn:E; [reflexivity|].
  now rewrite E.
Qed.

Lemma assign_in_unassigned : forall t c,
  c_id (assign_in t c) = (-1)%Z -> c_id c = (-1)%Z.
Proof.
  intros t c. unfold assign_in.
  destruct (Z.eqb (c_id c) (-1)) eqn:E; [|trivial].
  intros _. now apply Z.eqb_eq.
Qed.

Lemma hydrate_assign_kept : forall t c,
  names_kept c (assign_in t (hydrate_in t c)).
Proof.
  intros t c. unfold names_kept.
  destruct (assign_in_mac_name t (hydrate_in t c)) as [Em En].
  destruct (hydrate_in_frame t c) as [Hip Hid].
  rewrite assign_in_ip, Em, En, Hip, hydrate_in_mac.
  repeat split.
  - intros H. now rewrite hydrate_in_named.
  - intros H. unfold assign_in. rewrite Hid.
    apply Z.eqb_neq in H. now rewrite H.
Qed.

(** X14.  Whenever [get_client_names] returns, it has left the state as
    it was; it keeps every address and hardware address, every name
    other than "unknown" and every id other than -1; and run again on
    its own result it returns that result unchanged. *)
Theorem get_client_names_reads_only : forall client_list s client_list' s',
  get_client_names client_list s = Return (client_list', s') ->
  s' = s
  /\ Forall2 names_kept client_list client_list'
  /\ get_client_names client_list' s = Return (client_list', s).
Proof.
  intros l s l' s' H. unfold get_client_names in H. unfold bind at 1 in H.
  destruct (for_each hydrate_name l s) as [[l1 s1]|e] eqn:E1; [|discriminate].
  set (t := table_of s).
  destruct (@for_each_inv hydrate_name (hydrate_in t)
              (fun c => db s <> None
                        /\ (unnamed c = true -> registered (c_mac c) s = true))
              s) with (l := l) (l' := l1) (s' := s1)
    as (-> & -> & HP1); [|exact E1|].
  { intros c c' s0 Hc. apply hydrate_name_inv in Hc. tauto. }
  destruct (@for_each_inv assign_id (assign_in t)
              (fun c => db s <> None
                        /\ (c_id c = (-1)%Z -> registered (c_mac c) s = true))
              s) with (l := map (hydrate_in t) l) (l' := l') (s' := s')
    as (-> & -> & HP2); [|exact H|].
  { intros c c' s0 Hc. apply assign_id_inv in Hc. tauto. }
  split; [reflexivity|]. split.
  - rewrite map_map. apply Forall2_map_same. intros a _.
    apply hydrate_assign_kept.
  - rewrite map_map.
    set (g := fun c => assign_in t (hydrate_in t c)).
    assert (Hg : forall c, g (g c) = g c).
    { intros c. unfold g.
      now rewrite <- hydrate_assign_commute, assign_in_idempotent,
        hydrate_assign_commute, hydrate_in_idempotent. }
    assert (Hh : forall c, hydrate_in t (g c) = g c).
    { intros c. unfold g.
      now rewrite hydrate_assign_commute, hydrate_in_idempotent. }
    unfold get_client_names.
    rewrite (bind_Return _ _ s (a:=map g l) (s':=s)).
    + rewrite <- (map_id (map g l)) at 2.
      apply for_each_pure. intros c Hc. apply in_map_iff in Hc.
      destruct Hc as (c0 & <- & Hc0).
      rewrite Forall_forall in HP2.
      destruct (HP2 (hydrate_in t c0)) as [Hdb Hreg];
        [now apply in_map|].
      rewrite assign_id_ok; trivial.
      * fold t. unfold g. now rewrite assign_in_idempotent.
      * intros Hi. unfold g in *.
        destruct (assign_in_mac_name t (hydrate_in t c0)) as [-> _].
        apply Hreg. now apply assign_in_unassigned in Hi.
    + rewrite <- (map_id (map g l)) at 2.
      apply for_each_pure. intros c Hc. apply in_map_iff in Hc.
      destruct Hc as (c0 & <- & Hc0).
      rewrite Forall_forall in HP1. destruct (HP1 c0 Hc0) as [Hdb Hreg].
      rewrite hydrate_name_ok; trivial.
      * fold t. now rewrite Hh.
      * intros Hu. unfold g in *.
        destruct (assign_in_mac_name t (hydrate_in t c0)) as [Em En].
        rewrite Em, hydrate_in_mac. apply Hreg.
        unfold unnamed in Hu. rewrite En in Hu.
        now apply (hydrate_in_unnamed t).
Qed.

Lemma get_client_names_reads_only_witness :
  get_client_names [new_client "192.168.1.4"]
                   (mk_store (Some [mk_row "unknown" "unknown" 1]) [] [])
  = Return ([mk_device "192.168.1.4" "unknown" "unknown" 1],
            mk_store (Some [mk_row "unknown" "unknown" 1]) [] [])
  /\ get_client_names [mk_device "192.168.1.4" "unknown" "unknown" 1]
                      (mk_store (Some [mk_row "unknown" "unknown" 1]) [] [])
     = Return ([mk_device "192.168.1.4" "unknown" "unknown" 1],
               mk_store (Some [mk_row "unknown" "unknown" 1]) [] []).
Proof.
  assert (H : get_client_names [new_client "192.168.1.4"]
                (mk_store (Some [mk_row "unknown" "unknown" 1]) [] [])
              = Return ([mk_device "192.168.1.4" "unknown" "unknown" 1],
                        mk_store (Some [mk_row "unknown" "unknown" 1]) [] []))
    by reflexivity.
  split; [exact H|].
  destruct (@get_client_names_reads_only _ _ _ _ H) as (_ & _ & H3).
  exact H3.
Defined.

(** * Further properties of the monitoring cycle *)

Lemma pass_ips : forall api arp_stdout client_list s,
  exists l' s',
    get_connections_info api arp_stdout client_list s = Return (l', s')
    /\ map c_ip l' = map c_ip client_list
    /\ notices s' = notices s.
Proof.
  intros api arp_stdout client_list s.
  destruct (pass_pointwise api arp_stdout client_list s)
    as (l' & s' & t1 & t' & Hpass & _ & _ & _ & Hnot & Hall).
  exists l', s'. split; [exact Hpass|]. split; [|exact Hnot].
  assert (Hip : map c_ip l'
                = map c_ip (snd (get_macs arp_stdout client_list))).
  { apply (@Forall2_map_ip
             (fun c c' => existsb (has_mac (c_mac c)) t1 = true
                /\ c' = set_name (assign_in t1 (hydrate_in t1 c))
                                 (c_name c'))
             (snd (get_macs arp_stdout client_list)) l'); [|exact Hall].
    intros c c' [_ ->]. cbn. rewrite assign_in_ip.
    now destruct (hydrate_in_frame t1 c). }
  rewrite Hip. unfold get_macs. cbn [snd]. rewrite map_map. apply map_ext.
  intros c. now destruct (arp_scan_frame (Py.splitlines arp_stdout) c).
Qed.

(** The second loop of [run_monitor] never raises: for each address left
    in [latest_connections] it appends one device and gives one connect
    notice. *)
Lemma connect_loop_appends : forall api arp latest k client_list changes s,
  exists l' s' evs,
    connect_loop api arp k latest client_list changes s
    = Return ((l', changes || negb (Nat.eqb (length latest) 0)), s')
    /\ map c_ip l' = map c_ip client_list ++ latest
    /\ notices s' = notices s ++ evs
    /\ length evs = length latest
    /\ Forall (fun e => is_connect e = true) evs.
Proof.
  intros api arp. induction latest as [|new rest IH];
    intros k cl ch s.
  - exists cl, s, []. cbn. rewrite orb_false_r, !app_nil_r.
    repeat split. constructor.
  - cbn [connect_loop].
    destruct (pass_ips api (arp k) (cl ++ [new_client new]) s)
      as (l2 & s2 & Hpass & Hip & Hnot).
    rewrite (bind_Return _ _ _ Hpass).
    rewrite map_app in Hip. cbn [map new_client c_ip] in Hip.
    assert (Hlen : length l2 = S (length cl)).
    { rewrite <- (length_map c_ip l2), Hip, length_app, length_map.
      cbn. lia. }
    destruct (nth_error l2 (length l2 - 1)) as [d|] eqn:Hd.
    2:{ apply nth_error_None in Hd. lia. }
    set (s3 := mk_store (db s2) (api_log s2)
                        (notices s2 ++ [DeviceConnected d])).
    rewrite (bind_Return _ _ s2 (a:=tt) (s':=s3)) by reflexivity.
    destruct (IH (S k) l2 true s3) as (l' & s' & evs & Hrun & Hip' & Hnot'
                                       & Hlen' & Hall).
    exists l', s', (DeviceConnected d :: evs).
    rewrite Hrun. cbn [orb length Nat.eqb negb]. rewrite orb_true_r.
    split; [reflexivity|]. split; [|split; [|split]].
    + rewrite Hip', Hip, <- app_assoc. reflexivity.
    + rewrite Hnot'. cbn [s3 notices]. rewrite Hnot, <- app_assoc.
      reflexivity.
    + now rewrite Hlen'.
    + constructor; [reflexivity | exact Hall].
Qed.

Lemma filter_all : forall (A : Type) (f : A -> bool) l,
  (forall a, In a l -> f a = true) -> filter f l = l.
Proof.
  intros A f. induction l as [|a l IH]; intros H; [reflexivity|].
  cbn. rewrite (H a (or_introl eq_refl)). f_equal.
  apply IH. intros b Hb. apply H. now right.
Qed.

Lemma filter_filter : forall (A : Type) (f g : A -> bool) l,
  filter g (filter f l) = filter (fun a => f a && g a) l.
Proof.
  intros A f g. induction l as [|a l IH]; [reflexivity|].
  cbn [filter]. destruct (f a); cbn [andb filter]; [|exact IH].
  destruct (g a); now rewrite IH.
Qed.

Lemma list_remove_distinct : forall d l,
  NoDup l -> In d l ->
  Py.list_remove String.eqb d l
  = Some (filter (fun y => negb (String.eqb y d)) l).
Proof.
  intros d. induction l as [|y l IH]; intros Hnd Hin; [contradiction|].
  inversion Hnd as [|? ? Hn Hnd']; subst. cbn [Py.list_remove filter].
  destruct (String.eqb y d) eqn:E.
  - apply String.eqb_eq in E. subst y. cbn [negb]. f_equal. symmetry.
    apply filter_all. intros a Ha.
    destruct (String.eqb a d) eqn:Ea; [|reflexivity].
    apply String.eqb_eq in Ea. now subst.
  - cbn [negb]. destruct Hin as [->|Hin].
    + now rewrite String.eqb_refl in E.
    + now rewrite (IH Hnd' Hin).
Qed.

Lemma ip_scan_found : forall d latest l' s to_visit,
  In d to_visit ->
  Py.list_remove String.eqb d latest = Some l' ->
  ip_scan d to_visit latest s = Return ((true, l'), s).
Proof.
  intros d latest l' s. induction to_visit as [|ip rest IH]; intros Hin Hrm;
    [contradiction|].
  cbn [ip_scan]. destruct (String.eqb d ip) eqn:E.
  - apply String.eqb_eq in E. subst ip. now rewrite Hrm.
  - destruct Hin as [->|Hin]; [now rewrite String.eqb_refl in E|].
    now apply IH.
Qed.

Lemma difference_nil : forall a, difference a [] = a.
Proof. intros a. unfold difference. now apply filter_all. Qed.

Lemma difference_cons : forall latest d rest,
  difference (filter (fun y => negb (String.eqb y d)) latest) rest
  = difference latest (d :: rest).
Proof.
  intros latest d rest. unfold difference. rewrite filter_filter.
  apply filter_ext. intros a. cbn [existsb]. now rewrite negb_orb.
Qed.

Lemma nth_error_skipn_cons : forall (A : Type) i (l : list A) d,
  nth_error l i = Some d -> skipn i l = d :: skipn (S i) l.
Proof.
  intros A. induction i as [|i IH]; intros [|a l] d H; try discriminate.
  - cbn in H. now injection H as <-.
  - cbn in H. cbn [skipn]. now apply IH.
Qed.

Lemma nth_error_skipn_nil : forall (A : Type) i (l : list A),
  nth_error l i = None -> skipn i l = [].
Proof.
  intros A i l H. apply nth_error_None in H. now apply skipn_all2.
Qed.

(** The first loop of [run_monitor] when every device still to be visited
    is found in the sweep: nothing is removed from the list and nothing is
    raised; the addresses of the devices are taken out of
    [latest_connections]. *)
Lemma check_loop_all_found : forall fuel i client_list latest changes s,
  (length client_list - i <= fuel)%nat ->
  NoDup latest ->
  NoDup (map c_ip (skipn i client_list)) ->
  incl (map c_ip (skipn i client_list)) latest ->
  check_loop fuel i client_list latest changes s
  = Return ((client_list,
             difference latest (map c_ip (skipn i client_list)),
             changes), s).
Proof.
  induction fuel as [|fuel IH]; intros i cl latest ch s Hf Hnd Hnp Hincl.
  - rewrite skipn_all2 by lia. cbn. now rewrite difference_nil.
  - cbn [check_loop]. destruct (nth_error cl i) as [d|] eqn:Hd.
    + rewrite (@nth_error_skipn_cons device i cl d Hd) in Hnp, Hincl |- *.
      remember (skipn (S i) cl) as tl eqn:Htl.
      cbn [map] in Hnp, Hincl |- *.
      inversion Hnp as [|? ? Hn Hnp']; subst.
      assert (Hin : In (c_ip d) latest) by (apply Hincl; now left).
      rewrite (bind_Return _ _ _
                 (@ip_scan_found (c_ip d) latest _ s latest Hin
                    (@list_remove_distinct (c_ip d) latest Hnd Hin))).
      assert (Hlen : (i < length cl)%nat)
        by (apply nth_error_Some; congruence).
      rewrite IH.
      * now rewrite difference_cons.
      * lia.
      * now apply NoDup_filter.
      * exact Hnp'.
      * intros a Ha. apply filter_In. split.
        -- apply Hincl. now right.
        -- destruct (String.eqb a (c_ip d)) eqn:E; [|reflexivity].
           apply String.eqb_eq in E. now subst.
    + rewrite (@nth_error_skipn_nil device i cl Hd). cbn.
      now rewrite difference_nil.
Qed.

(** X15.  A cycle in which every device of the live list answers (the
    list holding no address twice) gives no disconnect notice, keeps the
    devices it had in their order, appends one device for each address
    of the sweep that the list did not hold, in sweep order, and gives one
    connect notice for each; [changes_found] says whether there was one.
    When the sweep holds no new address, list and state are untouched. *)
Theorem cycle_without_departure : forall api ping arp id client_list s sw,
  ping_all ping (u_ip id) 1000 = Return sw ->
  NoDup (map c_ip client_list) ->
  incl (map c_ip client_list) (ip_list sw) ->
  let new := difference (ip_list sw) (map c_ip client_list) in
  exists client_list' s' evs,
    run_monitor api ping arp id client_list s
    = Return ((client_list', negb (Nat.eqb (length new) 0)), s')
    /\ map c_ip client_list' = map c_ip client_list ++ new
    /\ notices s' = notices s ++ evs
    /\ length evs = length new
    /\ Forall (fun e => is_connect e = true) evs
    /\ (new = [] -> client_list' = client_list /\ s' = s).
Proof.
  intros api ping arp id cl s sw Hsw Hnp Hincl new.
  destruct (u_ip id) as [x|] eqn:Hx; [|discriminate].
  destruct (ping_all_distinct _ _ _ Hsw) as (_ & Hnd & _).
  unfold run_monitor. rewrite Hx.
  rewrite (bind_Return _ _ s (a:=sw) (s':=s))
    by (unfold lift; now rewrite Hsw).
  rewrite (bind_Return _ _ _
             (@check_loop_all_found (length cl) 0 cl (ip_list sw) false s
                ltac:(lia) Hnd Hnp Hincl)).
  cbn [skipn]. fold new. clearbody new.
  destruct new as [|a new].
  - exists cl, s, []. cbn. rewrite !app_nil_r. repeat split. constructor.
  - destruct (connect_loop_appends api arp (a :: new) 0 cl false s)
      as (l' & s' & evs & Hrun & Hip & Hnot & Hlen & Hall).
    exists l', s', evs. rewrite Hrun. cbn [orb].
    repeat split; trivial; discriminate.
Qed.

Lemma cycle_without_departure_witness :
  let sw := mk_sweep ["192.168.1.1"; "192.168.1.4"] 8 4
              [("192.168.1.0", false); ("192.168.1.1", true);
               ("192.168.1.3", false); ("192.168.1.4", true);
               ("192.168.1.5", false); ("192.168.1.6", false);
               ("192.168.1.7", false); ("192.168.1.8", false)] in
  ping_all (answers ["192.168.1.1"; "192.168.1.4"]) (u_ip this_host) 1000
  = Return sw
  /\ NoDup (map c_ip [router])
  /\ incl (map c_ip [router]) (ip_list sw)
  /\ exists client_list' s' evs,
       run_monitor no_vendor (answers ["192.168.1.1"; "192.168.1.4"])
                   (fun _ => arp_without_tv) this_host [router] home_registry
       = Return ((client_list', true), s')
       /\ map c_ip client_list' = ["192.168.1.1"; "192.168.1.4"]
       /\ notices s' = notices home_registry ++ evs
       /\ length evs = 1.
Proof.
  intros sw.
  assert (H1 : ping_all (answers ["192.168.1.1"; "192.168.1.4"])
                        (u_ip this_host) 1000 = Return sw)
    by (vm_compute; reflexivity).
  assert (H2 : NoDup (map c_ip [router]))
    by (repeat constructor; intros []).
  assert (H3 : incl (map c_ip [router]) (ip_list sw)).
  { intros a [<-|[]]. now left. }
  split; [exact H1|]. split; [exact H2|]. split; [exact H3|].
  destruct (@cycle_without_departure no_vendor
              (answers ["192.168.1.1"; "192.168.1.4"])
              (fun _ => arp_without_tv) this_host [router] home_registry sw
              H1 H2 H3)
    as (l' & s' & evs & Hrun & Hip & Hnot & Hlen & _).
  exists l', s', evs. auto.
Defined.

(** * Properties of connections *)

(** X16.  [connections] raises [TypeError] when the [ipconfig] output has
    no line with an address: [ping_all] is called with [None]. *)
Theorem connections_without_address : forall api ipconfig_stdout ping arp s,
  ip_find (Py.splitlines ipconfig_stdout) = None ->
  connections api ipconfig_stdout ping arp s
  = Raise (TypeError "expected string or bytes-like object").
Proof.
  intros api out ping arp s H. unfold connections.
  rewrite (bind_Return _ _ s
             (a:=mk_user_id "Your Device" None
                            (mac_find (Py.splitlines out))) (s':=s))
    by (unfold lift, fetch_user_id; now rewrite H).
  reflexivity.
Qed.

Lemma connections_without_address_witness :
  ip_find (Py.splitlines media_disconnected) = None
  /\ connections no_vendor media_disconnected (answers []) ""
                 (mk_store None [] [])
     = Raise (TypeError "expected string or bytes-like object").
Proof.
  split; [reflexivity|].
  apply (@connections_without_address no_vendor media_disconnected
           (answers []) "" (mk_store None [] [])).
  reflexivity.
Defined.

(** X17.  When the [ipconfig] output has a line with an address,
    [connections] returns: the address always has a range prefix, so the
    sweep runs, and the pass that follows cannot raise.  The list it
    returns holds one device for each address of the sweep, in sweep
    order, with no address twice and without the host's own address. *)
Theorem connections_returns : forall api ipconfig_stdout ping arp s ip,
  ip_find (Py.splitlines ipconfig_stdout) = Some ip ->
  exists sw client_list s',
    ping_all ping (Some ip) 600 = Return sw
    /\ connections api ipconfig_stdout ping arp s
       = Return ((mk_user_id "Your Device" (Some ip)
                             (mac_find (Py.splitlines ipconfig_stdout)),
                  client_list), s')
    /\ map c_ip client_list = ip_list sw
    /\ NoDup (map c_ip client_list)
    /\ ~ In ip (map c_ip client_list).
Proof.
  intros api out ping arp s ip H.
  assert (Hs : exists k, Re.search ip_range_pattern ip = Some (0, k)).
  { unfold ip_find in H. apply line_find_found in H.
    destruct H as (line & b & e & _ & _ & Hs & ->).
    now apply ip_slice_has_range. }
  destruct Hs as [k Hs].
  pose proof (@ping_all_returns ping ip 600 0 k Hs) as Hsw.
  set (sw := sweep_loop ping ip 600 (Py.slice ip 0 k) (Py.range 0 255)
                        (mk_sweep [] 0 0 [])) in *.
  clearbody sw.
  destruct (ping_all_distinct _ _ _ Hsw) as (Hprobed & Hnd & Hself).
  destruct (ping_all_candidates _ _ _ Hsw) as (_ & _ & _ & _ & _ & Hl & _).
  destruct (pass_ips api arp (map new_client (ip_list sw)) s)
    as (l' & s' & Hpass & Hip & _).
  assert (Hips : map c_ip l' = ip_list sw).
  { rewrite Hip, map_map. cbn [new_client c_ip]. apply map_id. }
  exists sw, l', s'. split; [exact Hsw|]. split; [|split; [exact Hips|split]].
  - unfold connections.
    rewrite (bind_Return _ _ s
               (a:=mk_user_id "Your Device" (Some ip)
                              (mac_find (Py.splitlines out))) (s':=s))
      by (unfold lift, fetch_user_id; now rewrite H).
    cbn [u_ip].
    rewrite (bind_Return _ _ s (a:=sw) (s':=s))
      by (unfold lift; now rewrite Hsw).
    rewrite (bind_Return _ _ _ Hpass). reflexivity.
  - now rewrite Hips.
  - rewrite Hips, Hl. intros Hin. apply Hself.
    now apply In_map_filter in Hin.
Qed.

Lemma connections_returns_witness :
  ip_find (Py.splitlines ipconfig_home) = Some "192.168.1.2"
  /\ exists sw client_list s',
       ping_all (answers ["192.168.1.1"; "192.168.1.4"])
                (Some "192.168.1.2") 600 = Return sw
       /\ connections no_vendor ipconfig_home
                      (answers ["192.168.1.1"; "192.168.1.4"])
                      arp_without_tv (mk_store None [] [])
          = Return ((mk_user_id "Your Device" (Some "192.168.1.2")
                                (mac_find (Py.splitlines ipconfig_home)),
                     client_list), s')
       /\ map c_ip client_list = ip_list sw.
Proof.
  assert (H : ip_find (Py.splitlines ipconfig_home) = Some "192.168.1.2")
    by reflexivity.
  split; [exact H|].
  destruct (@connections_returns no_vendor ipconfig_home
              (answers ["192.168.1.1"; "192.168.1.4"]) arp_without_tv
              (mk_store None [] []) "192.168.1.2" H)
    as (sw & l & s' & H1 & H2 & H3 & _).
  exists sw, l, s'. auto.
Defined.

(** * Properties of menu *)

Lemma select_client_split : forall i l before c after,
  select_client i l = Some (before, c, after) ->
  l = before ++ c :: after /\ c_id c = i
  /\ Forall (fun d => c_id d <> i) before.
Proof.
  intros i. induction l as [|d l IH]; intros before c after H;
    [discriminate|].
  cbn [select_client] in H. destruct (Z.eqb (c_id d) i) eqn:E.
  - injection H as <- <- <-. apply Z.eqb_eq in E. repeat split; auto.
  - destruct (select_client i l) as [[[b0 c0] a0]|] eqn:E2; [|discriminate].
    injection H as <- <- <-. destruct (IH _ _ _ eq_refl) as (-> & Hc & Hb).
    apply Z.eqb_neq in E. repeat split; auto.
Qed.

Lemma select_client_none : forall i l,
  Forall (fun d => c_id d <> i) l -> select_client i l = None.
Proof.
  intros i l H. induction H as [|d l Hd H IH]; [reflexivity|].
  cbn [select_client]. apply Z.eqb_neq in Hd. now rewrite Hd, IH.
Qed.

Lemma renamed_refl : forall c, renamed c c.
Proof. intros [ip mac name id]. reflexivity. Qed.

Lemma renamed_trans : forall a b c, renamed a b -> renamed b c -> renamed a c.
Proof.
  intros [ip mac name id] b c H1 H2. unfold renamed in *.
  rewrite H2. rewrite H1. reflexivity.
Qed.

Lemma Forall2_renamed_refl : forall l, Forall2 renamed l l.
Proof. induction l; constructor; auto using renamed_refl. Qed.

Lemma Forall2_renamed_trans : forall l1 l2 l3,
  Forall2 renamed l1 l2 -> Forall2 renamed l2 l3 -> Forall2 renamed l1 l3.
Proof.
  intros l1 l2 l3 H. revert l3.
  induction H as [|a b l1 l2 Hab H IH]; intros l3 H23.
  - inversion H23. constructor.
  - inversion H23; subst. constructor; eauto using renamed_trans.
Qed.

Section MenuFacts.

Variable py_int : string -> option Z.
Variable api : nat -> string -> api_response.

(** The renaming step of [prompt]: the request to the vendor service or
    the name typed in, then [save_client_name]. *)
Lemma rename_step : forall c input_name s c' s',
  (selected_client <-
     (if String.eqb input_name "api"
      then get_mac_manufacturer_api api c
      else ret (set_name c input_name)) ;;
   save_client_name selected_client ;;;
   ret selected_client) s = Return (c', s') ->
  renamed c c' /\ notices s' = notices s
  /\ map key (table_of s') = map key (table_of s).
Proof.
  intros c input_name s c' s' H. unfold bind at 1 in H.
  assert (Hfirst : exists c1 s1,
            (if String.eqb input_name "api"
             then get_mac_manufacturer_api api c
             else ret (set_name c input_name)) s = Return (c1, s1)
            /\ renamed c c1 /\ db s1 = db s /\ notices s1 = notices s).
  { destruct (String.eqb input_name "api").
    - destruct (get_mac_manufacturer_api_frame api c s)
        as (c1 & s1 & Hr & Hc & Hdb & Hnot & _).
      exists c1, s1. auto.
    - exists (set_name c input_name), s. repeat split. }
  destruct Hfirst as (c1 & s1 & Hr & Hren & Hdb & Hnot). rewrite Hr in H.
  unfold bind at 1 in H.
  destruct (save_client_name c1 s1) as [[u s2]|e] eqn:Hsave; [|discriminate].
  unfold ret in H. injection H as <- <-.
  destruct (db s1) as [t|] eqn:Hdb1.
  - destruct (@save_client_name_keys c1 s1 t Hdb1) as (t2 & Hs & Hk).
    rewrite Hs in Hsave. injection Hsave as <- <-.
    split; [exact Hren|]. split; [exact Hnot|].
    unfold table_of. cbn [db set_db]. now rewrite <- Hdb, Hk.
  - unfold save_client_name, try_except_IntegrityError, update_name in Hsave.
    rewrite Hdb1 in Hsave. discriminate.
Qed.

Variable ask_name_change : bool.

(** What a call of [prompt] that returns has done. *)
Lemma prompt_frame : forall l inputs s b l' s' inputs',
  prompt py_int api ask_name_change l inputs s = Done (b, l') s' inputs' ->
  Forall2 renamed l l'
  /\ notices s' = notices s
  /\ map key (table_of s') = map key (table_of s)
  /\ (exists read, inputs = read ++ inputs')
  /\ (b = true -> (length inputs' < length inputs)%nat).
Proof.
  intros l inputs s b l' s' inputs' H. unfold prompt in H.
  destruct ask_name_change; cbn [negb] in H.
  2:{ injection H as <- <- <- <-. repeat split; trivial.
      - apply Forall2_renamed_refl.
      - now exists [].
      - discriminate. }
  destruct inputs as [|u inputs]; [discriminate|].
  destruct (String.eqb u "n").
  { injection H as <- <- <- <-. repeat split; trivial.
    - apply Forall2_renamed_refl.
    - now exists [u].
    - discriminate. }
  destruct (py_int u) as [i|]; [|discriminate].
  destruct (select_client i l) as [[[before c] after]|] eqn:Hsel.
  2:{ injection H as <- <- <- <-. repeat split; trivial.
      - apply Forall2_renamed_refl.
      - now exists [u].
      - intros _. cbn. lia. }
  destruct inputs as [|input_name inputs]; [discriminate|].
  match type of H with
  | match ?m with _ => _ end = _ => destruct m as [[c' s2]|e] eqn:Hstep
  end; [|discriminate].
  injection H as <- <- <- <-.
  destruct (rename_step _ _ _ Hstep) as (Hren & Hnot & Hk).
  destruct (select_client_split _ _ Hsel) as (-> & _ & _).
  repeat split; trivial.
  - apply Forall2_app; [apply Forall2_renamed_refl|].
    constructor; [exact Hren | apply Forall2_renamed_refl].
  - now exists [u; input_name].
  - intros _. cbn. lia.
Qed.

(** More fuel than there are lines changes nothing. *)
Lemma menu_loop_fuel : forall fuel1 fuel2 l inputs s,
  (length inputs < fuel1)%nat -> (length inputs < fuel2)%nat ->
  menu_loop py_int api ask_name_change fuel1 l inputs s
  = menu_loop py_int api ask_name_change fuel2 l inputs s.
Proof.
  induction fuel1 as [|fuel1 IH]; intros fuel2 l inputs s H1 H2; [lia|].
  destruct fuel2 as [|fuel2]; [lia|]. cbn [menu_loop].
  destruct (prompt py_int api ask_name_change l inputs s)
    as [[b l'] s' inputs'| |] eqn:Hp; try reflexivity.
  destruct b; [|reflexivity].
  destruct (prompt_frame _ _ _ Hp) as (_ & _ & _ & _ & Hlen).
  specialize (Hlen eq_refl). apply IH; lia.
Qed.

Lemma menu_loop_frame : forall fuel l inputs s l' s' inputs',
  menu_loop py_int api ask_name_change fuel l inputs s = Done l' s' inputs' ->
  Forall2 renamed l l'
  /\ notices s' = notices s
  /\ map key (table_of s') = map key (table_of s)
  /\ exists read, inputs = read ++ inputs'.
Proof.
  induction fuel as [|fuel IH]; intros l inputs s l' s' inputs' H.
  - cbn in H. injection H as <- <- <-. repeat split; trivial.
    + apply Forall2_renamed_refl.
    + now exists [].
  - cbn [menu_loop] in H.
    destruct (prompt py_int api ask_name_change l inputs s)
      as [[b l1] s1 inputs1| |] eqn:Hp; try discriminate.
    destruct (prompt_frame _ _ _ Hp) as (Hr1 & Hn1 & Hk1 & [read1 Hi1] & _).
    destruct b.
    + destruct (IH _ _ _ _ _ _ H) as (Hr2 & Hn2 & Hk2 & [read2 Hi2]).
      repeat split.
      * eapply Forall2_renamed_trans; eauto.
      * congruence.
      * congruence.
      * exists (read1 ++ read2). rewrite Hi1, Hi2. now rewrite app_assoc.
    + injection H as <- <- <-. repeat split; trivial. now exists read1.
Qed.

End MenuFacts.

Lemma menu_step : forall py_int api ask l inputs s,
  menu py_int api ask l inputs s
  = match prompt py_int api ask l inputs s with
    | Done (true, l') s' inputs' =>
        menu_loop py_int api ask (length inputs) l' inputs' s'
    | Done (false, l') s' inputs' => Done l' s' inputs'
    | Raised e => Raised e
    | EndOfInput => EndOfInput
    end.
Proof. reflexivity. Qed.

(** X18.  Whatever the user types, a [menu] that ends normally has
    changed nothing in the list but names: the devices are the same, in
    the same order, with their addresses, hardware addresses and ids; it
    has given no notice, has kept the hardware address and id of every
    row, and has read the lines from the front. *)
Theorem menu_changes_names_only :
  forall py_int api ask_name_change client_list inputs s client_list' s' rest,
  menu py_int api ask_name_change client_list inputs s
  = Done client_list' s' rest ->
  Forall2 renamed client_list client_list'
  /\ notices s' = notices s
  /\ map key (table_of s') = map key (table_of s)
  /\ exists read, inputs = read ++ rest.
Proof.
  intros py_int api ask l inputs s l' s' rest H. unfold menu in H.
  exact (menu_loop_frame _ _ _ _ _ _ _ H).
Qed.

Lemma menu_changes_names_only_witness :
  menu int_of_str vendor_acme true [router; tv; phone] ["3"; "Office phone"; "n"; "x"]
       home_registry
  = Done [router; tv; renamed_phone]
         (mk_store (Some [mk_row "router" "aa-aa-aa-aa-aa-01" 1;
                          mk_row "Kitchen TV" "aa-aa-aa-aa-aa-03" 2;
                          mk_row "Office phone" "aa-aa-aa-aa-aa-04" 3]) [] [])
         ["x"]
  /\ Forall2 renamed [router; tv; phone] [router; tv; renamed_phone].
Proof.
  assert (H : menu int_of_str vendor_acme true [router; tv; phone]
                   ["3"; "Office phone"; "n"; "x"] home_registry
              = Done [router; tv; renamed_phone]
                  (mk_store (Some [mk_row "router" "aa-aa-aa-aa-aa-01" 1;
                                   mk_row "Kitchen TV" "aa-aa-aa-aa-aa-03" 2;
                                   mk_row "Office phone" "aa-aa-aa-aa-aa-04" 3])
                            [] [])
                  ["x"]) by reflexivity.
  split; [exact H|].
  destruct (@menu_changes_names_only _ _ _ _ _ _ _ _ _ H) as (H1 & _). exact H1.
Defined.

(** X19.  When renaming is on and the user types a line that [int]
    reads as the id of a listed device and then a name other than "api",
    [menu] gives that name to the first device with that id, stores it
    with [save_client_name] (so it is the stored name of the hardware
    address if the device is registered) and goes on with the lines
    that follow. *)
Theorem menu_renames_selected_device :
  forall py_int api client_list s user_input i name rest before c after,
  user_input <> "n" ->
  py_int user_input = Some i ->
  select_client i client_list = Some (before, c, after) ->
  name <> "api" ->
  db s <> None ->
  exists s',
    save_client_name (set_name c name) s = Return (tt, s')
    /\ menu py_int api true client_list (user_input :: name :: rest) s
       = menu py_int api true (before ++ set_name c name :: after) rest s'
    /\ client_list = before ++ c :: after
    /\ c_id c = i
    /\ (registered (c_mac c) s = true -> stored_name (c_mac c) name s').
Proof.
  intros py_int api l s u i name rest before c after Hn Hi Hsel Hname Hdb.
  destruct (db s) as [t|] eqn:Edb; [|contradiction].
  destruct (@save_client_name_keys (set_name c name) s t Edb)
    as (t2 & Hsave & _).
  exists (set_db s t2). split; [exact Hsave|].
  destruct (select_client_split _ _ Hsel) as (Hl & Hc & _).
  split; [|split; [exact Hl|split; [exact Hc|]]].
  - assert (Hp : prompt py_int api true l (u :: name :: rest) s
                 = Done (true, before ++ set_name c name :: after)
                        (set_db s t2) rest).
    { unfold prompt. cbn [negb].
      apply String.eqb_neq in Hn, Hname. rewrite Hn, Hi, Hsel, Hname.
      rewrite (bind_Return _ _ s (a:=set_name c name) (s':=s))
        by reflexivity.
      rewrite (bind_Return _ _ _ Hsave). reflexivity. }
    rewrite menu_step, Hp. unfold menu. apply menu_loop_fuel; cbn; lia.
  - intros Hreg.
    destruct (@save_client_name_stores (set_name c name) s (set_db s t2)
                Hreg Hsave) as [Hst _].
    exact Hst.
Qed.

Lemma menu_renames_selected_device_witness :
  "3" <> "n" /\ int_of_str "3" = Some 3%Z
  /\ select_client 3 [router; tv; phone] = Some ([router; tv], phone, [])
  /\ "Office phone" <> "api" /\ db home_registry <> None
  /\ exists s',
       save_client_name (set_name phone "Office phone") home_registry
       = Return (tt, s')
       /\ menu int_of_str vendor_acme true [router; tv; phone]
               ["3"; "Office phone"; "n"] home_registry
          = menu int_of_str vendor_acme true
                 ([router; tv] ++ [set_name phone "Office phone"]) ["n"] s'.
Proof.
  assert (H1 : "3" <> "n") by discriminate.
  assert (H2 : int_of_str "3" = Some 3%Z) by reflexivity.
  assert (H3 : select_client 3 [router; tv; phone]
               = Some ([router; tv], phone, [])) by reflexivity.
  assert (H4 : "Office phone" <> "api") by discriminate.
  assert (H5 : db home_registry <> None) by discriminate.
  repeat (split; [assumption|]).
  destruct (@menu_renames_selected_device int_of_str vendor_acme
              [router; tv; phone]
              home_registry "3" 3%Z "Office phone" ["n"] [router; tv] phone []
              H1 H2 H3 H4 H5) as (s' & Hs & Hm & _).
  exists s'. auto.
Defined.

(** X20.  [menu] reads nothing and changes nothing when renaming is
    off; it stops at the line "n"; it ends with [EOFError] when no line
    is left; a line that [int] rejects raises [ValueError]; and a line
    that [int] reads as the id of no listed device changes nothing and
    makes [menu] ask again.  Which lines [int] accepts is left open:
    the statement holds for every such function. *)
Theorem menu_stops_or_asks_again :
  forall py_int api client_list s u rest,
  menu py_int api false client_list (u :: rest) s
  = Done client_list s (u :: rest)
  /\ menu py_int api true client_list ("n" :: rest) s
     = Done client_list s rest
  /\ menu py_int api true client_list [] s = EndOfInput
  /\ (u <> "n" -> py_int u = None ->
      menu py_int api true client_list (u :: rest) s = Raised invalid_literal)
  /\ (forall i, u <> "n" -> py_int u = Some i ->
      Forall (fun d => c_id d <> i) client_list ->
      menu py_int api true client_list (u :: rest) s
      = menu py_int api true client_list rest s).
Proof.
  intros py_int api l s u rest. repeat split.
  - intros Hn Hi. rewrite menu_step. unfold prompt.
    cbn [negb]. apply String.eqb_neq in Hn. now rewrite Hn, Hi.
  - intros i Hn Hi Hall.
    assert (Hp : prompt py_int api true l (u :: rest) s
                 = Done (true, l) s rest).
    { unfold prompt. cbn [negb]. apply String.eqb_neq in Hn.
      now rewrite Hn, Hi, (select_client_none Hall). }
    rewrite menu_step, Hp. unfold menu. apply menu_loop_fuel; cbn; lia.
Qed.

Lemma menu_stops_or_asks_again_witness :
  "9" <> "n" /\ int_of_str "9" = Some 9%Z
  /\ Forall (fun d => c_id d <> 9%Z) [router; tv; phone]
  /\ menu int_of_str vendor_acme true [router; tv; phone] ["9"; "n"]
          home_registry
     = menu int_of_str vendor_acme true [router; tv; phone] ["n"]
            home_registry
  /\ "tv" <> "n" /\ int_of_str "tv" = None
  /\ menu int_of_str vendor_acme true [router; tv; phone] ["tv"; "n"]
          home_registry
     = Raised invalid_literal.
Proof.
  assert (H1 : "9" <> "n") by discriminate.
  assert (H2 : int_of_str "9" = Some 9%Z) by reflexivity.
  assert (H3 : Forall (fun d => c_id d <> 9%Z) [router; tv; phone])
    by (repeat constructor; discriminate).
  assert (H4 : "tv" <> "n") by discriminate.
  assert (H5 : int_of_str "tv" = None) by reflexivity.
  repeat (split; [assumption|]).
  destruct (@menu_stops_or_asks_again int_of_str vendor_acme
              [router; tv; phone] home_registry "9" ["n"])
    as (_ & _ & _ & _ & H).
  split; [exact (H 9%Z H1 H2 H3)|].
  repeat (split; [assumption|]).
  destruct (@menu_stops_or_asks_again int_of_str vendor_acme
              [router; tv; phone] home_registry "tv" ["n"])
    as (_ & _ & _ & H' & _).
  exact (H' H4 H5).
Defined.

(** * The monitoring cycle in general *)

Lemma device_eqb_refl : forall d, device_eqb d d = true.
Proof.
  intros d. unfold device_eqb.
  now rewrite !String.eqb_refl, Z.eqb_refl.
Qed.

Lemma device_eqb_ip : forall a b, device_eqb a b = true -> c_ip a = c_ip b.
Proof.
  intros a b H. unfold device_eqb in H.
  repeat (apply andb_true_iff in H; destruct H as [H ?]).
  now apply String.eqb_eq.
Qed.

Lemma list_remove_some : forall (A : Type) (eqb : A -> A -> bool) x l,
  eqb x x = true -> In x l -> exists l', Py.list_remove eqb x l = Some l'.
Proof.
  intros A eqb x l Hrefl. induction l as [|y l IH]; intros Hin;
    [contradiction|].
  cbn [Py.list_remove]. destruct (eqb y x) eqn:E; [now exists l|].
  destruct Hin as [->|Hin]; [congruence|].
  destruct (IH Hin) as [l' ->]. now exists (y :: l').
Qed.

Lemma list_remove_keeps : forall d l l' a,
  Py.list_remove String.eqb d l = Some l' -> In a l -> In a l' \/ a = d.
Proof.
  intros d. induction l as [|y l IH]; intros l' a H Hin; [contradiction|].
  cbn [Py.list_remove] in H. destruct (String.eqb y d) eqn:E.
  - injection H as <-. apply String.eqb_eq in E. subst y.
    destruct Hin as [<-|Hin]; auto.
  - destruct (Py.list_remove String.eqb d l) as [r|] eqn:Er; [|discriminate].
    injection H as <-. destruct Hin as [<-|Hin]; [left; now left|].
    destruct (IH _ _ eq_refl Hin); [left; now right | now right].
Qed.

(** The inner loop of [run_monitor] never raises when the addresses still
    to visit are addresses of the list. *)
Lemma ip_scan_total : forall d latest s to_visit,
  incl to_visit latest ->
  exists b l',
    ip_scan d to_visit latest s = Return ((b, l'), s)
    /\ (b = false -> l' = latest /\ ~ In d to_visit)
    /\ (b = true -> Py.list_remove String.eqb d latest = Some l').
Proof.
  intros d latest s. induction to_visit as [|ip rest IH]; intros Hincl.
  - exists false, latest. cbn. repeat split; auto; discriminate.
  - cbn [ip_scan]. destruct (String.eqb d ip) eqn:E.
    + apply String.eqb_eq in E. subst ip.
      destruct (@list_remove_some string String.eqb d latest
                  (String.eqb_refl d)) as [l' Hl'];
        [apply Hincl; now left|].
      rewrite Hl'. exists true, l'. repeat split; auto; discriminate.
    + destruct IH as (b & l' & Hrun & Hf & Ht).
      { intros a Ha. apply Hincl. now right. }
      exists b, l'. split; [exact Hrun|]. split; [|exact Ht].
      intros Hb. destruct (Hf Hb) as [-> Hn]. split; [reflexivity|].
      intros [<-|Hin]; [now rewrite String.eqb_refl in E | contradiction].
Qed.

(** The first loop of [run_monitor] never raises; it gives one disconnect
    notice for each device it removes and nothing else. *)
Lemma check_loop_total : forall fuel i client_list latest changes s,
  exists l' latest' s' ds,
    check_loop fuel i client_list latest changes s
    = Return ((l', latest', changes || negb (Nat.eqb (length ds) 0)), s')
    /\ notices s' = notices s ++ map DeviceDisconnected ds
    /\ db s' = db s /\ api_log s' = api_log s
    /\ length l' + length ds = length client_list.
Proof.
  induction fuel as [|fuel IH]; intros i cl latest ch s.
  - exists cl, latest, s, []. cbn. rewrite orb_false_r, app_nil_r.
    repeat split. lia.
  - cbn [check_loop]. destruct (nth_error cl i) as [d|] eqn:Hd.
    2:{ exists cl, latest, s, []. cbn. rewrite orb_false_r, app_nil_r.
        repeat split. lia. }
    destruct (@ip_scan_total (c_ip d) latest s latest (incl_refl latest))
      as (b & l1 & Hscan & _ & _).
    rewrite (bind_Return _ _ _ Hscan). destruct b.
    + apply IH.
    + set (s1 := mk_store (db s) (api_log s)
                          (notices s ++ [DeviceDisconnected d])).
      rewrite (bind_Return _ _ s (a:=tt) (s':=s1)) by reflexivity.
      destruct (@list_remove_some device device_eqb d cl
                  (device_eqb_refl d) (nth_error_In _ _ Hd)) as [cl1 Hrm].
      rewrite Hrm. apply list_remove_length in Hrm.
      destruct (IH (S i) cl1 l1 true s1)
        as (l' & latest' & s' & ds & Hrun & Hnot & Hdb & Hlog & Hlen).
      exists l', latest', s', (d :: ds). rewrite Hrun.
      cbn [orb length Nat.eqb negb map]. rewrite orb_true_r.
      split; [reflexivity|]. split; [|split; [|split]]; trivial.
      * rewrite Hnot. cbn [s1 notices]. now rewrite <- app_assoc.
      * lia.
Qed.

(** With renaming off, [menu] returns at once: it reads no line and
    changes nothing. *)
Lemma menu_without_renaming : forall py_int api client_list inputs s,
  menu py_int api false client_list inputs s = Done client_list s inputs.
Proof. reflexivity. Qed.

(** X21.  Once the sweep has returned, the two loops of [run_monitor]
    cannot raise.  Their disconnect notices all come before their connect
    notices; the live list shrinks by one for each disconnect notice and
    grows by one for each connect notice; and [changes_found] is true
    exactly when a notice was given.  The cycle then ends as [menu] ends
    on the live list when a notice was given, and returns at once
    otherwise; with renaming off it returns in both cases, and reads no
    line. *)
Theorem cycle_always_returns :
  forall py_int api ping arp id client_list inputs s sw,
  ping_all ping (u_ip id) 1000 = Return sw ->
  exists client_list' s' gone come,
    run_monitor api ping arp id client_list s
    = Return ((client_list', negb (Nat.eqb (length gone + length come) 0)), s')
    /\ notices s' = notices s ++ map DeviceDisconnected gone ++ come
    /\ Forall (fun e => is_connect e = true) come
    /\ length client_list' + length gone
       = length client_list + length come
    /\ (forall ask_name_change,
        run_monitor_cycle py_int api ask_name_change ping arp id
                          client_list inputs s
        = if Nat.eqb (length gone + length come) 0
          then Done client_list' s' inputs
          else menu py_int api ask_name_change client_list' inputs s')
    /\ run_monitor_cycle py_int api false ping arp id client_list inputs s
       = Done client_list' s' inputs.
Proof.
  intros py_int api ping arp id cl inputs s sw Hsw.
  assert (Hloops : exists l' s' ds evs,
            run_monitor api ping arp id cl s
            = Return ((l', negb (Nat.eqb (length ds + length evs) 0)), s')
            /\ notices s' = notices s ++ map DeviceDisconnected ds ++ evs
            /\ Forall (fun e => is_connect e = true) evs
            /\ length l' + length ds = length cl + length evs).
  { unfold run_monitor.
    rewrite (bind_Return _ _ s (a:=sw) (s':=s))
      by (unfold lift; now rewrite Hsw).
    destruct (check_loop_total (length cl) 0 cl (ip_list sw) false s)
      as (l1 & latest1 & s1 & ds & Hrun1 & Hnot1 & _ & _ & Hlen1).
    rewrite (bind_Return _ _ _ Hrun1). cbn [orb].
    destruct (connect_loop_appends api arp latest1 0 l1
                (negb (Nat.eqb (length ds) 0)) s1)
      as (l' & s' & evs & Hrun2 & Hip & Hnot2 & Hlen2 & Hall).
    exists l', s', ds, evs. rewrite Hrun2. split; [|split; [|split]].
    - do 3 f_equal. rewrite Hlen2.
      destruct (length ds), (length latest1); reflexivity.
    - now rewrite Hnot2, Hnot1, <- app_assoc.
    - exact Hall.
    - assert (E : length l' = length l1 + length latest1).
      { rewrite <- (length_map c_ip l'), Hip, length_app, length_map.
        reflexivity. }
      lia. }
  destruct Hloops as (l' & s' & ds & evs & Hrun & Hnot & Hall & Hlen).
  exists l', s', ds, evs.
  split; [exact Hrun|]. split; [exact Hnot|]. split; [exact Hall|].
  split; [exact Hlen|]. split.
  - intros ask. unfold run_monitor_cycle. rewrite Hrun.
    now destruct (Nat.eqb (length ds + length evs) 0).
  - unfold run_monitor_cycle. rewrite Hrun.
    destruct (negb (Nat.eqb (length ds + length evs) 0));
      [apply menu_without_renaming | reflexivity].
Qed.

Lemma cycle_always_returns_witness :
  let sw := mk_sweep ["192.168.1.1"; "192.168.1.4"] 8 4
              [("192.168.1.0", false); ("192.168.1.1", true);
               ("192.168.1.3", false); ("192.168.1.4", true);
               ("192.168.1.5", false); ("192.168.1.6", false);
               ("192.168.1.7", false); ("192.168.1.8", false)] in
  ping_all (answers ["192.168.1.1"; "192.168.1.4"]) (u_ip this_host) 1000
  = Return sw
  /\ exists client_list' s' (gone : list device) (come : list event),
       run_monitor no_vendor (answers ["192.168.1.1"; "192.168.1.4"])
                   (fun _ => arp_without_tv) this_host [router; tv; phone]
                   home_registry
       = Return ((client_list',
                  negb (Nat.eqb (length gone + length come) 0)), s')
       /\ length client_list' + length gone = 3 + length come
       /\ run_monitor_cycle int_of_str no_vendor false
            (answers ["192.168.1.1"; "192.168.1.4"])
            (fun _ => arp_without_tv) this_host [router; tv; phone]
            ["3"; "Office phone"; "n"] home_registry
          = Done client_list' s' ["3"; "Office phone"; "n"].
Proof.
  intros sw.
  assert (H : ping_all (answers ["192.168.1.1"; "192.168.1.4"])
                       (u_ip this_host) 1000 = Return sw)
    by (vm_compute; reflexivity).
  split; [exact H|].
  destruct (@cycle_always_returns int_of_str no_vendor
              (answers ["192.168.1.1"; "192.168.1.4"])
              (fun _ => arp_without_tv) this_host [router; tv; phone]
              ["3"; "Office phone"; "n"] home_registry sw H)
    as (l' & s' & gone & come & H1 & _ & _ & H4 & _ & H6).
  exists l', s', gone, come. auto.
Defined.

Lemma nth_error_firstn_snoc : forall (A : Type) i (l : list A) d,
  nth_error l i = Some d -> firstn (S i) l = firstn i l ++ [d].
Proof.
  intros A. induction i as [|i IH]; intros [|a l] d H; try discriminate.
  - cbn in H. injection H as <-. reflexivity.
  - cbn in H. cbn [firstn app]. f_equal. now apply IH.
Qed.

Lemma nth_error_split_at : forall (A : Type) i (l : list A) d,
  nth_error l i = Some d -> l = firstn i l ++ d :: skipn (S i) l.
Proof.
  intros A i l d H. rewrite <- (firstn_skipn i l) at 1.
  now rewrite (@nth_error_skipn_cons A i l d H).
Qed.

(** With distinct addresses, removing the dict at index [i] takes out
    that very element. *)
Lemma list_remove_at : forall i l d,
  NoDup (map c_ip l) -> nth_error l i = Some d ->
  Py.list_remove device_eqb d l = Some (firstn i l ++ skipn (S i) l).
Proof.
  induction i as [|i IH]; intros [|y l] d Hnd H; try discriminate.
  - cbn in H. injection H as <-. cbn. now rewrite device_eqb_refl.
  - cbn in H. cbn [map] in Hnd. inversion Hnd as [|? ? Hn Hnd']; subst.
    cbn [Py.list_remove]. destruct (device_eqb y d) eqn:E.
    + exfalso. apply Hn. apply device_eqb_ip in E. rewrite E.
      apply in_map. now apply nth_error_In in H.
    + now rewrite (IH l d Hnd' H).
Qed.

(** With distinct addresses in the list, the first loop of [run_monitor]
    removes only devices whose address is not in the sweep. *)
Lemma check_loop_sound : forall latest0 fuel i client_list latest changes s,
  NoDup (map c_ip client_list) ->
  (forall a, In a latest0 ->
             In a latest \/ In a (map c_ip (firstn i client_list))) ->
  exists l' latest' changes' s' ds,
    check_loop fuel i client_list latest changes s
    = Return ((l', latest', changes'), s')
    /\ notices s' = notices s ++ map DeviceDisconnected ds
    /\ Forall (fun d => In d client_list /\ ~ In (c_ip d) latest0) ds
    /\ incl l' client_list.
Proof.
  intros latest0. induction fuel as [|fuel IH];
    intros i cl latest ch s Hnd Hinv.
  - exists cl, latest, ch, s, []. cbn. rewrite app_nil_r.
    repeat split; auto using incl_refl.
  - cbn [check_loop]. destruct (nth_error cl i) as [d|] eqn:Hd.
    2:{ exists cl, latest, ch, s, []. cbn. rewrite app_nil_r.
        repeat split; auto using incl_refl. }
    destruct (@ip_scan_total (c_ip d) latest s latest (incl_refl latest))
      as (b & l1 & Hscan & Hf & Ht).
    rewrite (bind_Return _ _ _ Hscan). destruct b.
    + specialize (Ht eq_refl). apply IH; [exact Hnd|].
      intros a Ha. rewrite (@nth_error_firstn_snoc device i cl d Hd).
      rewrite map_app, in_app_iff. cbn [map In].
      destruct (Hinv a Ha) as [Hl|Hp]; [|tauto].
      destruct (@list_remove_keeps (c_ip d) latest l1 a Ht Hl); subst; tauto.
    + destruct (Hf eq_refl) as [-> Hnot].
      set (s1 := mk_store (db s) (api_log s)
                          (notices s ++ [DeviceDisconnected d])).
      rewrite (bind_Return _ _ s (a:=tt) (s':=s1)) by reflexivity.
      rewrite (@list_remove_at i cl d Hnd Hd).
      pose proof (@nth_error_split_at device i cl d Hd) as Hsplit.
      assert (Hi : length (firstn i cl) = i).
      { apply firstn_length_le. apply Nat.lt_le_incl.
        apply nth_error_Some. congruence. }
      assert (Hfresh : ~ In (c_ip d) (map c_ip (firstn i cl))).
      { rewrite Hsplit in Hnd. rewrite map_app in Hnd. cbn [map] in Hnd.
        apply NoDup_remove_2 in Hnd. intros Hin. apply Hnd.
        apply in_or_app. now left. }
      assert (Hnd1 : NoDup (map c_ip (firstn i cl ++ skipn (S i) cl))).
      { rewrite Hsplit in Hnd. rewrite map_app in Hnd |- *.
        cbn [map] in Hnd. now apply NoDup_remove_1 in Hnd. }
      destruct (IH (S i) (firstn i cl ++ skipn (S i) cl) latest true s1 Hnd1)
        as (l' & latest' & ch' & s' & ds & Hrun & Hnots & Hall & Hincl).
      { intros a Ha. destruct (Hinv a Ha) as [Hl|Hp]; [now left|right].
        apply in_map_iff in Hp. destruct Hp as (c & <- & Hc).
        apply in_map. rewrite firstn_app. apply in_or_app. left.
        rewrite firstn_all2 by (rewrite Hi; lia). exact Hc. }
      assert (Hsub : incl (firstn i cl ++ skipn (S i) cl) cl).
      { intros a Ha. rewrite Hsplit. apply in_app_or in Ha.
        apply in_or_app. destruct Ha; [now left | right; now right]. }
      exists l', latest', ch', s', (d :: ds). split; [exact Hrun|].
      split; [|split].
      * rewrite Hnots. cbn [s1 notices map]. now rewrite <- app_assoc.
      * constructor.
        -- split; [now apply nth_error_In in Hd|].
           intros Hin. destruct (Hinv _ Hin); contradiction.
        -- eapply Forall_impl; [|exact Hall].
           intros c [Hc Hn]. split; [now apply Hsub | exact Hn].
      * intros a Ha. apply Hsub. now apply Hincl.
Qed.

(** X22.  When the live list holds no address twice, a cycle gives a
    disconnect notice only for a device of the list whose address is not
    in the sweep, and every device it keeps from the list was in it: no
    device that answered is reported gone. *)
Theorem no_disconnect_for_a_device_that_answered :
  forall api ping arp id client_list s sw,
  ping_all ping (u_ip id) 1000 = Return sw ->
  NoDup (map c_ip client_list) ->
  exists client_list' changes s' gone come,
    run_monitor api ping arp id client_list s
    = Return ((client_list', changes), s')
    /\ notices s' = notices s ++ map DeviceDisconnected gone ++ come
    /\ Forall (fun e => is_connect e = true) come
    /\ Forall (fun d => In d client_list /\ ~ In (c_ip d) (ip_list sw)) gone.
Proof.
  intros api ping arp id cl s sw Hsw Hnd. unfold run_monitor.
  rewrite (bind_Return _ _ s (a:=sw) (s':=s))
    by (unfold lift; now rewrite Hsw).
  destruct (@check_loop_sound (ip_list sw) (length cl) 0 cl (ip_list sw)
              false s Hnd)
    as (l1 & latest1 & ch1 & s1 & ds & Hrun1 & Hnot1 & Hall1 & _).
  { intros a Ha. now left. }
  rewrite (bind_Return _ _ _ Hrun1).
  destruct (connect_loop_appends api arp latest1 0 l1 ch1 s1)
    as (l' & s' & evs & Hrun2 & _ & Hnot2 & _ & Hall2).
  exists l'. eexists. exists s', ds, evs. split; [exact Hrun2|].
  split; [|split]; trivial. now rewrite Hnot2, Hnot1, <- app_assoc.
Qed.

Lemma no_disconnect_for_a_device_that_answered_witness :
  let sw := mk_sweep ["192.168.1.1"; "192.168.1.4"] 8 4
              [("192.168.1.0", false); ("192.168.1.1", true);
               ("192.168.1.3", false); ("192.168.1.4", true);
               ("192.168.1.5", false); ("192.168.1.6", false);
               ("192.168.1.7", false); ("192.168.1.8", false)] in
  ping_all (answers ["192.168.1.1"; "192.168.1.4"]) (u_ip this_host) 1000
  = Return sw
  /\ NoDup (map c_ip [router; tv; phone])
  /\ exists client_list' changes s' gone (come : list event),
       run_monitor no_vendor (answers ["192.168.1.1"; "192.168.1.4"])
                   (fun _ => arp_without_tv) this_host [router; tv; phone]
                   home_registry
       = Return ((client_list', changes), s')
       /\ Forall (fun d => In d [router; tv; phone]
                           /\ ~ In (c_ip d) (ip_list sw)) gone.
Proof.
  intros sw.
  assert (H : ping_all (answers ["192.168.1.1"; "192.168.1.4"])
                       (u_ip this_host) 1000 = Return sw)
    by (vm_compute; reflexivity).
  assert (Hnd : NoDup (map c_ip [router; tv; phone])).
  { cbn. repeat constructor; cbn; intuition discriminate. }
  split; [exact H|]. split; [exact Hnd|].
  destruct (@no_disconnect_for_a_device_that_answered no_vendor
              (answers ["192.168.1.1"; "192.168.1.4"])
              (fun _ => arp_without_tv) this_host [router; tv; phone]
              home_registry sw H Hnd)
    as (l' & ch & s' & gone & come & H1 & _ & _ & H4).
  exists l', ch, s', gone, come. auto.
Defined.

Lemma fetchone_filter_None_iff : forall (f : row -> bool) t,
  existsb f t = false -> fetchone (filter f t) = None.
Proof.
  intros f t H. destruct (fetchone (filter f t)) as [r|] eqn:E;
    [|reflexivity].
  apply fetchone_filter_Some in E. destruct E as (_ & _ & E). congruence.
Qed.

(** * The first registration of a hardware address *)

(** X23.  When the first device of the list has a hardware address
    without a row, [add_clients_to_db] gives it exactly one row: the row
    holds the name the device carries and its hardware address, and an
    id that is not in use before.  As long as every id in use is below
    the largest rowid, 9223372036854775807, that id is one more than the
    largest id of the table, or 1 in an empty table. *)
Theorem first_registration : forall d l s,
  registered (c_mac d) s = false ->
  exists s' i,
    add_clients_to_db (d :: l) s = Return (tt, s')
    /\ rows_of (c_mac d) s' = [mk_row (c_name d) (c_mac d) i]
    /\ ~ In i (map r_id (table_of s))
    /\ id_of (c_mac d) s' = Some i
    /\ (below_max_rowid s ->
        i = largest_plus_one (map r_id (table_of s))).
Proof.
  intros d l s Hreg. unfold registered in Hreg.
  pose proof (@next_id_below_max s) as Hbelow.
  set (t := table_of s) in *.
  set (r := mk_row (c_name d) (c_mac d) (next_id t)).
  assert (Hstart : exists s0, create_table_if_not_exists s = Return (tt, s0)
                              /\ db s0 = Some t).
  { unfold create_table_if_not_exists, t, table_of.
    destruct (db s) as [t0|] eqn:E; eexists; split; try reflexivity.
    exact E. }
  destruct Hstart as (s0 & Hcreate & Hdb0).
  assert (Hins : insert_client (c_name d) (c_mac d) s0
                 = Return (tt, set_db s0 (t ++ [r]))).
  { unfold insert_client. rewrite Hdb0. fold (has_mac (c_mac d)).
    now rewrite Hreg. }
  destruct (@register_each_appends l (set_db s0 (t ++ [r])) (t ++ [r])
              eq_refl)
    as (new & s' & Hrun & Hdb' & _ & _ & _ & _ & Hnew).
  assert (Hrows : filter (has_mac (c_mac d)) ((t ++ [r]) ++ new) = [r]).
  { rewrite !filter_app.
    assert (E1 : filter (has_mac (c_mac d)) t = []).
    { destruct (filter (has_mac (c_mac d)) t) as [|r0 f0] eqn:E;
        [reflexivity|].
      assert (Hin : In r0 (filter (has_mac (c_mac d)) t))
        by (rewrite E; now left).
      apply filter_In in Hin. destruct Hin as [Hin Hm].
      assert (existsb (has_mac (c_mac d)) t = true)
        by (apply existsb_exists; now exists r0).
      congruence. }
    assert (E2 : filter (has_mac (c_mac d)) new = []).
    { destruct (filter (has_mac (c_mac d)) new) as [|r0 f0] eqn:E;
        [reflexivity|].
      assert (Hin : In r0 (filter (has_mac (c_mac d)) new))
        by (rewrite E; now left).
      apply filter_In in Hin. destruct Hin as [Hin Hm].
      specialize (Hnew r0 Hin). apply has_mac_true in Hm.
      rewrite Hm, existsb_app in Hnew. cbn [existsb] in Hnew.
      unfold has_mac at 2 in Hnew. cbn [r_mac r] in Hnew.
      rewrite String.eqb_refl in Hnew. cbn [orb] in Hnew.
      now rewrite orb_true_r in Hnew. }
    rewrite E1, E2. cbn [filter app]. unfold has_mac. cbn [r_mac r].
    now rewrite String.eqb_refl. }
  exists s', (next_id t). split; [|split; [|split; [|split]]].
  - unfold add_clients_to_db. rewrite (bind_Return _ _ _ Hcreate).
    cbn [register_each].
    rewrite (bind_Return _ _ _ (select_where_mac_table (c_mac d) s0 Hdb0)).
    rewrite (fetchone_filter_None_iff _ _ Hreg).
    rewrite (bind_Return _ _ _ Hins). exact Hrun.
  - unfold rows_of, table_of. rewrite Hdb'. exact Hrows.
  - apply next_id_fresh.
  - unfold id_of, rows_of, table_of. rewrite Hdb', Hrows. reflexivity.
  - exact Hbelow.
Qed.

Lemma first_registration_witness :
  registered (c_mac unnamed_device) home_registry = false
  /\ below_max_rowid home_registry
  /\ exists s',
       add_clients_to_db [unnamed_device] home_registry = Return (tt, s')
       /\ rows_of "AA-BB-CC-DD-EE-FF" s'
          = [mk_row "unknown" "AA-BB-CC-DD-EE-FF" 4].
Proof.
  assert (Hb : below_max_rowid home_registry)
    by (repeat constructor).
  split; [reflexivity|]. split; [exact Hb|].
  destruct (@first_registration unnamed_device [] home_registry eq_refl)
    as (s' & i & H1 & H2 & _ & _ & H5).
  exists s'. split; [exact H1|]. rewrite (H5 Hb) in H2. exact H2.
Defined.
